(* ===== verification/_CoqProject ===== *)
-Q . S2P
Prelude.v
JsString.v
Json.v
JsonRoundTrip.v
JsonObjects.v
Toolkit.v
Platform.v
ConfigWriter.v
Installer.v
Cache.v
Invoker.v
Exporter.v
Run.v
Calls.v
Progress.v
Groups.v
Environment.v
Failures.v
Journal.v
