(* ===== verification/Prelude.v ===== *)
(** * A verification development for the mise GitHub Action (src/src/index.ts)

    ** The program

    [src/src/index.ts] is the main step of a GitHub Action.  It is one
    sequential script, [run], that drives the Actions toolkit:

    - Config Writer: [setToolVersions], [setMiseToml], [writeFile] write
      [.tool-versions] and [.mise.toml] from two inputs, when non-empty.
    - Cache Manager: [restoreMiseCache] hashes the configuration files,
      builds the cache key, saves run-scoped state and restores the cache.
    - Installer: [setupMise] downloads the binary with curl, makes it
      executable and puts its directory on PATH; [getOS] names the platform.
    - Environment Bootstrapper: [setEnvVarsPreInstall], [setEnvIfUnset],
      [getExperimental] set three variables unless they are already set.
    - Tool Invoker: [mise], [testMise], [miseInstall], [miseEnv] run the
      binary inside a log group.
    - Environment Exporter: [setEnvVars], [setEnv] parse the JSON printed by
      [mise env --json] and export every entry, PATH segment by segment.
    - [run] sequences all of this under a single try/catch; the last line
      of the module, [run()], starts it.

    ** The model, file by file

    - [Prelude] (this file): thrown values ([thrown]), results ([res]), the
      state-and-exception monad [act] in which every function of the script
      is written, with its notation scope [act_scope]; the class [Respects]
      that states frame conditions of actions; shared lemmas on strings and
      lists; the tactics and the hint databases [act] and [frame].  An exception never
      rolls the state back: [bind] keeps the state reached when the
      exception was thrown, as the JavaScript original keeps every mutation
      performed before a [throw].
    - [JsString]: the JavaScript string primitives the script relies on:
      truthiness of a string, [||] and [??], [String.prototype.split] and
      [Array.prototype.join] with a separator, [trim] (which removes the
      white space of ECMAScript, the characters of two and three bytes
      included), template concatenation.
    - [Json]: the values of [JSON.parse], a parser for JSON text, and the
      conversions the exporter applies to a parsed value ([Object.entries],
      string conversion, [toCommandValue]); that the parser terminates
      within its fuel and reads back an escaped string.  Numbers are
      printed the way JavaScript prints them ([number_to_string]) when
      they have at most 15 significant digits, and [Object.entries] of a
      string yields its UTF-16 code units ([chars_of]).
    - [JsonRoundTrip]: the values a JavaScript program can hold
      ([wf_json]: canonical numbers, objects in property order) and the
      proof that [JSON.parse] reads back what [JSON.stringify] prints for
      them, by a nested induction on values.
    - [JsonObjects]: the objects [JSON.parse] builds have each key once
      ([distinct_keys]), by induction on the fuel of the parser.
    - [Toolkit]: the state of a run ([Runner]: [process.env], the files the
      step has written, the exit code and the journal of everything the
      step emitted or called, in order), the outside world ([Host]: platform,
      inputs and the answers of the file system, subprocesses, the hashing
      and cache services), and the toolkit calls of the script as actions
      ([getInput], [getBooleanInput], [exportVariable], [addPath],
      [setOutput], [saveState], [info], [startGroup], [group], [setFailed],
      [exec], [getExecOutput], [mkdir], [fsWriteFile], [hashFiles],
      [restoreCache]).  The host says how a process ends; [exec] and
      [getExecOutput] reject when it exits with a code other than 0
      ([check_exit_code]), as [@actions/exec] does for a caller that does
      not set [ignoreReturnCode], and index.ts never sets it.
    - [ConfigWriter], [Cache], [Installer], [Invoker], [Exporter]: one file
      per component, each function of index.ts as one definition with the
      same name, guards and order of calls.
    - [Run]: [run] itself, the entry point ([entry]) with the ways the
      process ends ([Ending]), the stage machine of the pipeline as a step
      relation ([step]) and as a function ([step_fn], [run_machine]), the
      refinement between [run] and the machine, and the well-formed
      configurations of the machine ([wf_config]).
    - [Calls]: the external calls of a stage and of a run
      ([stage_calls], [main_calls]), their order and their number.
    - [Progress]: the interface [Cooperative] of a host on which every
      call returns, with [sample_host] as an instance, and the proof that
      on such a host the run succeeds.
    - [Groups]: the log groups the events open and close
      ([group_depth]), stage by stage.
    - [Environment]: the environment in which each stage starts
      ([env_before]), the stage at which the pipeline throws
      ([fails_at]), and what a run leaves in [process.env] when it
      succeeds, when it fails, and when it runs a second time.
    - [Failures]: the processes each stage runs with their exit codes
      ([exits_with]), and what an exit code other than 0 does to the run.
    - [Journal]: the log of a run that succeeds, written down as a list
      of events stage by stage ([stage_journal], [run_journal]) from the
      inputs, the initial environment and three answers of the outside
      world ([Answers]: the hash of the configuration files, the key the
      cache service restores, the entries the tool prints); the outputs
      and the saved state among the events ([outputs], [saved_state]).

    ** Conventions

    Strings are [string]: the bytes of the UTF-8 encoding of the
    JavaScript string.  A JavaScript [undefined] result is
    [None].  The journal is in chronological order (oldest first), so
    "happens before" is list order and "never undone" is the prefix order.
    Every answer of the outside world is a function of the call's arguments
    and of the [Runner] at the time of the call (which contains the whole
    history), so the model is deterministic and executable: witnesses run
    the script on concrete hosts by [vm_compute].

    ** What the theorems show

    - [Run]: [run] refines the stage machine ([step]) and the machine has
      no other behaviour ([run_refines_machine],
      [machine_final_is_run_outcome]).  The machine is the specification:
      its failure transitions do not call [on_error], they say what the
      [catch] has to do, and the refinement is what ties the [catch] of
      the source to them.  The journal only grows and [process.env]
      always agrees with the file commands issued, on every path and
      whichever way the run ends, so later steps of the job see what this
      step saw; the pipeline stops at the first stage that throws
      ([run_reports_error]); an [Error] becomes exit code 1 and an error
      command, any other thrown value is rethrown, and the process ends
      accordingly ([entry_endings]); no cache call unless [cache] is true;
      every transition preserves [wf_config], so a reachable
      configuration is in [Failed] exactly with exit code 1 and one error
      command, its last event ([machine_well_formed]).  Determinism of
      the machine, its bound of eight transitions and its executable form
      ([step_fn], [run_machine]) are lemmas about the model, not results
      about the source: they hold whatever the stages do.
    - [Calls]: the external calls of every run are made in the order of
      the pipeline and stop at the first failure ([run_calls_in_order]);
      there are at most ten of them, and at least five when every stage
      returns ([run_calls_bounded]).
    - [Environment]: the environment a successful run leaves behind,
      variable by variable, whatever JSON value the tool prints
      ([run_environment]); the environment a run leaves when it fails
      before the export, by the failing stage
      ([failed_run_environment]); a second run changes no variable but
      PATH, which gets the same segments again
      ([second_run_environment]).
    - [Failures]: a process that exits with a code other than 0 (curl,
      chmod, the binary at the version check, the install or the export)
      stops the run with exit code 1 and the message of [@actions/exec]
      as last event; it is the last external call of the run
      ([run_halts_on_exit_code]).  Conversely, a run whose body returns
      read boolean inputs that were booleans, saw every process exit
      with 0 and was given an output it could export
      ([success_requirements]): with [run_succeeds] of [Progress] it
      says when the step reports success.
    - [Journal]: the script emits what the reference log says, in that
      order, at every stage the machine reaches without a throw and at
      the end of a run that succeeds, and a run in which a stage throws
      an [Error] has logged the stages before it, what that stage
      emitted and the error command ([run_journal_spec]); a run that
      succeeds hands over one output, [cache-hit], the state of the
      post step with [CACHE_KEY] exactly on a hit, and the two
      configuration files ([run_handover]).  Both are instances of one
      lemma on the machine, [reachable_boundary] in [Run]: what every
      stage that returns carries over to the next stage holds wherever
      the machine stands short of a failure ([on_track]).
    - [Groups]: the groups opened with [core.startGroup] are never
      closed: a successful run leaves three of them open, four with the
      cache ([run_leaves_groups_open]).
    - [Progress]: on a [Cooperative] host, with boolean inputs that are
      booleans and a tool that prints an exportable environment, every
      stage returns, the machine reaches [Done] from every stage and
      [run] returns with the exit code untouched ([run_succeeds]);
      conversely a run that succeeds has read boolean inputs that are
      booleans ([success_valid_inputs]).
    - [JsonRoundTrip]: [JSON_parse (JSON_stringify v) = Ok v] for every
      well-formed [v] ([JSON_parse_stringify]); with it, what the tool
      prints is what [setEnvVars] exports, member by member
      ([setEnvVars_roundtrip] in [Exporter]).
    - [Exporter]: the export as a fold over the entries of the parsed
      object; PATH segments end up in reverse order in front of the old
      PATH; a tool that exits with a code other than 0 makes
      [getExecOutput] throw, so the test of the exit code in [setEnvVars]
      never fails and its [else] branch is dead
      ([setEnvVars_nonzero_exit], [setEnvVars_exit_test_redundant]);
      malformed output throws before the environment is touched; a PATH that is not a string stops the loop
      half way; no entry is overwritten by another, since [JSON.parse]
      never yields a key twice ([setEnvVars_overrides]); [setEnvIfUnset] keeps a non-empty value and replaces a
      missing or empty one.
    - [Cache]: the events of [restoreMiseCache] on a hit, on a miss and when
      [cache_save] is not a boolean; the key is injective in the hash; the
      saved [CACHE] flag is the input itself.
    - [Installer], [ConfigWriter], [Invoker], [Platform]: the behaviour of
      each function when every call succeeds and when one throws or a
      process exits with a code other than 0, the order of the calls, the
      download URL, the platform token; an input that is blank, white
      space of more than one byte included, writes no file
      ([setToolVersions_skips_blank]).
    - Frame conditions are stated once, with the class [Respects] and the
      preorders of [Toolkit] ([journal_grows], [env_synced], [env_kept],
      [files_kept], [exit_kept], [quiet], [adds_only]), proved per
      component by
      [solve_frame] and lifted to [run] by [run_respects].

    ** Bounds and fuel

    The stage machine has eight stages before a final one; [remaining]
    counts them and bounds the number of transitions.  [pipeline] runs at
    most [n] stages and [main] is [pipeline 8]; [run_machine] and
    [fails_at] are given the same eight.  The JSON parser recurses
    on a fuel; [JSON_parse] gives it twice the length of the text plus
    one.  That is enough: every parsing function that returns has
    consumed at least one character, so with this fuel no parsing
    function reports [NoFuel], and any larger fuel gives the same result
    ([parse_value_fuel] in [Json]).  In the round trip the text of a
    value [v] is read with fuel [json_size v], the number of values and
    members of [v]; [JSON_parse_intro] carries the result over to the
    fuel of [JSON_parse].  A canonical number has at most 15 digits, so
    that it is below 2^53 and printed in full by JavaScript.

    ** Not modelled

    The bodies of the external programs (curl, chmod, mise), the cache
    service, the SHA-256 of [hashFiles] and the file system beyond the
    files the step itself writes: their answers are fields of [Host].
    [miseDir] of [./utils] is neither among the sources nor described by
    the specification; the directory is a field of [Host] and every
    theorem holds for any value of it.  The cache-save post step runs in
    another process after the job; it is not among the sources and the
    specification leaves it out of scope: the model stops at the state
    [restoreMiseCache] saves for it, which [run_handover] in [Journal]
    states in full.  What Node does with the promise
    [run()] returns when [run] rethrows is outside the script; the
    machine records it as the final stage [Crashed].  Promises are
    modelled by sequential composition: the script awaits every call
    before the next one.  Every call of the model returns or throws: a
    process that never exits (a download that hangs) has no counterpart,
    so nothing is claimed about the time a run takes.  The file commands
    of [@actions/core] ([exportVariable], [addPath], [setOutput],
    [saveState]) never throw in the model; the toolkit throws when the
    command file of the runner is missing, which is outside index.ts. *)

From Stdlib Require Import Ascii.
From stdpp Require Import base option list strings gmap.

(** ** Thrown values and results *)

(** A value thrown by JavaScript code: an instance of [Error] (with the
    constructor's name and the message) or anything else. *)
Inductive thrown : Type :=
| JsError (name message : string)
| NonError (descr : string).

#[global] Instance thrown_eq_dec : EqDecision thrown.
Proof. solve_decision. Defined.

(** [err instanceof Error] *)
Definition instanceof_Error (t : thrown) : bool :=
  match t with JsError _ _ => true | NonError _ => false end.

(** The result of a call that may throw. *)
Inductive res (A : Type) : Type :=
| Ok (a : A)
| Throw (t : thrown).
Arguments Ok {A} a.
Arguments Throw {A} t.

#[global] Instance res_eq_dec `{EqDecision A} : EqDecision (res A).
Proof. solve_decision. Defined.

Definition is_Ok {A} (r : res A) : bool :=
  match r with Ok _ => true | Throw _ => false end.

Definition res_map {A B} (f : A -> B) (r : res A) : res B :=
  match r with Ok a => Ok (f a) | Throw t => Throw t end.

(** ** The state-and-exception monad *)

(** An action over a state [S]: it returns a value or throws, and in both
    cases leaves a state behind. *)
Definition act (S A : Type) : Type := S -> res A * S.

Definition ret {S A} (a : A) : act S A := fun s => (Ok a, s).

Definition bind {S A B} (m : act S A) (k : A -> act S B) : act S B :=
  fun s => match m s with
           | (Ok a, s') => k a s'
           | (Throw t, s') => (Throw t, s')
           end.

Definition throw {S A} (t : thrown) : act S A := fun s => (Throw t, s).

(** [try { m } catch (t) { h t }] *)
Definition catch {S A} (m : act S A) (h : thrown -> act S A) : act S A :=
  fun s => match m s with
           | (Ok a, s') => (Ok a, s')
           | (Throw t, s') => h t s'
           end.

(** [try { m } finally { f }], for a finaliser that does not throw. *)
Definition finally {S A} (m : act S A) (f : S -> S) : act S A :=
  fun s => let '(r, s') := m s in (r, f s').

Definition gets {S A} (f : S -> A) : act S A := fun s => (Ok (f s), s).

Definition modify {S} (f : S -> S) : act S unit := fun s => (Ok tt, f s).

(** An answer of the outside world, computed from the current state. *)
Definition ask {S A} (f : S -> res A) : act S A := fun s => (f s, s).

(** A result that does not depend on the state. *)
Definition lift {S A} (r : res A) : act S A := fun s => (r, s).

Declare Scope act_scope.
Delimit Scope act_scope with act.
Bind Scope act_scope with act.

Notation "x <- m ;; k" := (bind m (fun x => k))
  (at level 100, m at next level, right associativity) : act_scope.
Notation "m ;; k" := (bind m (fun _ => k))
  (at level 100, right associativity) : act_scope.

#[global] Open Scope act_scope.

(** [for (const x of l) body x] *)
Fixpoint for_each {S A} (body : A -> act S unit) (l : list A) : act S unit :=
  match l with
  | [] => ret tt
  | x :: l' => body x ;; for_each body l'
  end.

(** The result and the final state of running an action. *)
Definition result_of {S A} (m : act S A) (s : S) : res A := (m s).1.
Definition state_of {S A} (m : act S A) (s : S) : S := (m s).2.

(** Two actions are equivalent when they agree on every state. *)
#[global] Instance act_equiv {S A} : Equiv (act S A) := fun m1 m2 => forall s, m1 s = m2 s.

(** ** Frame conditions *)

(** [Respects R m]: whatever [m] returns or throws, the state it leaves is
    related by [R] to the state it started from. *)
Class Respects {S A} (R : relation S) (m : act S A) : Prop :=
  respects : forall s, R s (state_of m s).

#[global] Hint Mode Respects - - ! ! : typeclass_instances.

Create HintDb act discriminated.

(** ** Tactics *)

(** Unfold the monad's operations and compute. *)
Ltac act_unfold :=
  unfold result_of, state_of, bind, ret, throw, catch, finally, gets, modify, ask,
    lift in *.

(** Case analysis on the outcome of the first sub-action the goal is stuck on. *)
Ltac act_step :=
  match goal with
  | |- context [match ?m ?s with pair _ _ => _ end] =>
      let r := fresh "r" in let s' := fresh "s" in let E := fresh "E" in
      destruct (m s) as [r s'] eqn:E; try destruct r
  end.

(** ** Lemmas: the monad *)

Section ActLemmas.
Context {S : Type}.

#[global] Instance act_equivalence {A} : Equivalence (≡@{act S A}).
Proof.
  split; repeat intro; [done | by symmetry | etrans; eauto].
Qed.

#[global] Instance bind_proper {A B} :
  Proper ((≡) ==> pointwise_relation A (≡) ==> (≡)) (@bind S A B).
Proof.
  intros m1 m2 Hm k1 k2 Hk s. unfold bind. rewrite Hm.
  destruct (m2 s) as [[a|t] s']; [apply Hk | done].
Qed.

#[global] Instance catch_proper {A} :
  Proper ((≡) ==> pointwise_relation thrown (≡) ==> (≡)) (@catch S A).
Proof.
  intros m1 m2 Hm k1 k2 Hk s. unfold catch. rewrite Hm.
  destruct (m2 s) as [[a|t] s']; [done | apply Hk].
Qed.

Lemma bind_ret_l {A B} (a : A) (k : A -> act S B) : bind (ret a) k ≡ k a.
Proof. done. Qed.

Lemma bind_ret_r {A} (m : act S A) : bind m ret ≡ m.
Proof. intros s. unfold bind, ret. by destruct (m s) as [[a|t] s']. Qed.

Lemma bind_assoc {A B C} (m : act S A) (k : A -> act S B) (k' : B -> act S C) :
  bind (bind m k) k' ≡ bind m (fun a => bind (k a) k').
Proof. intros s. unfold bind. by destruct (m s) as [[a|t] s']. Qed.

Lemma bind_throw {A B} (t : thrown) (k : A -> act S B) : bind (throw t) k ≡ throw t.
Proof. done. Qed.

Lemma catch_ret {A} (a : A) (h : thrown -> act S A) : catch (ret a) h ≡ ret a.
Proof. done. Qed.

Lemma catch_throw {A} (t : thrown) (h : thrown -> act S A) : catch (throw t) h ≡ h t.
Proof. done. Qed.

(** Running a [bind]: the two cases of its first action. *)
Lemma bind_ok {A B} (m : act S A) (k : A -> act S B) s a s' :
  m s = (Ok a, s') -> bind m k s = k a s'.
Proof. intros E. unfold bind. by rewrite E. Qed.

Lemma bind_throws {A B} (m : act S A) (k : A -> act S B) s t s' :
  m s = (Throw t, s') -> bind m k s = (Throw t, s').
Proof. intros E. unfold bind. by rewrite E. Qed.

(** Inversion of a [bind] that succeeded, and of one that threw. *)
Lemma bind_inv_ok {A B} (m : act S A) (k : A -> act S B) s b s2 :
  bind m k s = (Ok b, s2) ->
  exists a s1, m s = (Ok a, s1) /\ k a s1 = (Ok b, s2).
Proof.
  unfold bind. destruct (m s) as [[a|t] s1]; [eauto | done].
Qed.

Lemma bind_inv_throw {A B} (m : act S A) (k : A -> act S B) s t s2 :
  bind m k s = (Throw t, s2) ->
  m s = (Throw t, s2) \/ exists a s1, m s = (Ok a, s1) /\ k a s1 = (Throw t, s2).
Proof.
  unfold bind. destruct (m s) as [[a|t'] s1]; [eauto | intros [= -> ->]; eauto].
Qed.

Lemma for_each_app {A} (body : A -> act S unit) (l1 l2 : list A) :
  for_each body (l1 ++ l2) ≡ (for_each body l1 ;; for_each body l2).
Proof.
  induction l1 as [|x l1 IH]; simpl.
  - by rewrite bind_ret_l.
  - rewrite bind_assoc. by setoid_rewrite IH.
Qed.

(** A loop whose body always succeeds is a left fold over the states. *)
Lemma for_each_total {A} (body : A -> act S unit) (f : A -> S -> S) (l : list A) s :
  (forall x s, body x s = (Ok tt, f x s)) ->
  for_each body l s = (Ok tt, foldl (fun s x => f x s) s l).
Proof.
  intros Hbody. revert s. induction l as [|x l IH]; intros s; simpl; [done|].
  unfold bind. by rewrite Hbody, IH.
Qed.

End ActLemmas.

(** ** Lemmas: frame conditions *)

Section RespectsLemmas.
Context {S : Type} (R : relation S).

Lemma ret_respects `{!Reflexive R} {A} (a : A) : Respects R (ret a).
Proof. intros s. apply reflexivity. Qed.

Lemma throw_respects `{!Reflexive R} {A} (t : thrown) : Respects R (@throw S A t).
Proof. intros s. apply reflexivity. Qed.

Lemma gets_respects `{!Reflexive R} {A} (f : S -> A) : Respects R (gets f).
Proof. intros s. apply reflexivity. Qed.

Lemma ask_respects `{!Reflexive R} {A} (f : S -> res A) : Respects R (ask f).
Proof. intros s. apply reflexivity. Qed.

Lemma lift_respects `{!Reflexive R} {A} (r : res A) : Respects R (lift r).
Proof. intros s. apply reflexivity. Qed.

Lemma modify_respects (f : S -> S) : (forall s, R s (f s)) -> Respects R (modify f).
Proof. intros H s. apply H. Qed.

Lemma bind_respects `{!Transitive R} {A B} (m : act S A) (k : A -> act S B) :
  Respects R m -> (forall a, Respects R (k a)) -> Respects R (bind m k).
Proof.
  intros Hm Hk s. specialize (Hm s). unfold state_of, bind in *.
  destruct (m s) as [[a|t] s1]; simpl in *; [|done].
  etrans; [exact Hm | apply Hk].
Qed.

Lemma catch_respects `{!Transitive R} {A} (m : act S A) (h : thrown -> act S A) :
  Respects R m -> (forall t, Respects R (h t)) -> Respects R (catch m h).
Proof.
  intros Hm Hh s. specialize (Hm s). unfold state_of, catch in *.
  destruct (m s) as [[a|t] s1]; simpl in *; [done|].
  etrans; [exact Hm | apply Hh].
Qed.

Lemma finally_respects `{!Transitive R} {A} (m : act S A) (f : S -> S) :
  Respects R m -> (forall s, R s (f s)) -> Respects R (finally m f).
Proof.
  intros Hm Hf s. specialize (Hm s). unfold state_of, finally in *.
  destruct (m s) as [r s1]; simpl in *. etrans; [exact Hm | apply Hf].
Qed.

Lemma respects_equiv {A} (m1 m2 : act S A) : m1 ≡ m2 -> Respects R m1 -> Respects R m2.
Proof. intros Hm H1 s. unfold state_of. rewrite <- Hm. apply H1. Qed.

(** What a frame condition says of one run of the action. *)
Lemma respects_run {A} (m : act S A) s r s' : Respects R m -> m s = (r, s') -> R s s'.
Proof. intros Hm E. specialize (Hm s). unfold state_of in Hm. by rewrite E in Hm. Qed.

Lemma for_each_respects `{!PreOrder R} {A} (body : A -> act S unit) (l : list A) :
  (forall x, Respects R (body x)) -> Respects R (for_each body l).
Proof.
  intros Hb. induction l as [|x l IH]; simpl.
  - apply ret_respects.
  - apply bind_respects; [apply Hb | intros _; apply IH].
Qed.

End RespectsLemmas.

(** The database [frame] holds the frame conditions of primitive actions;
    [solve_respects] proves those of composite actions from them. *)
Create HintDb frame discriminated.

Ltac solve_respects :=
  repeat first
    [ progress cbv zeta
    | solve [eauto 3 with frame]
    | exact _
    | reflexivity
    | lazymatch goal with
      | |- Respects _ (if ?b then _ else _) => destruct b
      | |- Respects _ (match ?x with _ => _ end) => destruct x
      | |- Respects _ _ =>
          first [ apply bind_respects | apply catch_respects
                | apply finally_respects | apply for_each_respects
                | apply ret_respects | apply throw_respects
                | apply gets_respects | apply ask_respects | apply lift_respects
                | apply modify_respects ]
      | |- forall _, _ => intro
      end ].

(** ** Lemmas: strings *)

Lemma string_app_cons (c : ascii) (s t : string) : String c s +:+ t = String c (s +:+ t).
Proof. reflexivity. Qed.

Lemma string_app_nil_r (s : string) : s +:+ "" = s.
Proof. induction s as [|c s IH]; [done | by rewrite string_app_cons, IH]. Qed.

Lemma string_app_assoc (s1 s2 s3 : string) : (s1 +:+ s2) +:+ s3 = s1 +:+ (s2 +:+ s3).
Proof. induction s1 as [|c s1 IH]; [done | by rewrite !string_app_cons, IH]. Qed.

Lemma string_length_app (s1 s2 : string) :
  String.length (s1 +:+ s2) = String.length s1 + String.length s2.
Proof. induction s1 as [|c s1 IH]; [done | rewrite string_app_cons; simpl; by rewrite IH]. Qed.

Lemma string_app_inv_head (s s1 s2 : string) : s +:+ s1 = s +:+ s2 -> s1 = s2.
Proof. apply String.app_inj. Qed.

Lemma string_app_eq_nil (s1 s2 : string) : s1 +:+ s2 = "" -> s1 = "" /\ s2 = "".
Proof. destruct s1; [done | rewrite string_app_cons; discriminate]. Qed.

Create Rewrite HintDb act.
#[export] Hint Rewrite string_app_nil_r string_app_assoc string_length_app : act.
