(* ===== verification/JsString.v ===== *)
(** * JsString: the JavaScript string primitives used by index.ts

    Truthiness of a string ([if (s)], [!s]), the operators [||] and [??],
    [String.prototype.split] with a one-character separator (the script
    only splits on [path.delimiter]), [Array.prototype.join] and
    [String.prototype.trim] (applied by [core.getInput]).

    Strings are sequences of bytes: the UTF-8 encoding of the JavaScript
    string.  [trim] removes the white space of ECMAScript, the characters
    of more than one byte included ([ws_length]).

    The lemmas relate [split_on] and [join_with] (they are inverse of each
    other on segments that do not contain the separator), and characterise
    [trim]: it is empty exactly on white space, and it is idempotent. *)

From Stdlib Require Import Ascii NArith.
From stdpp Require Import base option list strings.
From S2P Require Import Prelude.

(** ** Definitions *)

(** ToBoolean on a string: every string but the empty one is true. *)
Definition truthy (s : string) : bool := negb (String.eqb s "").

(** [a || b] on strings. *)
Definition or_else (a b : string) : string := if truthy a then a else b.

(** [a ?? b]: [b] only when [a] is null or undefined. *)
Definition nullish {A} (a : option A) (b : A) : A :=
  match a with Some v => v | None => b end.

(** ToBoolean on a string that may be undefined. *)
Definition truthy_opt (o : option string) : bool :=
  match o with Some s => truthy s | None => false end.

(** [s.split(d)] for a one-character separator [d]: never the empty list,
    and [""] splits into one empty segment. *)
Fixpoint split_on (d : ascii) (s : string) : list string :=
  match s with
  | EmptyString => [""]
  | String c s' =>
      if decide (c = d) then "" :: split_on d s'
      else match split_on d s' with
           | [] => [String c ""]
           | w :: ws => String c w :: ws
           end
  end.

(** [l.join(sep)] *)
Fixpoint join_with (sep : string) (l : list string) : string :=
  match l with
  | [] => ""
  | [x] => x
  | x :: l' => x +:+ sep +:+ join_with sep l'
  end.

(** Does the character occur in the string? *)
Fixpoint occurs (c : ascii) (s : string) : bool :=
  match s with
  | EmptyString => false
  | String c' s' => bool_decide (c' = c) || occurs c s'
  end.

(** The white space [trim] removes is the WhiteSpace and LineTerminator
    of ECMAScript.  A string is a sequence of bytes, the UTF-8 encoding
    of the JavaScript string, so a white-space character takes one, two
    or three bytes.  One byte: space, tab, line feed, vertical tab, form
    feed and carriage return. *)
Definition is_white_space (c : ascii) : bool :=
  match c with
  | " " | "009" | "010" | "011" | "012" | "013" => true
  | _ => false
  end%char.

(** Two bytes: U+00A0 (no-break space). *)
Definition is_white_space2 (c1 c2 : ascii) : bool :=
  (N_of_ascii c1 =? 0xC2)%N && (N_of_ascii c2 =? 0xA0)%N.

(** Three bytes: U+1680, U+2000 to U+200A, U+2028 and U+2029 (line and
    paragraph separator), U+202F, U+205F, U+3000 and U+FEFF (byte order
    mark). *)
Definition is_white_space3 (c1 c2 c3 : ascii) : bool :=
  let '(b1, b2, b3) := (N_of_ascii c1, N_of_ascii c2, N_of_ascii c3) in
  ((b1 =? 0xE1) && (b2 =? 0x9A) && (b3 =? 0x80) ||
   (b1 =? 0xE2) && (b2 =? 0x80) &&
     ((0x80 <=? b3) && (b3 <=? 0x8A) || (b3 =? 0xA8) || (b3 =? 0xA9) || (b3 =? 0xAF)) ||
   (b1 =? 0xE2) && (b2 =? 0x81) && (b3 =? 0x9F) ||
   (b1 =? 0xE3) && (b2 =? 0x80) && (b3 =? 0x80) ||
   (b1 =? 0xEF) && (b2 =? 0xBB) && (b3 =? 0xBF))%N.

(** The number of bytes of the white-space character the string starts
    with, 0 when it starts with none. *)
Definition ws_length (s : string) : nat :=
  match s with
  | String c1 s1 =>
      if is_white_space c1 then 1
      else match s1 with
           | String c2 s2 =>
               if is_white_space2 c1 c2 then 2
               else match s2 with
                    | String c3 _ => if is_white_space3 c1 c2 c3 then 3 else 0
                    | EmptyString => 0
                    end
           | EmptyString => 0
           end
  | EmptyString => 0
  end.

(** [s.trimStart()], having still to skip [skip] bytes of a white-space
    character. *)
Fixpoint trim_start_from (skip : nat) (s : string) : string :=
  match s with
  | EmptyString => ""
  | String c s' =>
      match skip with
      | S k => trim_start_from k s'
      | O => match ws_length s with
             | O => s
             | S k => trim_start_from k s'
             end
      end
  end.

Definition trim_start (s : string) : string := trim_start_from 0 s.

(** Every character of the string is white space. *)
Definition all_white_space (s : string) : bool := negb (truthy (trim_start s)).

(** [s.trimEnd()]: the string up to the first position from which on
    everything is white space. *)
Fixpoint trim_end (s : string) : string :=
  match s with
  | EmptyString => ""
  | String c s' => if all_white_space s then "" else String c (trim_end s')
  end.

(** [s.trim()] *)
Definition trim (s : string) : string := trim_end (trim_start s).

(** The bytes of U+00A0, U+2028 and U+FEFF. *)
Definition nbsp : string := String "194" (String "160" "").
Definition line_separator : string := String "226" (String "128" (String "168" "")).
Definition byte_order_mark : string := String "239" (String "187" (String "191" "")).

(** ** Lemmas: truthiness *)

Lemma truthy_true (s : string) : truthy s = true <-> s <> "".
Proof.
  unfold truthy. destruct (String.eqb_spec s ""); simpl; split; congruence.
Qed.

Lemma truthy_false (s : string) : truthy s = false <-> s = "".
Proof.
  unfold truthy. destruct (String.eqb_spec s ""); simpl; split; congruence.
Qed.

Lemma truthy_cons (c : ascii) (s : string) : truthy (String c s) = true.
Proof. done. Qed.

Lemma truthy_app_l (a b : string) : truthy a = true -> truthy (a +:+ b) = true.
Proof. destruct a; [done | by rewrite string_app_cons]. Qed.

Lemma truthy_app_r (a b : string) : truthy b = true -> truthy (a +:+ b) = true.
Proof. destruct a; [done | by rewrite string_app_cons]. Qed.

Lemma or_else_truthy (a b : string) : truthy b = true -> truthy (or_else a b) = true.
Proof. unfold or_else. by destruct (truthy a) eqn:E. Qed.

Lemma or_else_empty (b : string) : or_else "" b = b.
Proof. done. Qed.

Lemma or_else_nonempty (a b : string) : a <> "" -> or_else a b = a.
Proof. intros H. unfold or_else. by rewrite (proj2 (truthy_true a) H). Qed.

(** ** Lemmas: split and join *)

Lemma split_on_nonempty (d : ascii) (s : string) : split_on d s <> [].
Proof.
  induction s as [|c s IH]; simpl; [done|].
  case_decide; [done|]. by destruct (split_on d s).
Qed.

Lemma split_on_cons_sep (d : ascii) (s : string) :
  split_on d (String d s) = "" :: split_on d s.
Proof. simpl. by rewrite decide_True. Qed.

Lemma split_on_cons_other (d c : ascii) (s : string) :
  c <> d ->
  split_on d (String c s) =
    String c (hd "" (split_on d s)) :: tl (split_on d s).
Proof.
  intros Hc. simpl. rewrite decide_False by done.
  pose proof (split_on_nonempty d s). by destruct (split_on d s).
Qed.

(** A string without the separator is a single segment. *)
Lemma split_on_no_sep (d : ascii) (s : string) :
  occurs d s = false -> split_on d s = [s].
Proof.
  induction s as [|c s IH]; simpl; [done|].
  intros [Hc Hs]%orb_false_elim. apply bool_decide_eq_false in Hc.
  rewrite decide_False by done. by rewrite IH.
Qed.

(** Splitting [x ++ d ++ s] when [x] has no separator. *)
Lemma split_on_app_sep (d : ascii) (x s : string) :
  occurs d x = false ->
  split_on d (x +:+ String d s) = x :: split_on d s.
Proof.
  induction x as [|c x IH]; intros Hx.
  - apply split_on_cons_sep.
  - simpl in Hx. apply orb_false_elim in Hx as [Hc Hx].
    apply bool_decide_eq_false in Hc.
    rewrite string_app_cons, split_on_cons_other, IH by done. done.
Qed.

(** No segment of a split contains the separator. *)
Lemma split_on_segments (d : ascii) (s : string) :
  Forall (fun x => occurs d x = false) (split_on d s).
Proof.
  induction s as [|c s IH]; simpl; [by repeat constructor|].
  case_decide as Hc; [by constructor|].
  pose proof (split_on_nonempty d s) as Hne.
  destruct (split_on d s) as [|w ws]; [done|].
  inversion_clear IH. constructor; [|done].
  simpl. by rewrite bool_decide_eq_false_2.
Qed.

(** Joining the segments of a split with the separator gives the string back. *)
Lemma join_split (d : ascii) (s : string) :
  join_with (String d "") (split_on d s) = s.
Proof.
  induction s as [|c s IH]; simpl; [done|].
  pose proof (split_on_nonempty d s) as Hne.
  case_decide as Hc.
  - subst c. destruct (split_on d s) as [|w ws]; [done|].
    change (join_with (String d "") ("" :: w :: ws))
      with (String d (join_with (String d "") (w :: ws))).
    by rewrite IH.
  - destruct (split_on d s) as [|w ws]; [done|]. rewrite <- IH.
    destruct ws; [done|]. simpl. by rewrite string_app_cons.
Qed.

(** Splitting a join of separator-free segments gives the segments back. *)
Lemma split_join (d : ascii) (l : list string) :
  l <> [] -> Forall (fun x => occurs d x = false) l ->
  split_on d (join_with (String d "") l) = l.
Proof.
  intros Hne Hl. induction Hl as [|x l Hx Hl IH]; [done|].
  destruct l as [|y l].
  - simpl. by apply split_on_no_sep.
  - change (join_with (String d "") (x :: y :: l))
      with (x +:+ String d (join_with (String d "") (y :: l))).
    rewrite split_on_app_sep by done. by rewrite IH.
Qed.

Lemma join_with_cons (sep x : string) (l : list string) :
  l <> [] -> join_with sep (x :: l) = x +:+ sep +:+ join_with sep l.
Proof. by destruct l. Qed.

Lemma join_with_app (sep : string) (l1 l2 : list string) :
  l1 <> [] -> l2 <> [] ->
  join_with sep (l1 ++ l2) = join_with sep l1 +:+ sep +:+ join_with sep l2.
Proof.
  intros H1 H2. induction l1 as [|x l1 IH]; [done|].
  destruct l1 as [|y l1].
  - simpl app. by rewrite join_with_cons.
  - change ((x :: y :: l1) ++ l2) with (x :: (y :: l1) ++ l2).
    rewrite !join_with_cons, IH by done. by rewrite !string_app_assoc.
Qed.

(** Splitting a join whose last element may itself contain separators. *)
Lemma split_join_snoc (d : ascii) (l : list string) (y : string) :
  Forall (fun x => occurs d x = false) l ->
  split_on d (join_with (String d "") (l ++ [y])) = l ++ split_on d y.
Proof.
  intros Hl. induction Hl as [|x l Hx Hl IH]; [done|].
  change ((x :: l) ++ [y]) with (x :: (l ++ [y])).
  rewrite join_with_cons by (by destruct l).
  change (x +:+ String d "" +:+ join_with (String d "") (l ++ [y]))
    with (x +:+ String d (join_with (String d "") (l ++ [y]))).
  rewrite split_on_app_sep by done. by rewrite IH.
Qed.

(** A split is a singleton exactly when the separator does not occur. *)
Lemma split_on_length (d : ascii) (s : string) :
  length (split_on d s) = 1 <-> occurs d s = false.
Proof.
  split; [|intros H; by rewrite split_on_no_sep].
  induction s as [|c s IH]; simpl; [done|].
  pose proof (split_on_nonempty d s) as Hne.
  case_decide as Hc.
  - destruct (split_on d s); [done | discriminate].
  - rewrite bool_decide_eq_false_2 by done. simpl.
    destruct (split_on d s) as [|w ws]; [done|]. exact IH.
Qed.

(** ** Lemmas: trim *)

Lemma all_white_space_iff (s : string) : all_white_space s = true <-> trim_start s = "".
Proof. unfold all_white_space. by rewrite negb_true_iff, truthy_false. Qed.

Lemma ws_length_le (s : string) : ws_length s <= String.length s.
Proof.
  destruct s as [|c1 [|c2 [|c3 s]]]; simpl; repeat case_match; lia.
Qed.

(** A string that starts with a white-space character still does when it
    is extended. *)
Lemma ws_length_app (p w : string) : ws_length p <> 0 -> ws_length (p +:+ w) = ws_length p.
Proof.
  destruct p as [|c1 [|c2 [|c3 p]]]; simpl; [done|..]; repeat case_match; done.
Qed.

(** What [trim_start] leaves does not start with white space. *)
Lemma trim_start_from_head (k : nat) (s : string) :
  trim_start_from k s = "" \/ ws_length (trim_start_from k s) = 0.
Proof.
  revert k. induction s as [|c s IH]; intros k; [by left|].
  cbn [trim_start_from]. destruct k as [|k]; [|apply IH].
  destruct (ws_length (String c s)) eqn:E; [by right | apply IH].
Qed.

Lemma trim_start_head (s : string) : trim_start s = "" \/ ws_length (trim_start s) = 0.
Proof. apply trim_start_from_head. Qed.

Lemma trim_start_fixed (s : string) : ws_length s = 0 -> trim_start s = s.
Proof. destruct s as [|c s]; [done|]. unfold trim_start. cbn [trim_start_from]. by intros ->. Qed.

Lemma trim_start_idempotent (s : string) : trim_start (trim_start s) = trim_start s.
Proof.
  destruct (trim_start_head s) as [E|E]; [by rewrite E | by apply trim_start_fixed].
Qed.

Lemma trim_end_empty_iff (s : string) : trim_end s = "" <-> all_white_space s = true.
Proof. destruct s as [|c s]; [done|]. cbn [trim_end]. by destruct (all_white_space _). Qed.

(** The input is empty after trimming exactly when it is all white space. *)
Lemma trim_empty_iff (s : string) : trim s = "" <-> all_white_space s = true.
Proof.
  unfold trim. by rewrite trim_end_empty_iff, !all_white_space_iff, trim_start_idempotent.
Qed.

(** [trim_end] cuts off a suffix that is all white space. *)
Lemma trim_end_suffix (s : string) :
  exists w, s = trim_end s +:+ w /\ all_white_space w = true.
Proof.
  induction s as [|c s (w & Hs & Hw)]; [by exists ""|]. cbn [trim_end].
  destruct (all_white_space (String c s)) eqn:E; [by exists (String c s)|].
  exists w. split; [|done]. change (String c s = String c (trim_end s +:+ w)). by f_equal.
Qed.

(** White space followed by white space is white space. *)
Lemma trim_start_from_app (k : nat) (p w : string) :
  k <= String.length p -> trim_start_from k p = "" ->
  trim_start_from k (p +:+ w) = trim_start w.
Proof.
  revert k. induction p as [|c p IH]; intros k Hk.
  { simpl in Hk. by replace k with 0 by lia. }
  simpl in Hk. destruct k as [|k].
  - pose proof (ws_length_le (String c p)) as Hle. pose proof (ws_length_app (String c p) w) as Ha.
    change (String c p +:+ w) with (String c (p +:+ w)) in *. cbn [trim_start_from].
    destruct (ws_length (String c p)) as [|n] eqn:E; [done|]. rewrite Ha by done.
    simpl in Hle. apply IH. lia.
  - change (String c p +:+ w) with (String c (p +:+ w)). cbn [trim_start_from]. apply IH. lia.
Qed.

Lemma all_white_space_app (p w : string) :
  all_white_space p = true -> all_white_space w = true -> all_white_space (p +:+ w) = true.
Proof.
  rewrite !all_white_space_iff. intros Hp Hw. unfold trim_start.
  by rewrite trim_start_from_app by (done || lia).
Qed.

(** Trimming a string with no white space at either end changes nothing. *)
Lemma trim_end_fixed (s : string) : trim_end (trim_end s) = trim_end s.
Proof.
  induction s as [|c s IH]; [done|]. cbn [trim_end].
  destruct (all_white_space (String c s)) eqn:E; [done|]. cbn [trim_end]. rewrite IH.
  destruct (all_white_space (String c (trim_end s))) eqn:E'; [|done].
  destruct (trim_end_suffix s) as (w & Hs & Hw).
  pose proof (all_white_space_app _ _ E' Hw) as H.
  change (String c (trim_end s) +:+ w) with (String c (trim_end s +:+ w)) in H.
  rewrite <-Hs in H. congruence.
Qed.

Lemma trim_start_trim_end (s : string) :
  ws_length s = 0 -> trim_start (trim_end s) = trim_end s.
Proof.
  intros Hs. apply trim_start_fixed. destruct (trim_end_suffix s) as (w & Hw & _).
  destruct (decide (ws_length (trim_end s) = 0)) as [|Hn]; [done|].
  apply (ws_length_app _ w) in Hn. rewrite <-Hw in Hn. congruence.
Qed.

Lemma trim_idempotent (s : string) : trim (trim s) = trim s.
Proof.
  unfold trim. destruct (trim_start_head s) as [E|E].
  - by rewrite E.
  - by rewrite (trim_start_trim_end _ E), trim_end_fixed.
Qed.

Example trim_unicode :
  trim (byte_order_mark +:+ " node 20" +:+ nbsp +:+ "x " +:+ line_separator +:+ nbsp) =
    "node 20" +:+ nbsp +:+ "x" /\
  all_white_space (" " +:+ nbsp +:+ line_separator) = true /\
  all_white_space (String "226" (String "128" "")) = false.
Proof. by vm_compute. Qed.
