(* ===== verification/Json.v ===== *)
(** * Json: [JSON.parse] and the conversions the exporter applies

    [setEnvVars] hands the standard output of [mise env --json] to
    [JSON.parse], enumerates the result with [Object.entries], prints each
    value in a template literal, exports it through [toCommandValue] and
    calls [split] on the value of PATH.  The type annotation of the source
    ([{ [key: string]: string }]) is erased at run time, so the model
    follows what JavaScript does with any JSON text.

    - [json]: the values [JSON.parse] can return.  A number keeps its
      lexeme.  The members of an object are kept in the order
      [Object.entries] enumerates them: array-index keys first, in
      ascending order, then the other keys in order of first appearance; a
      repeated key keeps its position and takes the last value
      ([object_define]).
    - [parse_value], [parse_elements], [parse_members]: a recursive-descent
      parser of the JSON grammar, by recursion on a fuel; [JSON_parse]
      runs it with fuel [2 * length + 1] and rejects trailing text.
    - strings: escapes are decoded; a [\u] escape is turned into the UTF-8
      bytes of its code point, a surrogate pair into one code point.
    - [Object_entries], [js_to_string], [JSON_stringify], [toCommandValue],
      [split_value]: the conversions, on every kind of value.

    Lemmas: every parsing function that returns has consumed at least one
    character ([parse_shorter]); with the fuel of [JSON_parse] no parsing
    function runs out of fuel and the result does not depend on the fuel
    ([parse_enough_fuel], [parse_more_fuel], [parse_value_fuel]); reading
    back an escaped string gives the string ([parse_string_escape]).  The
    round trip of [JSON.stringify] and [JSON.parse] is in [JsonRoundTrip].

    Limits of the model: the text of a [SyntaxError] is a fixed string;
    [number_to_string] prints a number the way JavaScript does
    ([1.0] as [1], [1e2] as [100], [1e21] as [1e+21]) when it has at
    most 15 significant digits and is 0 or between 1e-307 and 1e308 in
    magnitude, and returns the lexeme otherwise, where the result of
    JavaScript depends on the rounding to a double.  A string is the
    sequence of the UTF-8 bytes of its characters (a lone surrogate being
    encoded like a character of the basic plane), and [Object.entries] of
    a string yields one entry per UTF-16 code unit ([chars_of]). *)

From Stdlib Require Import Ascii NArith ZArith.
From stdpp Require Import base option list strings pretty.
From S2P Require Import Prelude JsString.

(** ** Values *)

#[warnings="-register-all"]
Inductive json : Type :=
| JNull
| JBool (b : bool)
| JNumber (lexeme : string)
| JString (s : string)
| JArray (items : list json)
| JObject (members : list (string * json)).

(** The outcome of a parsing function: a value and the rest of the text,
    a syntax error, or not enough fuel. *)
Inductive parsed (A : Type) : Type :=
| Parsed (a : A) (rest : string)
| Malformed
| NoFuel.
Arguments Parsed {A} a rest.
Arguments Malformed {A}.
Arguments NoFuel {A}.

Definition parsed_map {A B} (f : A -> B) (p : parsed A) : parsed B :=
  match p with
  | Parsed a r => Parsed (f a) r
  | Malformed => Malformed
  | NoFuel => NoFuel
  end.

(** One element of a string literal: a byte of the text, or the code unit
    of a [\u] escape. *)
Inductive str_item : Type :=
| Byte (c : ascii)
| Unit (n : N).

(** ** Characters *)

Definition quote_char : ascii := "034"%char.
Definition backslash : ascii := "092"%char.

(** The white space of the JSON grammar: space, tab, line feed, carriage
    return. *)
Definition json_ws (c : ascii) : bool :=
  match c with
  | " " | "009" | "010" | "013" => true
  | _ => false
  end%char.

Fixpoint skip_ws (s : string) : string :=
  match s with
  | String c r => if json_ws c then skip_ws r else s
  | EmptyString => ""
  end.

Definition is_digit (c : ascii) : bool :=
  (48 <=? N_of_ascii c)%N && (N_of_ascii c <=? 57)%N.

Definition digit_value (c : ascii) : N := (N_of_ascii c - 48)%N.

Definition hex_value (c : ascii) : option N :=
  let n := N_of_ascii c in
  if ((48 <=? n) && (n <=? 57))%N then Some (n - 48)%N
  else if ((65 <=? n) && (n <=? 70))%N then Some (n - 55)%N
  else if ((97 <=? n) && (n <=? 102))%N then Some (n - 87)%N
  else None.

(** The rest of the text after the character [c], when the text starts
    with it. *)
Definition after (c : ascii) (s : string) : option string :=
  match s with
  | String c' r => if bool_decide (c' = c) then Some r else None
  | EmptyString => None
  end.

(** The longest prefix of digits, and the rest. *)
Fixpoint span_digits (s : string) : string * string :=
  match s with
  | String c r =>
      if is_digit c then let '(ds, r') := span_digits r in (String c ds, r')
      else ("", s)
  | EmptyString => ("", "")
  end.

(** The value of a string of digits. *)
Fixpoint digits_value (acc : N) (s : string) : N :=
  match s with
  | String c r => digits_value (acc * 10 + digit_value c)%N r
  | EmptyString => acc
  end.

Fixpoint all_digits (s : string) : bool :=
  match s with
  | String c r => is_digit c && all_digits r
  | EmptyString => true
  end.

(** ** Property order of objects *)

(** An array index: the canonical decimal spelling of an integer between 0
    and 2^32 - 2. *)
Definition array_index (k : string) : option N :=
  match k with
  | EmptyString => None
  | String c r =>
      if all_digits k && (negb (bool_decide (c = "0"%char)) || bool_decide (r = ""))
         && (String.length k <=? 10)
      then let n := digits_value 0 k in
           if (n <=? 4294967294)%N then Some n else None
      else None
  end.

(** Insert a new array-index key at its place among the index keys. *)
Fixpoint insert_index (n : N) (k : string) (v : json) (ms : list (string * json))
  : list (string * json) :=
  match ms with
  | [] => [(k, v)]
  | (k', v') :: ms' =>
      match array_index k' with
      | Some n' => if (n' <? n)%N then (k', v') :: insert_index n k v ms'
                   else (k, v) :: ms
      | None => (k, v) :: ms
      end
  end.

(** Give the value [v] to the key [k] when [k] is already a key. *)
Fixpoint replace_member (k : string) (v : json) (ms : list (string * json))
  : list (string * json) :=
  match ms with
  | [] => []
  | (k', v') :: ms' =>
      if bool_decide (k' = k) then (k, v) :: ms'
      else (k', v') :: replace_member k v ms'
  end.

Definition has_key (k : string) (ms : list (string * json)) : bool :=
  bool_decide (k ∈ ms.*1).

(** Define the property [k] of an object, as [JSON.parse] does for each
    member it reads. *)
Definition object_define (k : string) (v : json) (ms : list (string * json))
  : list (string * json) :=
  if has_key k ms then replace_member k v ms
  else match array_index k with
       | Some n => insert_index n k v ms
       | None => ms ++ [(k, v)]
       end.

(** ** String literals *)

(** The items of a string literal, from the character after the opening
    quote to the closing quote. *)
Fixpoint parse_items (s : string) : parsed (list str_item) :=
  match s with
  | EmptyString => Malformed
  | String c r =>
      if bool_decide (c = quote_char) then Parsed [] r
      else if bool_decide (c = backslash) then
        match r with
        | String e r1 =>
            let simple (b : ascii) := parsed_map (cons (Byte b)) (parse_items r1) in
            if bool_decide (e = quote_char) then simple quote_char
            else if bool_decide (e = backslash) then simple backslash
            else if bool_decide (e = "/"%char) then simple "/"%char
            else if bool_decide (e = "b"%char) then simple "008"%char
            else if bool_decide (e = "f"%char) then simple "012"%char
            else if bool_decide (e = "n"%char) then simple "010"%char
            else if bool_decide (e = "r"%char) then simple "013"%char
            else if bool_decide (e = "t"%char) then simple "009"%char
            else if bool_decide (e = "u"%char) then
              match r1 with
              | String h1 (String h2 (String h3 (String h4 r2))) =>
                  match hex_value h1, hex_value h2, hex_value h3, hex_value h4 with
                  | Some a, Some b, Some c', Some d =>
                      parsed_map (cons (Unit (((a * 16 + b) * 16 + c') * 16 + d)%N))
                                 (parse_items r2)
                  | _, _, _, _ => Malformed
                  end
              | _ => Malformed
              end
            else Malformed
        | EmptyString => Malformed
        end
      else if (N_of_ascii c <? 32)%N then Malformed
      else parsed_map (cons (Byte c)) (parse_items r)
  end.

(** The UTF-8 bytes of a code point (a lone surrogate is encoded like any
    other code point of the basic plane). *)
Definition utf8 (n : N) : string :=
  let byte (x : N) := ascii_of_N x in
  if (n <? 128)%N then String (byte n) ""
  else if (n <? 2048)%N then
    String (byte (192 + n / 64)%N) (String (byte (128 + n mod 64)%N) "")
  else if (n <? 65536)%N then
    String (byte (224 + n / 4096)%N)
      (String (byte (128 + (n / 64) mod 64)%N) (String (byte (128 + n mod 64)%N) ""))
  else
    String (byte (240 + n / 262144)%N)
      (String (byte (128 + (n / 4096) mod 64)%N)
         (String (byte (128 + (n / 64) mod 64)%N) (String (byte (128 + n mod 64)%N) ""))).

Definition is_high_surrogate (n : N) : bool := (55296 <=? n)%N && (n <=? 56319)%N.
Definition is_low_surrogate (n : N) : bool := (56320 <=? n)%N && (n <=? 57343)%N.

(** The bytes of a string literal, from its items. *)
Fixpoint encode_items (l : list str_item) : string :=
  match l with
  | [] => ""
  | Byte c :: l' => String c (encode_items l')
  | Unit hi :: l' =>
      match l' with
      | Unit lo :: l'' =>
          if is_high_surrogate hi && is_low_surrogate lo
          then utf8 (65536 + (hi - 55296) * 1024 + (lo - 56320))%N +:+ encode_items l''
          else utf8 hi +:+ encode_items l'
      | _ => utf8 hi +:+ encode_items l'
      end
  end.

(** A string literal, from the character after the opening quote. *)
Definition parse_string (s : string) : parsed string :=
  parsed_map encode_items (parse_items s).

(** ** Numbers and literals *)

Definition parse_exponent (lex s : string) : parsed string :=
  match s with
  | String e r =>
      if bool_decide (e = "e"%char) || bool_decide (e = "E"%char) then
        let '(sign, r1) :=
          match r with
          | String g r' =>
              if bool_decide (g = "+"%char) || bool_decide (g = "-"%char)
              then (String g "", r') else ("", r)
          | EmptyString => ("", r)
          end in
        let '(ds, r2) := span_digits r1 in
        if bool_decide (ds = "") then Malformed
        else Parsed (lex +:+ String e sign +:+ ds) r2
      else Parsed lex s
  | EmptyString => Parsed lex s
  end.

Definition parse_fraction (lex s : string) : parsed string :=
  match after "." s with
  | Some r =>
      let '(ds, r1) := span_digits r in
      if bool_decide (ds = "") then Malformed
      else parse_exponent (lex +:+ "." +:+ ds) r1
  | None => parse_exponent lex s
  end.

(** The integer part, without leading zero, and what follows it. *)
Definition parse_digits (sign s : string) : parsed string :=
  match s with
  | String c r =>
      if bool_decide (c = "0"%char) then parse_fraction (sign +:+ "0") r
      else if is_digit c then
        let '(ds, r1) := span_digits r in parse_fraction (sign +:+ String c ds) r1
      else Malformed
  | EmptyString => Malformed
  end.

(** A number, from its first character: an optional minus, an integer
    part without leading zero, an optional fraction and exponent. *)
Definition parse_number (s : string) : parsed string :=
  match after "-" s with
  | Some r => parse_digits "-" r
  | None => parse_digits "" s
  end.

(** The rest of the text after the word [w], when the text starts with it. *)
Fixpoint strip_prefix (w s : string) : option string :=
  match w, s with
  | EmptyString, _ => Some s
  | String a w', String b s' => if bool_decide (a = b) then strip_prefix w' s' else None
  | String _ _, EmptyString => None
  end.

Definition parse_literal (w : string) (v : json) (s : string) : parsed json :=
  match strip_prefix w s with
  | Some r => Parsed v r
  | None => Malformed
  end.

(** ** Values *)

Fixpoint parse_value (fuel : nat) (s : string) : parsed json :=
  match fuel with
  | O => NoFuel
  | S n =>
      match skip_ws s with
      | EmptyString => Malformed
      | String c r =>
          if bool_decide (c = "{"%char) then
            match after "}" (skip_ws r) with
            | Some r' => Parsed (JObject []) r'
            | None => parse_members n (skip_ws r) []
            end
          else if bool_decide (c = "["%char) then
            match after "]" (skip_ws r) with
            | Some r' => Parsed (JArray []) r'
            | None => parse_elements n (skip_ws r) []
            end
          else if bool_decide (c = quote_char) then parsed_map JString (parse_string r)
          else if bool_decide (c = "t"%char) then parse_literal "true" (JBool true) (String c r)
          else if bool_decide (c = "f"%char) then parse_literal "false" (JBool false) (String c r)
          else if bool_decide (c = "n"%char) then parse_literal "null" JNull (String c r)
          else parsed_map JNumber (parse_number (String c r))
      end
  end
with parse_elements (fuel : nat) (s : string) (acc : list json) : parsed json :=
  match fuel with
  | O => NoFuel
  | S n =>
      match parse_value n s with
      | Parsed v r =>
          match after "," (skip_ws r), after "]" (skip_ws r) with
          | Some r', _ => parse_elements n r' (acc ++ [v])
          | None, Some r' => Parsed (JArray (acc ++ [v])) r'
          | None, None => Malformed
          end
      | Malformed => Malformed
      | NoFuel => NoFuel
      end
  end
with parse_members (fuel : nat) (s : string) (acc : list (string * json)) : parsed json :=
  match fuel with
  | O => NoFuel
  | S n =>
      match after quote_char (skip_ws s) with
      | Some r =>
          match parse_string r with
          | Parsed k r1 =>
              match after ":" (skip_ws r1) with
              | Some r2 =>
                  match parse_value n r2 with
                  | Parsed v r3 =>
                      match after "," (skip_ws r3), after "}" (skip_ws r3) with
                      | Some r4, _ => parse_members n r4 (object_define k v acc)
                      | None, Some r4 => Parsed (JObject (object_define k v acc)) r4
                      | None, None => Malformed
                      end
                  | Malformed => Malformed
                  | NoFuel => NoFuel
                  end
              | None => Malformed
              end
          | Malformed => Malformed
          | NoFuel => NoFuel
          end
      | None => Malformed
      end
  end.

Definition syntax_error : thrown := JsError "SyntaxError" "Unexpected token in JSON".

(** [JSON.parse(text)] *)
Definition JSON_parse (text : string) : res json :=
  match parse_value (2 * String.length text + 1) text with
  | Parsed v r => if bool_decide (skip_ws r = "") then Ok v else Throw syntax_error
  | Malformed | NoFuel => Throw syntax_error
  end.

(** ** Conversions *)

(** Number::toString, on the lexeme.  A lexeme with at most 15
    significant digits whose value is 0 or between 1e-307 and 1e308 in
    magnitude denotes the double nearest to it, and that double prints as
    the shortest decimal that denotes it, which is the value of the
    lexeme; the model prints it in the format of ECMAScript.  Any other
    lexeme is printed as it is. *)
Fixpoint zeros (n : nat) : string :=
  match n with O => "" | S n' => String "0" (zeros n') end.

(** Without its leading zeros, and without its trailing zeros. *)
Fixpoint strip_zeros (s : string) : string :=
  match s with
  | String c r => if bool_decide (c = "0"%char) then strip_zeros r else s
  | EmptyString => ""
  end.

Fixpoint strip_zeros_end (s : string) : string :=
  match s with
  | String c r =>
      let r' := strip_zeros_end r in
      if bool_decide (c = "0"%char) && bool_decide (r' = "") then "" else String c r'
  | EmptyString => ""
  end.

(** The parts of a number lexeme: whether it has a minus sign, the
    digits of the integer part and of the fraction, and the exponent. *)
Definition number_parts (l : string) : bool * string * string * Z :=
  let '(neg, u) := match after "-" l with Some r => (true, r) | None => (false, l) end in
  let '(int, r1) := span_digits u in
  let '(frac, r2) := match after "." r1 with Some r => span_digits r | None => ("", r1) end in
  let exp :=
    match r2 with
    | String _ r3 =>
        match after "-" r3, after "+" r3 with
        | Some ds, _ => (- Z.of_N (digits_value 0 ds))%Z
        | None, Some ds => Z.of_N (digits_value 0 ds)
        | None, None => Z.of_N (digits_value 0 r3)
        end
    | EmptyString => 0%Z
    end in
  (neg, int, frac, exp).

(** Number::toString of the number with the significant digits [ds]
    (no zero at either end, not empty) whose value is [0.ds * 10^n]. *)
Definition format_number (ds : string) (n : Z) : string :=
  let k := Z.of_nat (String.length ds) in
  if bool_decide (k <= n <= 21)%Z then ds +:+ zeros (Z.to_nat (n - k))
  else if bool_decide (0 < n <= 21)%Z then
    String.substring 0 (Z.to_nat n) ds +:+ "." +:+ String.substring (Z.to_nat n) (String.length ds) ds
  else if bool_decide (-6 < n <= 0)%Z then "0." +:+ zeros (Z.to_nat (- n)) +:+ ds
  else
    let mantissa :=
      match ds with
      | String c r => if bool_decide (r = "") then ds else String c ("." +:+ r)
      | EmptyString => ds
      end in
    mantissa +:+ "e" +:+ (if bool_decide (n - 1 < 0)%Z then "-" else "+") +:+
    pretty (Z.abs (n - 1)).

(** [String(x)] for the number [x] a lexeme denotes. *)
Definition number_to_string (lexeme : string) : string :=
  let '(neg, int, frac, exp) := number_parts lexeme in
  let d1 := strip_zeros (int +:+ frac) in
  let ds := strip_zeros_end d1 in
  let n := (Z.of_nat (String.length d1) + exp - Z.of_nat (String.length frac))%Z in
  if bool_decide (ds = "") then "0"
  else if bool_decide (String.length ds <= 15 /\ (-306 <= n <= 308)%Z)
  then (if neg then "-" else "") +:+ format_number ds n
  else lexeme.

(** A byte that continues a character of more than one byte. *)
Definition continuation (c : ascii) : bool :=
  (128 <=? N_of_ascii c)%N && (N_of_ascii c <? 192)%N.

(** The UTF-16 code units of a string, one string each: a character of
    one, two or three bytes is one unit; a character of four bytes is a
    pair of surrogates, each encoded like a character of the basic plane.
    A byte that starts no complete character stands for itself. *)
Fixpoint chars_of (s : string) : list string :=
  match s with
  | EmptyString => []
  | String c1 s1 =>
      let b1 := N_of_ascii c1 in
      let single := String c1 "" :: chars_of s1 in
      match s1 with
      | String c2 s2 =>
          if (192 <=? b1)%N && (b1 <? 224)%N && continuation c2
          then String c1 (String c2 "") :: chars_of s2
          else
            match s2 with
            | String c3 s3 =>
                if (224 <=? b1)%N && (b1 <? 240)%N && continuation c2 && continuation c3
                then String c1 (String c2 (String c3 "")) :: chars_of s3
                else
                  match s3 with
                  | String c4 s4 =>
                      if (240 <=? b1)%N && (b1 <? 248)%N && continuation c2 && continuation c3
                         && continuation c4
                      then
                        let cp := ((b1 mod 8) * 262144 + (N_of_ascii c2 mod 64) * 4096 +
                                   (N_of_ascii c3 mod 64) * 64 + N_of_ascii c4 mod 64)%N in
                        utf8 (55296 + (cp - 65536) / 1024)%N ::
                        utf8 (56320 + (cp - 65536) mod 1024)%N :: chars_of s4
                      else single
                  | EmptyString => single
                  end
            | EmptyString => single
            end
      | EmptyString => single
      end
  end.

Definition indexed {A} (l : list A) : list (string * A) :=
  imap (fun i x => (pretty i, x)) l.

(** [Object.entries(v)] *)
Definition Object_entries (v : json) : res (list (string * json)) :=
  match v with
  | JObject ms => Ok ms
  | JArray items => Ok (indexed items)
  | JString s => Ok (indexed (JString <$> chars_of s))
  | JNumber _ | JBool _ => Ok []
  | JNull => Throw (JsError "TypeError" "Cannot convert undefined or null to object")
  end.

(** [`${v}`]: the string conversion of a value. *)
Fixpoint js_to_string (v : json) : string :=
  match v with
  | JNull => "null"
  | JBool b => if b then "true" else "false"
  | JNumber l => number_to_string l
  | JString s => s
  | JArray items =>
      join_with ","
        ((fix go (l : list json) : list string :=
            match l with
            | [] => []
            | JNull :: l' => "" :: go l'
            | x :: l' => js_to_string x :: go l'
            end) items)
  | JObject _ => "[object Object]"
  end.

Definition hex_digit (n : N) : ascii :=
  if (n <? 10)%N then ascii_of_N (48 + n)%N else ascii_of_N (87 + n)%N.

(** The escape of one character inside a JSON string literal. *)
Definition escape_char (c : ascii) : string :=
  if bool_decide (c = quote_char) then String backslash (String quote_char "")
  else if bool_decide (c = backslash) then String backslash (String backslash "")
  else if bool_decide (c = "008"%char) then String backslash "b"
  else if bool_decide (c = "012"%char) then String backslash "f"
  else if bool_decide (c = "010"%char) then String backslash "n"
  else if bool_decide (c = "013"%char) then String backslash "r"
  else if bool_decide (c = "009"%char) then String backslash "t"
  else if (N_of_ascii c <? 32)%N then
    String backslash
      ("u00" +:+ String (hex_digit (N_of_ascii c / 16)%N)
                   (String (hex_digit (N_of_ascii c mod 16)%N) ""))
  else String c "".

Fixpoint escape_string (s : string) : string :=
  match s with
  | String c r => escape_char c +:+ escape_string r
  | EmptyString => ""
  end.

(** A string as a JSON string literal. *)
Definition quote_string (s : string) : string :=
  String quote_char (escape_string s) +:+ String quote_char "".

(** [JSON.stringify(v)] *)
Fixpoint JSON_stringify (v : json) : string :=
  match v with
  | JNull => "null"
  | JBool b => if b then "true" else "false"
  | JNumber l => number_to_string l
  | JString s => quote_string s
  | JArray items =>
      "[" +:+ join_with ","
        ((fix go (l : list json) : list string :=
            match l with
            | [] => []
            | x :: l' => JSON_stringify x :: go l'
            end) items) +:+ "]"
  | JObject ms =>
      "{" +:+ join_with ","
        ((fix go (l : list (string * json)) : list string :=
            match l with
            | [] => []
            | (k, x) :: l' => (quote_string k +:+ ":" +:+ JSON_stringify x) :: go l'
            end) ms) +:+ "}"
  end.

(** [toCommandValue(v)] of the toolkit: nothing for null, a string as it
    is, the JSON text of anything else. *)
Definition toCommandValue (v : json) : string :=
  match v with
  | JNull => ""
  | JString s => s
  | _ => JSON_stringify v
  end.

(** [value.split(d)]: only a string has the method. *)
Definition split_value (d : ascii) (v : json) : res (list string) :=
  match v with
  | JString s => Ok (split_on d s)
  | JNull => Throw (JsError "TypeError" "Cannot read properties of null (reading 'split')")
  | _ => Throw (JsError "TypeError" "value.split is not a function")
  end.

(** ** Objects of strings

    [mise env --json] prints an object whose values are strings. *)

(** The item a character of a string is read back as, after escaping. *)
Definition escape_item (c : ascii) : str_item :=
  if (N_of_ascii c <? 32)%N
     && negb (bool_decide (c ∈ ["008"; "009"; "010"; "012"; "013"]%char))
  then Unit (N_of_ascii c) else Byte c.

(** The members of an object whose values are strings. *)
Definition string_members (entries : list (string * string)) : list (string * json) :=
  (fun kv => (kv.1, JString kv.2)) <$> entries.

(** ** Examples *)

Definition q (s : string) : string := String quote_char s +:+ String quote_char "".

(** [Object.entries] of a string: one entry per UTF-16 code unit.  The
    text is [a], U+00E9, U+20AC and U+1F600, the last one a surrogate
    pair. *)
Example Object_entries_string :
  let text := "a" +:+ utf8 233 +:+ utf8 8364 +:+ utf8 128512 in
  Object_entries (JString text) =
    Ok [("0", JString "a"); ("1", JString (utf8 233)); ("2", JString (utf8 8364));
        ("3", JString (utf8 55357)); ("4", JString (utf8 56832))].
Proof. by vm_compute. Qed.

(** Numbers print the way JavaScript prints them. *)
Example number_to_string_samples :
  number_to_string <$> ["1.0"; "1e2"; "-0"; "0.0000001"; "1e21"; "123e-2"; "-1.50"; "20"] =
    ["1"; "100"; "0"; "1e-7"; "1e+21"; "1.23"; "-1.5"; "20"].
Proof. by vm_compute. Qed.

Example parse_flat_object :
  JSON_parse ("{" +:+ q "FOO" +:+ ":" +:+ q "bar" +:+ "," +:+ q "PATH" +:+ ": " +:+ q "/a:/b" +:+ "}")
  = Ok (JObject [("FOO", JString "bar"); ("PATH", JString "/a:/b")]).
Proof. vm_compute. reflexivity. Qed.

Example parse_nested :
  JSON_parse ("[1, -2.5e3, true, null, [], {" +:+ q "a" +:+ ":{}}] ")
  = Ok (JArray [JNumber "1"; JNumber "-2.5e3"; JBool true; JNull; JArray [];
                JObject [("a", JObject [])]]).
Proof. vm_compute. reflexivity. Qed.

Example parse_rejects_trailing_comma : JSON_parse "[1,]" = Throw syntax_error.
Proof. vm_compute. reflexivity. Qed.

Example parse_rejects_leading_zero : JSON_parse "01" = Throw syntax_error.
Proof. vm_compute. reflexivity. Qed.

Example parse_duplicate_and_index_keys :
  JSON_parse ("{" +:+ q "b" +:+ ":1," +:+ q "10" +:+ ":2," +:+ q "9" +:+ ":3,"
              +:+ q "b" +:+ ":4," +:+ q "01" +:+ ":5}")
  = Ok (JObject [("9", JNumber "3"); ("10", JNumber "2"); ("b", JNumber "4");
                 ("01", JNumber "5")]).
Proof. vm_compute. reflexivity. Qed.

Example parse_escapes :
  JSON_parse (q (String backslash "n" +:+ String backslash "u0041"
                 +:+ String backslash "u00e9"))
  = Ok (JString (String "010"%char (String "A"%char
                   (String "195"%char (String "169"%char ""))))).
Proof. vm_compute. reflexivity. Qed.

(** ** Lemmas: every parsing function consumes text and terminates *)

Lemma skip_ws_length s : String.length (skip_ws s) <= String.length s.
Proof. induction s as [|c r IH]; simpl; [done|]. destruct (json_ws c); simpl; lia. Qed.

Lemma parsed_map_inv {A B} (f : A -> B) p b r :
  parsed_map f p = Parsed b r -> exists a, p = Parsed a r /\ b = f a.
Proof. destruct p; simpl; [intros [= <- <-]; eauto | done | done]. Qed.

Lemma parse_items_shorter s l r :
  parse_items s = Parsed l r -> String.length r < String.length s.
Proof.
  remember (String.length s) as n eqn:Hn. revert s l r Hn.
  induction n as [n IH] using lt_wf_ind. intros s l r -> H.
  destruct s as [|c s]; simpl in H; [done|].
  repeat (case_bool_decide || case_match); simplify_eq; simpl;
    try (apply parsed_map_inv in H as (l' & H & ->));
    try (eapply IH in H; [| |reflexivity]; simpl in *; lia); try lia.
Qed.

Lemma parse_string_shorter s k r :
  parse_string s = Parsed k r -> String.length r < String.length s.
Proof. intros (l & H & _)%parsed_map_inv. by eapply parse_items_shorter. Qed.

Lemma span_digits_length s ds r :
  span_digits s = (ds, r) -> String.length s = String.length ds + String.length r.
Proof.
  revert ds r. induction s as [|c s IH]; intros ds r; simpl; [by intros [= <- <-]|].
  destruct (is_digit c); [|by intros [= <- <-]].
  destruct (span_digits s) as [ds' r'] eqn:E. intros [= <- <-]. simpl.
  by rewrite (IH ds' r').
Qed.

Lemma parse_exponent_length lex s l r :
  parse_exponent lex s = Parsed l r -> String.length r <= String.length s.
Proof.
  unfold parse_exponent. destruct s as [|e s]; [by intros [= _ <-]|].
  destruct (_ || _); [|by intros [= _ <-]].
  destruct (match s with String g r' => _ | EmptyString => _ end) as [sign r1] eqn:E1.
  assert (String.length r1 <= String.length s) as H1.
  { destruct s as [|g s]; [by injection E1 as _ <-|].
    destruct (_ || _); injection E1 as _ <-; simpl; lia. }
  destruct (span_digits r1) as [ds r2] eqn:E2. apply span_digits_length in E2.
  case_bool_decide; [done|]. intros [= _ <-]. simpl. lia.
Qed.

Lemma after_length c s r : after c s = Some r -> String.length s = S (String.length r).
Proof. destruct s as [|c' s]; simpl; [done|]. case_bool_decide; [|done]. by intros [= ->]. Qed.

Lemma parse_fraction_length lex s l r :
  parse_fraction lex s = Parsed l r -> String.length r <= String.length s.
Proof.
  unfold parse_fraction. destruct (after "." s) as [s1|] eqn:E; [|apply parse_exponent_length].
  apply after_length in E. destruct (span_digits s1) as [ds r1] eqn:E1.
  apply span_digits_length in E1. case_bool_decide; [done|].
  intros Hp%parse_exponent_length. lia.
Qed.

Lemma parse_digits_shorter sign s l r :
  parse_digits sign s = Parsed l r -> String.length r < String.length s.
Proof.
  unfold parse_digits. destruct s as [|c s]; [done|]. case_bool_decide.
  - intros Hp%parse_fraction_length. simpl. lia.
  - destruct (is_digit c); [|done]. destruct (span_digits s) as [ds r1] eqn:E1.
    apply span_digits_length in E1. intros Hp%parse_fraction_length. simpl. lia.
Qed.

Lemma parse_number_shorter s l r :
  parse_number s = Parsed l r -> String.length r < String.length s.
Proof.
  unfold parse_number. destruct (after "-" s) as [s'|] eqn:E;
    intros Hp%parse_digits_shorter; [|done].
  apply after_length in E. lia.
Qed.

Lemma strip_prefix_length w s r :
  strip_prefix w s = Some r -> String.length s = String.length w + String.length r.
Proof.
  revert s. induction w as [|a w IH]; intros s; simpl; [by intros [= ->]|].
  destruct s as [|b s]; [done|]. case_bool_decide; [|done]. intros Hp%IH. simpl. lia.
Qed.

Lemma parse_literal_shorter w v s v' r :
  w <> "" -> parse_literal w v s = Parsed v' r -> String.length r < String.length s.
Proof.
  unfold parse_literal. intros Hw. destruct (strip_prefix w s) as [r'|] eqn:E; [|done].
  intros [= _ <-]. apply strip_prefix_length in E. destruct w; [done|]. simpl in *. lia.
Qed.

Lemma parsed_map_fuel {A B} (f : A -> B) p : p <> NoFuel -> parsed_map f p <> NoFuel.
Proof. by destruct p. Qed.

Lemma parse_items_fuel s : parse_items s <> NoFuel.
Proof.
  remember (String.length s) as n eqn:Hn. revert s Hn.
  induction n as [n IH] using lt_wf_ind. intros s ->.
  destruct s as [|c s]; simpl; [done|].
  repeat (case_bool_decide || case_match); simplify_eq; try done;
    apply parsed_map_fuel; (eapply IH; [|reflexivity]); simpl; lia.
Qed.

Lemma parse_string_fuel s : parse_string s <> NoFuel.
Proof. apply parsed_map_fuel, parse_items_fuel. Qed.

Lemma parse_exponent_fuel lex s : parse_exponent lex s <> NoFuel.
Proof. unfold parse_exponent. by repeat (case_bool_decide || case_match). Qed.

Lemma parse_fraction_fuel lex s : parse_fraction lex s <> NoFuel.
Proof.
  unfold parse_fraction. repeat (case_bool_decide || case_match); try done;
    apply parse_exponent_fuel.
Qed.

Lemma parse_number_fuel s : parse_number s <> NoFuel.
Proof.
  unfold parse_number, parse_digits.
  repeat (case_bool_decide || case_match); try done; apply parse_fraction_fuel.
Qed.

Lemma parse_literal_fuel w v s : parse_literal w v s <> NoFuel.
Proof. unfold parse_literal. by destruct (strip_prefix w s). Qed.

(** A parsing function that returns has consumed at least one character. *)
Lemma parse_shorter f :
  (forall s v r, parse_value f s = Parsed v r -> String.length r < String.length s) /\
  (forall s acc v r, parse_elements f s acc = Parsed v r -> String.length r < String.length s) /\
  (forall s acc v r, parse_members f s acc = Parsed v r -> String.length r < String.length s).
Proof.
  induction f as [|f (IHv & IHe & IHm)]; [done|]. split_and!.
  - intros s v r. simpl. pose proof (skip_ws_length s) as Hs.
    destruct (skip_ws s) as [|c s1]; [done|]. pose proof (skip_ws_length s1) as Hs1.
    simpl in Hs. repeat case_bool_decide.
    + destruct (after "}" (skip_ws s1)) as [r'|] eqn:E.
      * intros [= _ <-]. apply after_length in E. lia.
      * intros Hp%IHm. lia.
    + destruct (after "]" (skip_ws s1)) as [r'|] eqn:E.
      * intros [= _ <-]. apply after_length in E. lia.
      * intros Hp%IHe. lia.
    + intros (k & Hp%parse_string_shorter & _)%parsed_map_inv. lia.
    + intros Hp%parse_literal_shorter; [simpl in Hp; lia|done].
    + intros Hp%parse_literal_shorter; [simpl in Hp; lia|done].
    + intros Hp%parse_literal_shorter; [simpl in Hp; lia|done].
    + intros (k & Hp%parse_number_shorter & _)%parsed_map_inv. simpl in Hp. lia.
  - intros s acc v r. simpl. destruct (parse_value f s) as [v1 r1| |] eqn:E1; [|done|done].
    apply IHv in E1. pose proof (skip_ws_length r1) as Hr1.
    destruct (after "," (skip_ws r1)) as [r'|] eqn:E2.
    + apply after_length in E2. intros Hp%IHe. lia.
    + destruct (after "]" (skip_ws r1)) as [r'|] eqn:E3; [|done].
      apply after_length in E3. intros [= _ <-]. lia.
  - intros s acc v r. simpl. pose proof (skip_ws_length s) as Hs.
    destruct (after quote_char (skip_ws s)) as [s1|] eqn:E0; [|done]. apply after_length in E0.
    destruct (parse_string s1) as [k r1| |] eqn:E1; [|done|done]. apply parse_string_shorter in E1.
    pose proof (skip_ws_length r1) as Hr1.
    destruct (after ":" (skip_ws r1)) as [r2|] eqn:E2; [|done]. apply after_length in E2.
    destruct (parse_value f r2) as [v1 r3| |] eqn:E3; [|done|done]. apply IHv in E3.
    pose proof (skip_ws_length r3) as Hr3.
    destruct (after "," (skip_ws r3)) as [r4|] eqn:E4.
    + apply after_length in E4. intros Hp%IHm. lia.
    + destruct (after "}" (skip_ws r3)) as [r4|] eqn:E5; [|done].
      apply after_length in E5. intros [= _ <-]. lia.
Qed.

(** With fuel above twice the length of the text, no parsing function
    runs out of fuel. *)
Lemma parse_enough_fuel f :
  (forall s, 2 * String.length s + 1 <= f -> parse_value f s <> NoFuel) /\
  (forall s acc, 2 * String.length s + 2 <= f -> parse_elements f s acc <> NoFuel) /\
  (forall s acc, 2 * String.length s + 1 <= f -> parse_members f s acc <> NoFuel).
Proof.
  induction f as [|f (IHv & IHe & IHm)]; [split_and!; intros; lia|]. split_and!.
  - intros s Hf. simpl. pose proof (skip_ws_length s) as Hs.
    destruct (skip_ws s) as [|c s1]; [done|]. pose proof (skip_ws_length s1) as Hs1.
    simpl in Hs. repeat case_bool_decide.
    + destruct (after "}" (skip_ws s1)); [done|]. apply IHm. lia.
    + destruct (after "]" (skip_ws s1)); [done|]. apply IHe. lia.
    + apply parsed_map_fuel, parse_string_fuel.
    + apply parse_literal_fuel.
    + apply parse_literal_fuel.
    + apply parse_literal_fuel.
    + apply parsed_map_fuel, parse_number_fuel.
  - intros s acc Hf. simpl. specialize (IHv s).
    destruct (parse_value f s) as [v1 r1| |] eqn:E1; [|done|apply IHv; lia].
    apply (proj1 (parse_shorter f)) in E1. pose proof (skip_ws_length r1) as Hr1.
    destruct (after "," (skip_ws r1)) as [r'|] eqn:E2.
    + apply after_length in E2. apply IHe. lia.
    + by destruct (after "]" (skip_ws r1)).
  - intros s acc Hf. simpl. pose proof (skip_ws_length s) as Hs.
    destruct (after quote_char (skip_ws s)) as [s1|] eqn:E0; [|done]. apply after_length in E0.
    destruct (parse_string s1) as [k r1| |] eqn:E1; [|done|].
    2: { by apply parse_string_fuel in E1. }
    apply parse_string_shorter in E1. pose proof (skip_ws_length r1) as Hr1.
    destruct (after ":" (skip_ws r1)) as [r2|] eqn:E2; [|done]. apply after_length in E2.
    specialize (IHv r2).
    destruct (parse_value f r2) as [v1 r3| |] eqn:E3; [|done|apply IHv; lia].
    apply (proj1 (parse_shorter f)) in E3. pose proof (skip_ws_length r3) as Hr3.
    destruct (after "," (skip_ws r3)) as [r4|] eqn:E4.
    + apply after_length in E4. apply IHm. lia.
    + by destruct (after "}" (skip_ws r3)).
Qed.

(** More fuel does not change a result. *)
Lemma parse_more_fuel f :
  (forall f' s, f <= f' -> parse_value f s <> NoFuel -> parse_value f' s = parse_value f s) /\
  (forall f' s acc, f <= f' -> parse_elements f s acc <> NoFuel ->
     parse_elements f' s acc = parse_elements f s acc) /\
  (forall f' s acc, f <= f' -> parse_members f s acc <> NoFuel ->
     parse_members f' s acc = parse_members f s acc).
Proof.
  induction f as [|f (IHv & IHe & IHm)]; [done|]. split_and!.
  - intros [|f'] s Hf; [lia|]. simpl. destruct (skip_ws s) as [|c s1]; [done|].
    repeat case_bool_decide; try done.
    + destruct (after "}" (skip_ws s1)); [done|]. apply IHm. lia.
    + destruct (after "]" (skip_ws s1)); [done|]. apply IHe. lia.
  - intros [|f'] s acc Hf; [lia|]. simpl. intros Hne.
    rewrite (IHv f' s) by (lia || by destruct (parse_value f s)).
    destruct (parse_value f s) as [v r| |]; [|done|done].
    destruct (after "," (skip_ws r)); [|done]. apply IHe; [lia|done].
  - intros [|f'] s acc Hf; [lia|]. simpl. intros Hne.
    destruct (after quote_char (skip_ws s)) as [s1|]; [|done].
    destruct (parse_string s1) as [k r1| |]; [|done|done].
    destruct (after ":" (skip_ws r1)) as [r2|]; [|done].
    rewrite (IHv f' r2) by (lia || by destruct (parse_value f r2)).
    destruct (parse_value f r2) as [v r3| |]; [|done|done].
    destruct (after "," (skip_ws r3)); [|done]. apply IHm; [lia|done].
Qed.

(** With the fuel of [JSON_parse] or more, the parser never runs out of
    fuel, and its result does not depend on the fuel. *)
Lemma parse_value_fuel text f :
  2 * String.length text + 1 <= f ->
  parse_value f text <> NoFuel /\
  parse_value f text = parse_value (2 * String.length text + 1) text.
Proof.
  intros Hf. pose proof (proj1 (parse_enough_fuel _) text (Nat.le_refl _)) as Hne.
  rewrite (proj1 (parse_more_fuel _) f text Hf Hne). done.
Qed.

(** A result obtained with any fuel is the result of [JSON_parse]. *)
Lemma JSON_parse_intro f text v r :
  parse_value f text = Parsed v r -> skip_ws r = "" -> JSON_parse text = Ok v.
Proof.
  intros Hp Hr. unfold JSON_parse.
  destruct (Nat.le_gt_cases f (2 * String.length text + 1)) as [Hf|Hf].
  - rewrite (proj1 (parse_more_fuel f) _ text Hf), Hp by (by rewrite Hp).
    by rewrite Hr, bool_decide_eq_true_2.
  - destruct (parse_value_fuel text f) as [_ <-]; [lia|]. rewrite Hp.
    by rewrite Hr, bool_decide_eq_true_2.
Qed.

Lemma parse_items_escape c s :
  parse_items (escape_char c +:+ s) = parsed_map (cons (escape_item c)) (parse_items s).
Proof. destruct c as [[] [] [] [] [] [] [] []]; reflexivity. Qed.

Lemma encode_escape_item c l :
  encode_items (escape_item c :: l) = String c (encode_items l).
Proof.
  destruct c as [[] [] [] [] [] [] [] []]; try reflexivity; destruct l as [|[] l]; reflexivity.
Qed.

Lemma parse_items_escape_string s rest :
  exists l, parse_items (escape_string s +:+ String quote_char rest) = Parsed l rest /\
            encode_items l = s.
Proof.
  induction s as [|c s (l & IH & Hl)]; simpl.
  - by exists [].
  - exists (escape_item c :: l). rewrite string_app_assoc, parse_items_escape, IH.
    by rewrite encode_escape_item, Hl.
Qed.

(** Reading back an escaped string gives the string, byte for byte. *)
Lemma parse_string_escape s rest :
  parse_string (escape_string s +:+ String quote_char rest) = Parsed s rest.
Proof.
  unfold parse_string. destruct (parse_items_escape_string s rest) as (l & -> & <-). done.
Qed.

Lemma quote_string_app s rest :
  quote_string s +:+ rest = String quote_char (escape_string s +:+ String quote_char rest).
Proof. unfold quote_string. by rewrite !string_app_cons, string_app_assoc. Qed.

Lemma parse_value_string f s rest :
  parse_value (S f) (quote_string s +:+ rest) = Parsed (JString s) rest.
Proof. rewrite quote_string_app. simpl. by rewrite parse_string_escape. Qed.

Lemma stringify_object ms :
  JSON_stringify (JObject ms) =
    "{" +:+ join_with "," ((fun kv => quote_string kv.1 +:+ ":" +:+ JSON_stringify kv.2) <$> ms)
        +:+ "}".
Proof.
  simpl. do 3 f_equal. induction ms as [|[k x] ms IH]; simpl; [done|]. by rewrite IH.
Qed.

Lemma string_members_keys vars : (string_members vars).*1 = vars.*1.
Proof. unfold string_members. rewrite <- list_fmap_compose. by apply list_fmap_ext. Qed.
