(* ===== verification/JsonRoundTrip.v ===== *)
(** * JsonRoundTrip: [JSON.parse] reads back what [JSON.stringify] prints

    [mise env --json] prints its answer with a JSON printer and
    [setEnvVars] reads it with [JSON.parse].  This file proves that the
    parser of [Json] inverts the printer on every value a JavaScript
    program can hold:

    - [canonical_number]: the lexemes number-to-string conversion prints
      back unchanged in the model (integers of at most 15 digits without
      leading zero, [-0] excluded);
    - [canonical_keys]: the order in which [Object.entries] enumerates the
      keys of any object (array-index keys first, ascending, then the other
      keys), without repetition;
    - [wf_json]: the values whose numbers and objects are canonical, at
      every depth;
    - [json_size]: the fuel that is enough to read the text of a value.

    Lemmas: the number parser ignores what follows a lexeme when that
    cannot continue a number ([parse_number_app]); defining members in
    canonical order rebuilds the object ([define_canonical]); the text of
    a well-formed value is read back in front of any such text
    ([parse_stringify], by the nested induction [json_nested_ind]), hence
    [JSON_parse_stringify]; the instance for objects of strings
    ([JSON_parse_stringify_strings]) is what the exporter uses. *)

From Stdlib Require Import Ascii NArith ZArith.
From stdpp Require Import base option list strings pretty.
From S2P Require Import Prelude JsString Json.

(** ** Well-formed values *)

(** A text the number parser reads completely and returns as it is. *)
Definition number_lexeme (l : string) : bool :=
  match parse_number l with
  | Parsed l' r => bool_decide (l' = l) && bool_decide (r = "")
  | _ => false
  end.

(** A lexeme without its minus sign. *)
Definition unsigned (l : string) : string := default l (after "-" l).

(** The lexemes [number_to_string] prints back unchanged, for the numbers
    JavaScript prints in full: integers of at most 15 digits. *)
Definition canonical_number (l : string) : bool :=
  number_lexeme l && all_digits (unsigned l) && (String.length (unsigned l) <=? 15)
  && negb (bool_decide (l = "-0")).

(** A text that cannot continue a number: its first character is not a
    digit, a point or an exponent mark. *)
Definition ends_number (rest : string) : bool :=
  match rest with
  | EmptyString => true
  | String c _ =>
      negb (is_digit c) && negb (bool_decide (c ∈ ["."; "e"; "E"]%char))
  end.

(** The first character of a number: a minus sign or a digit. *)
Definition starts_number (c : ascii) : bool := bool_decide (c = "-"%char) || is_digit c.

(** [k] is an array index smaller than [n]. *)
Definition index_below (n : N) (k : string) : bool :=
  match array_index k with
  | Some n' => (n' <? n)%N
  | None => false
  end.

(** The key [k] can follow the keys [prev] in the property order of an
    object: it is new, and when it is an array index every key before it
    is a smaller array index. *)
Definition key_fits (prev : list string) (k : string) : bool :=
  negb (bool_decide (k ∈ prev)) &&
  match array_index k with
  | Some n => forallb (index_below n) prev
  | None => true
  end.

(** The keys [ks] follow [prev] in property order. *)
Fixpoint canonical_keys (prev ks : list string) : bool :=
  match ks with
  | [] => true
  | k :: ks' => key_fits prev k && canonical_keys (prev ++ [k]) ks'
  end.

(** The values of a JavaScript program: canonical numbers, and objects
    whose keys are in property order, at every depth. *)
Fixpoint wf_json (v : json) : bool :=
  match v with
  | JNull | JBool _ | JString _ => true
  | JNumber l => canonical_number l
  | JArray items => forallb wf_json items
  | JObject ms => canonical_keys [] ms.*1 && forallb (fun kv => wf_json kv.2) ms
  end.

(** The number of values and members of a value: the fuel its text
    needs. *)
Fixpoint json_size (v : json) : nat :=
  match v with
  | JArray items => S (list_sum (map (fun x => S (json_size x)) items))
  | JObject ms => S (list_sum (map (fun kv => S (json_size kv.2)) ms))
  | _ => 1
  end.

(** [JSON.parse] reading one member into the members read so far. *)
Definition define_member (acc : list (string * json)) (kv : string * json)
  : list (string * json) :=
  object_define kv.1 kv.2 acc.

(** The text of one member. *)
Definition member_text (kv : string * json) : string :=
  quote_string kv.1 +:+ ":" +:+ JSON_stringify kv.2.

(** Induction on values with the hypothesis for every element of an array
    and every member of an object. *)
Section json_ind.
Context (P : json -> Prop).
Context (Hnull : P JNull) (Hbool : forall b, P (JBool b))
  (Hnumber : forall l, P (JNumber l)) (Hstring : forall s, P (JString s))
  (Harray : forall items, Forall P items -> P (JArray items))
  (Hobject : forall ms, Forall (fun kv => P kv.2) ms -> P (JObject ms)).

Fixpoint json_nested_ind (v : json) : P v :=
  match v with
  | JNull => Hnull
  | JBool b => Hbool b
  | JNumber l => Hnumber l
  | JString s => Hstring s
  | JArray items =>
      Harray items
        ((fix go (l : list json) : Forall P l :=
            match l with
            | [] => List.Forall_nil P
            | x :: l' => List.Forall_cons _ x _ (json_nested_ind x) (go l')
            end) items)
  | JObject ms =>
      Hobject ms
        ((fix go (l : list (string * json)) : Forall (fun kv => P kv.2) l :=
            match l with
            | [] => List.Forall_nil _
            | kv :: l' => List.Forall_cons _ kv _ (json_nested_ind kv.2) (go l')
            end) ms)
  end.
End json_ind.

(** What the induction gives for a value: its text is read back in front
    of any text that cannot continue a number, with fuel for its size. *)
Definition reads_back (v : json) : Prop :=
  forall f rest, ends_number rest = true -> json_size v <= f ->
    parse_value f (JSON_stringify v +:+ rest) = Parsed v rest.

(** ** Numbers *)

Lemma string_app_nil_l (s : string) : "" +:+ s = s.
Proof. reflexivity. Qed.

Lemma span_digits_app s rest ds r :
  ends_number rest = true ->
  span_digits s = (ds, r) -> span_digits (s +:+ rest) = (ds, r +:+ rest).
Proof.
  intros Hrest. revert ds r. induction s as [|c s IH]; intros ds r; simpl.
  - intros [= <- <-]. destruct rest as [|c rest]; [done|]. simpl in *.
    by destruct (is_digit c).
  - rewrite ?string_app_cons. destruct (is_digit c); [|by intros [= <- <-]].
    destruct (span_digits s) as [ds' r'] eqn:E. intros [= <- <-].
    by rewrite (IH ds' r').
Qed.

Lemma after_app c s rest r :
  after c s = Some r -> after c (s +:+ rest) = Some (r +:+ rest).
Proof.
  destruct s as [|c' s]; [done|]. rewrite string_app_cons. simpl.
  case_bool_decide; [|done]. by intros [= ->].
Qed.

Lemma after_app_None c c' s rest :
  after c (String c' s) = None -> after c (String c' s +:+ rest) = None.
Proof. rewrite string_app_cons. simpl. by case_bool_decide. Qed.

Lemma after_ends_number c rest :
  c ∈ ["."; "e"; "E"]%char -> ends_number rest = true -> after c rest = None.
Proof.
  intros Hc. destruct rest as [|c' rest]; [done|]. simpl.
  intros [_ H]%andb_prop. apply negb_true_iff, bool_decide_eq_false in H.
  destruct (decide (c' = c)) as [->|Hne]; [done|]. by rewrite bool_decide_eq_false_2.
Qed.

Lemma parse_exponent_app lex s rest l r :
  ends_number rest = true ->
  parse_exponent lex s = Parsed l r ->
  parse_exponent lex (s +:+ rest) = Parsed l (r +:+ rest).
Proof.
  intros Hrest. destruct s as [|e s].
  - intros [= <- <-]. rewrite string_app_nil_l. destruct rest as [|c rest]; [done|].
    simpl in *. apply andb_prop in Hrest as [_ H].
    apply negb_true_iff, bool_decide_eq_false in H.
    rewrite !bool_decide_eq_false_2; [done| |]; intros ->; apply H;
      repeat (left || right).
  - rewrite string_app_cons. simpl. destruct (_ || _); [|by intros [= <- <-]].
    set (sg := match s +:+ rest with String g r' => _ | EmptyString => _ end).
    destruct (match s with String g r' => _ | EmptyString => _ end) as [sign r1] eqn:E1.
    destruct (span_digits r1) as [ds r2] eqn:E2. case_bool_decide; [done|].
    intros [= <- <-].
    assert (sg = (sign, r1 +:+ rest)) as ->.
    { subst sg. destruct s as [|g s].
      - injection E1 as <- <-. simpl in E2. by simplify_eq.
      - rewrite string_app_cons. destruct (_ || _); by injection E1 as <- <-. }
    by rewrite (span_digits_app _ _ _ _ Hrest E2), bool_decide_eq_false_2.
Qed.

Lemma parse_fraction_app lex s rest l r :
  ends_number rest = true ->
  parse_fraction lex s = Parsed l r ->
  parse_fraction lex (s +:+ rest) = Parsed l (r +:+ rest).
Proof.
  intros Hrest. unfold parse_fraction. destruct (after "." s) as [s1|] eqn:E.
  - rewrite (after_app _ _ rest _ E). destruct (span_digits s1) as [ds r1] eqn:E1.
    rewrite (span_digits_app _ _ _ _ Hrest E1). case_bool_decide; [done|].
    by apply parse_exponent_app.
  - assert (after "." (s +:+ rest) = None) as ->; [|by apply parse_exponent_app].
    destruct s as [|c s]; [|by apply after_app_None].
    apply after_ends_number; [by left|done].
Qed.

Lemma parse_digits_app sign s rest l r :
  ends_number rest = true ->
  parse_digits sign s = Parsed l r ->
  parse_digits sign (s +:+ rest) = Parsed l (r +:+ rest).
Proof.
  intros Hrest. destruct s as [|c s]; [done|]. rewrite (string_app_cons c s rest).
  unfold parse_digits. case_bool_decide; [by apply parse_fraction_app|].
  destruct (is_digit c); [|done]. destruct (span_digits s) as [ds r1] eqn:E1.
  rewrite (span_digits_app _ _ _ _ Hrest E1). by apply parse_fraction_app.
Qed.

Lemma parse_number_app s rest l r :
  ends_number rest = true ->
  parse_number s = Parsed l r ->
  parse_number (s +:+ rest) = Parsed l (r +:+ rest).
Proof.
  intros Hrest. unfold parse_number. destruct (after "-" s) as [s1|] eqn:E.
  - rewrite (after_app _ _ rest _ E). by apply parse_digits_app.
  - destruct s as [|c s]; [done|]. rewrite (after_app_None _ _ _ _ E).
    by apply parse_digits_app.
Qed.

Lemma number_lexeme_parse l : number_lexeme l = true -> parse_number l = Parsed l "".
Proof.
  unfold number_lexeme. destruct (parse_number l) as [l' r| |]; [|done|done].
  by intros [->%bool_decide_eq_true ->%bool_decide_eq_true]%andb_prop.
Qed.

(** A number lexeme is read back, whatever follows it that cannot
    continue a number. *)
Lemma parse_number_lexeme l rest :
  number_lexeme l = true -> ends_number rest = true ->
  parse_number (l +:+ rest) = Parsed l rest.
Proof.
  intros Hl%number_lexeme_parse Hrest. by rewrite (parse_number_app _ _ _ _ Hrest Hl).
Qed.

Lemma number_lexeme_head l :
  number_lexeme l = true -> exists c t, l = String c t /\ starts_number c = true.
Proof.
  intros Hl%number_lexeme_parse. unfold parse_number in Hl.
  destruct l as [|c t]; [done|]. exists c, t. split; [done|]. unfold starts_number.
  simpl in Hl. destruct (bool_decide (c = "-"%char)); [done|]. simpl.
  case_bool_decide; [by subst c|]. by destruct (is_digit c).
Qed.

Lemma span_digits_all (s : string) : all_digits s = true -> span_digits s = (s, "").
Proof.
  induction s as [|c s IH]; [done|]. simpl. intros [-> Hs]%andb_prop. by rewrite IH.
Qed.

Lemma strip_zeros_end_length (s : string) :
  String.length (strip_zeros_end s) <= String.length s.
Proof. induction s as [|c s IH]; simpl; [done|]. case_match; simpl; lia. Qed.

(** A string of digits is its significant digits followed by zeros. *)
Lemma strip_zeros_end_zeros (s : string) :
  strip_zeros_end s +:+ zeros (String.length s - String.length (strip_zeros_end s)) = s.
Proof.
  induction s as [|c s IH]; [done|]. cbn [strip_zeros_end].
  destruct (bool_decide (c = "0"%char) && bool_decide (strip_zeros_end s = "")) eqn:E.
  - apply andb_prop in E as [->%bool_decide_eq_true E%bool_decide_eq_true].
    rewrite E in IH. change (zeros (String.length s - 0) = s) in IH.
    rewrite Nat.sub_0_r in IH.
    change (String "0" (zeros (String.length s)) = String "0" s). by rewrite IH.
  - change (String c (strip_zeros_end s +:+
              zeros (String.length s - String.length (strip_zeros_end s))) = String c s).
    by rewrite IH.
Qed.

Lemma strip_zeros_end_head (c : ascii) (s : string) :
  c <> "0"%char -> strip_zeros_end (String c s) <> "".
Proof. intros Hc. simpl. by rewrite bool_decide_eq_false_2. Qed.

(** A canonical number is an optional minus sign and digits, without a
    leading zero unless it is 0. *)
Lemma canonical_number_shape (l : string) :
  canonical_number l = true ->
  exists (neg : bool) (u : string),
    l = (if neg then "-" else "") +:+ u /\ number_parts l = (neg, u, "", 0%Z) /\
    String.length u <= 15 /\
    (u = "0" /\ neg = false \/ exists c r, u = String c r /\ c <> "0"%char).
Proof.
  unfold canonical_number, number_lexeme, parse_number, unsigned, number_parts.
  intros [[[Hl Hd]%andb_prop Hn%Nat.leb_le]%andb_prop H0%negb_true_iff%bool_decide_eq_false]%andb_prop.
  destruct (after "-" l) as [u|] eqn:Ha; simpl in Hd, Hn.
  - exists true, u. assert (l = "-" +:+ u) as ->.
    { destruct l as [|c l]; [done|]. simpl in Ha. by case_bool_decide; simplify_eq. }
    rewrite (span_digits_all _ Hd). simpl. do 3 (split; [done|]). right.
    destruct u as [|c r]; [done|]. exists c, r. split; [done|]. intros ->.
    simpl in Hl. destruct r as [|d r]; [done|]. simpl in Hd.
    apply andb_prop in Hd as [Hd _]. unfold parse_fraction in Hl. simpl in Hl.
    case_bool_decide; [by subst d|]. revert Hl.
    repeat case_bool_decide; subst; try done; rewrite ?andb_false_r; done.
  - exists false, l. rewrite (span_digits_all _ Hd). simpl. do 3 (split; [done|]).
    destruct l as [|c r]; [done|]. destruct (decide (c = "0"%char)) as [->|Hc]; [left|right; eauto].
    split; [|done]. simpl in Hl. destruct r as [|d r]; [done|]. simpl in Hd.
    apply andb_prop in Hd as [Hd _]. unfold parse_fraction in Hl. simpl in Hl.
    case_bool_decide; [by subst d|]. revert Hl.
    repeat case_bool_decide; subst; try done; rewrite ?andb_false_r; done.
Qed.

Lemma canonical_number_spec l :
  canonical_number l = true -> number_lexeme l = true /\ number_to_string l = l.
Proof.
  intros Hc. split; [unfold canonical_number in Hc; by repeat (apply andb_prop in Hc as [Hc _])|].
  destruct (canonical_number_shape l Hc) as (neg & u & -> & Hp & Hu & [[-> ->]|(c & r & -> & Hc0)]).
  { done. }
  unfold number_to_string. rewrite Hp, string_app_nil_r.
  assert (strip_zeros (String c r) = String c r) as -> by (simpl; by rewrite bool_decide_eq_false_2).
  rewrite bool_decide_eq_false_2 by (by apply strip_zeros_end_head).
  pose proof (strip_zeros_end_length (String c r)) as Hle.
  rewrite bool_decide_eq_true_2 by (simpl in *; lia).
  unfold format_number. rewrite bool_decide_eq_true_2 by (simpl in *; lia).
  change (String.length "") with 0.
  replace (Z.to_nat _) with (String.length (String c r) - String.length (strip_zeros_end (String c r)))
    by lia.
  by rewrite strip_zeros_end_zeros.
Qed.

(** How [parse_value] reads a text that starts like a number. *)
Lemma parse_value_starts_number f c t :
  starts_number c = true ->
  parse_value (S f) (String c t) = parsed_map JNumber (parse_number (String c t)).
Proof.
  destruct c as [[] [] [] [] [] [] [] []]; try discriminate; reflexivity.
Qed.

Lemma parse_value_number f l rest :
  canonical_number l = true -> ends_number rest = true ->
  parse_value (S f) (number_to_string l +:+ rest) = Parsed (JNumber l) rest.
Proof.
  intros [Hl ->]%canonical_number_spec Hrest.
  destruct (number_lexeme_head l Hl) as (c & t & Hlt & Hc).
  rewrite Hlt at 1. rewrite string_app_cons, parse_value_starts_number by done.
  by rewrite <- string_app_cons, <- Hlt, parse_number_lexeme.
Qed.

Lemma starts_number_head c :
  starts_number c = true -> json_ws c = false /\ c <> "]"%char.
Proof. destruct c as [[] [] [] [] [] [] [] []]; try discriminate; done. Qed.

(** ** The printed text *)

Lemma stringify_array items :
  JSON_stringify (JArray items) =
    String "[" (join_with "," (JSON_stringify <$> items) +:+ "]").
Proof. reflexivity. Qed.

Lemma stringify_members ms :
  JSON_stringify (JObject ms) = String "{" (join_with "," (member_text <$> ms) +:+ "}").
Proof. by rewrite stringify_object. Qed.

(** The text of a value starts with a character that is neither white
    space nor a closing bracket. *)
Lemma stringify_head v rest :
  wf_json v = true ->
  exists c t, JSON_stringify v +:+ rest = String c t /\ json_ws c = false /\ c <> "]"%char.
Proof.
  destruct v as [|[]|l|s|items|ms]; intros Hwf;
    try (rewrite ?stringify_array, ?stringify_members, ?quote_string_app;
         do 2 eexists; split; [reflexivity|done]).
  apply canonical_number_spec in Hwf as [Hl Heq]. simpl. rewrite Heq.
  destruct (number_lexeme_head l Hl) as (c & t & -> & Hc%starts_number_head).
  rewrite string_app_cons. eauto.
Qed.

Lemma join_head (f : json -> string) x l tail :
  exists t, join_with "," (f <$> x :: l) +:+ tail = f x +:+ t.
Proof.
  destruct l as [|y l]; [by exists tail|].
  rewrite fmap_cons, join_with_cons, !string_app_assoc by done. eauto.
Qed.

Lemma join_head_members kv l tail :
  exists t, join_with "," (member_text <$> kv :: l) +:+ tail = String quote_char t.
Proof.
  assert (exists t, member_text kv +:+ tail = String quote_char t) as Hm.
  { intros. unfold member_text. rewrite !string_app_assoc, quote_string_app. eauto. }
  destruct l as [|y l]; [apply Hm|].
  rewrite fmap_cons, join_with_cons, !string_app_assoc by done.
  unfold member_text. rewrite !string_app_assoc, quote_string_app. eauto.
Qed.

(** ** Elements and members *)

Lemma parse_element f text tail x acc :
  parse_value f (text +:+ tail) = Parsed x tail ->
  parse_elements (S f) (text +:+ tail) acc =
    match after "," (skip_ws tail), after "]" (skip_ws tail) with
    | Some r, _ => parse_elements f r (acc ++ [x])
    | None, Some r => Parsed (JArray (acc ++ [x])) r
    | None, None => Malformed
    end.
Proof. intros H. simpl. by rewrite H. Qed.

Lemma parse_elements_text items acc f rest :
  Forall reads_back items -> items <> [] ->
  list_sum (map (fun x => S (json_size x)) items) <= f ->
  parse_elements f (join_with "," (JSON_stringify <$> items) +:+ String "]" rest) acc =
    Parsed (JArray (acc ++ items)) rest.
Proof.
  intros Hall. revert acc f. induction Hall as [|x l Hx Hl IH]; intros acc f Hne Hf; [done|].
  destruct f as [|f]; simpl in Hf; [lia|]. destruct l as [|y l].
  - change (join_with "," (JSON_stringify <$> [x])) with (JSON_stringify x).
    rewrite (parse_element _ _ _ x); [done|]. apply Hx; [done|lia].
  - rewrite fmap_cons, join_with_cons, !string_app_assoc by done.
    rewrite (parse_element _ _ _ x) by (apply Hx; [done|lia]).
    rewrite string_app_cons, string_app_nil_l. cbn [skip_ws json_ws after].
    rewrite bool_decide_eq_true_2, IH, <- app_assoc by (done || lia). done.
Qed.

Lemma parse_member f k text tail x acc :
  parse_value f (text +:+ tail) = Parsed x tail ->
  parse_members (S f) (quote_string k +:+ ":" +:+ text +:+ tail) acc =
    match after "," (skip_ws tail), after "}" (skip_ws tail) with
    | Some r, _ => parse_members f r (object_define k x acc)
    | None, Some r => Parsed (JObject (object_define k x acc)) r
    | None, None => Malformed
    end.
Proof.
  intros H. rewrite quote_string_app.
  cbn [parse_members skip_ws json_ws after quote_char]. rewrite bool_decide_eq_true_2 by done.
  rewrite parse_string_escape, string_app_cons, string_app_nil_l.
  cbn [skip_ws json_ws after]. by rewrite bool_decide_eq_true_2, H.
Qed.

Lemma member_text_app kv tail :
  member_text kv +:+ tail = quote_string kv.1 +:+ ":" +:+ JSON_stringify kv.2 +:+ tail.
Proof. unfold member_text. by rewrite !string_app_assoc. Qed.

Lemma parse_members_text ms acc f rest :
  Forall (fun kv => reads_back kv.2) ms -> ms <> [] ->
  list_sum (map (fun kv => S (json_size kv.2)) ms) <= f ->
  parse_members f (join_with "," (member_text <$> ms) +:+ String "}" rest) acc =
    Parsed (JObject (foldl define_member acc ms)) rest.
Proof.
  intros Hall. revert acc f. induction Hall as [|kv l Hx Hl IH]; intros acc f Hne Hf; [done|].
  destruct f as [|f]; simpl in Hf; [lia|]. destruct l as [|y l].
  - change (join_with "," (member_text <$> [kv])) with (member_text kv).
    rewrite member_text_app, (parse_member _ _ _ _ kv.2); [done|]. apply Hx; [done|lia].
  - rewrite fmap_cons, join_with_cons, !string_app_assoc, member_text_app by done.
    rewrite (parse_member _ _ _ _ kv.2) by (apply Hx; [done|lia]).
    rewrite string_app_cons, string_app_nil_l. cbn [skip_ws json_ws after].
    rewrite bool_decide_eq_true_2, IH by (done || lia). done.
Qed.

(** ** Property order *)

Lemma insert_index_last n k v ms :
  forallb (index_below n) ms.*1 = true -> insert_index n k v ms = ms ++ [(k, v)].
Proof.
  induction ms as [|[k' v'] ms IH]; simpl; [done|]. unfold index_below at 1.
  intros [Hk Hms]%andb_prop. destruct (array_index k') as [n'|]; [|done].
  by rewrite Hk, IH.
Qed.

(** A key that fits after the keys of an object is defined at the end. *)
Lemma object_define_fits k v acc :
  key_fits acc.*1 k = true -> object_define k v acc = acc ++ [(k, v)].
Proof.
  unfold key_fits, object_define, has_key. intros [Hk Hidx]%andb_prop.
  apply negb_true_iff in Hk. rewrite Hk.
  destruct (array_index k); [by apply insert_index_last|done].
Qed.

(** Defining the members of an object in canonical order rebuilds it. *)
Lemma define_canonical ms acc :
  canonical_keys acc.*1 ms.*1 = true -> foldl define_member acc ms = acc ++ ms.
Proof.
  revert acc. induction ms as [|[k v] ms IH]; intros acc; simpl.
  - by rewrite app_nil_r.
  - intros [Hk Hms]%andb_prop. unfold define_member at 2. cbn [fst snd].
    rewrite (object_define_fits _ _ _ Hk), IH, <- app_assoc; [done|].
    by rewrite fmap_app.
Qed.

(** Distinct keys none of which is an array index are in canonical
    order. *)
Lemma canonical_keys_plain prev ks :
  NoDup (prev ++ ks) -> Forall (fun k => array_index k = None) ks ->
  canonical_keys prev ks = true.
Proof.
  revert prev. induction ks as [|k ks IH]; intros prev Hnd Hks; simpl; [done|].
  apply Forall_cons in Hks as [Hk Hks]. unfold key_fits. rewrite Hk, andb_true_r.
  apply andb_true_intro. split.
  - apply negb_true_iff, bool_decide_eq_false. apply NoDup_app in Hnd as (_ & Hdis & _).
    intros Hin. apply (Hdis k Hin). by left.
  - apply IH; [|done]. by rewrite <- app_assoc.
Qed.

(** ** The round trip *)

Lemma parse_value_array f r :
  parse_value (S f) (String "[" r) =
    match after "]" (skip_ws r) with
    | Some r' => Parsed (JArray []) r'
    | None => parse_elements f (skip_ws r) []
    end.
Proof. reflexivity. Qed.

Lemma parse_value_object f r :
  parse_value (S f) (String "{" r) =
    match after "}" (skip_ws r) with
    | Some r' => Parsed (JObject []) r'
    | None => parse_members f (skip_ws r) []
    end.
Proof. reflexivity. Qed.

Lemma skip_ws_head c t : json_ws c = false -> skip_ws (String c t) = String c t.
Proof. intros H. simpl. by rewrite H. Qed.

Lemma after_other c c' t : c' <> c -> after c (String c' t) = None.
Proof. intros H. simpl. by rewrite bool_decide_eq_false_2. Qed.

Lemma Forall_reads_back {A} (g : A -> json) (l : list A) :
  Forall (fun a => wf_json (g a) = true -> reads_back (g a)) l ->
  forallb (fun a => wf_json (g a)) l = true ->
  Forall (fun a => reads_back (g a)) l.
Proof.
  induction 1 as [|a l Ha Hl IH]; simpl; [done|].
  intros [Hwa Hwl]%andb_prop. constructor; auto.
Qed.

Lemma reads_back_array items :
  Forall (fun x => wf_json x = true -> reads_back x) items ->
  wf_json (JArray items) = true -> reads_back (JArray items).
Proof.
  intros IH Hwf f rest Hrest Hf. pose proof (Forall_reads_back id items IH Hwf) as Hall.
  rewrite stringify_array, string_app_cons, string_app_assoc.
  destruct f as [|f]; simpl in Hf; [lia|]. apply le_S_n in Hf.
  destruct items as [|x l]; [done|]. simpl in Hwf. apply andb_prop in Hwf as [Hx _].
  destruct (join_head JSON_stringify x l ("]" +:+ rest)) as [t Ht].
  destruct (stringify_head x t Hx) as (c & t' & Hc & Hws & Hne).
  rewrite parse_value_array, Ht, Hc, (skip_ws_head _ _ Hws), (after_other _ _ _ Hne).
  rewrite <- Hc, <- Ht. by apply (parse_elements_text _ []).
Qed.

Lemma reads_back_object ms :
  Forall (fun kv => wf_json kv.2 = true -> reads_back kv.2) ms ->
  wf_json (JObject ms) = true -> reads_back (JObject ms).
Proof.
  intros IH [Hkeys Hwf]%andb_prop f rest Hrest Hf.
  pose proof (Forall_reads_back snd ms IH Hwf) as Hall.
  rewrite stringify_members, string_app_cons, string_app_assoc.
  destruct f as [|f]; simpl in Hf; [lia|]. apply le_S_n in Hf.
  destruct ms as [|kv l]; [done|].
  destruct (join_head_members kv l ("}" +:+ rest)) as [t Ht].
  rewrite parse_value_object, Ht, skip_ws_head, after_other by done.
  rewrite <- Ht. change ("}" +:+ rest) with (String "}" rest).
  by rewrite parse_members_text, (define_canonical _ []).
Qed.

(** [JSON.parse] reads back the text [JSON.stringify] prints for a
    well-formed value, in front of any text that cannot continue a
    number, with any fuel above the size of the value. *)
Lemma parse_stringify v : wf_json v = true -> reads_back v.
Proof.
  induction v as [|b|l|s|items IH|ms IH] using json_nested_ind;
    [| | | |by apply reads_back_array|by apply reads_back_object];
    intros Hwf [|f] rest Hrest Hf; simpl in Hf; try lia.
  - done.
  - by destruct b.
  - by apply parse_value_number.
  - apply parse_value_string.
Qed.

Theorem JSON_parse_stringify v : wf_json v = true -> JSON_parse (JSON_stringify v) = Ok v.
Proof.
  intros Hwf. apply (JSON_parse_intro (json_size v) _ _ ""); [|done].
  rewrite <- (string_app_nil_r (JSON_stringify _)) at 1. by apply parse_stringify.
Qed.

(** [JSON.parse] reads back the text [JSON.stringify] prints for an
    object whose values are strings and whose keys are distinct and not
    array indices: same members, same order. *)
Lemma JSON_parse_stringify_strings entries :
  NoDup entries.*1 ->
  Forall (fun kv => array_index kv.1 = None) entries ->
  JSON_parse (JSON_stringify (JObject (string_members entries))) =
    Ok (JObject (string_members entries)).
Proof.
  intros Hnd Hidx. apply JSON_parse_stringify. simpl. apply andb_true_intro. split.
  - apply canonical_keys_plain; [by rewrite string_members_keys|].
    rewrite string_members_keys. by apply Forall_fmap.
  - unfold string_members. rewrite forallb_forall. intros kv Hin.
    apply in_map_iff in Hin as (e & <- & _). done.
Qed.
