(* ===== verification/JsonObjects.v ===== *)
(** * JsonObjects: the objects [JSON.parse] builds

    A JavaScript object has each key once.  [JSON.parse] defines the
    members it reads one after the other ([object_define]), so a repeated
    key of the text keeps its place and takes the last value, and
    [Object.entries] never enumerates a key twice.

    - [distinct_keys]: the objects of a value have distinct keys, at every
      depth.

    Lemmas: [object_define] keeps the keys distinct
    ([object_define_NoDup]); every value the parser builds has distinct
    keys ([parse_distinct], by induction on the fuel, for the three
    mutually recursive functions at once), hence [JSON_parse_distinct];
    the entries [Object.entries] enumerates have distinct keys, for
    objects, arrays and strings alike ([Object_entries_NoDup]). *)

From Stdlib Require Import Ascii NArith.
From stdpp Require Import base option list strings pretty.
From S2P Require Import Prelude JsString Json.

(** ** Definitions *)

(** The objects of a value have distinct keys, at every depth. *)
Fixpoint distinct_keys (v : json) : bool :=
  match v with
  | JArray items => forallb distinct_keys items
  | JObject ms => bool_decide (NoDup ms.*1) && forallb (fun kv => distinct_keys kv.2) ms
  | _ => true
  end.

(** ** Lemmas *)

Lemma replace_member_keys k v ms : (replace_member k v ms).*1 = ms.*1.
Proof.
  induction ms as [|[k' v'] ms IH]; [done|]. cbn [replace_member].
  case_bool_decide; rewrite !fmap_cons; [by subst|by rewrite IH].
Qed.

Lemma insert_index_keys n k v ms : (insert_index n k v ms).*1 ≡ₚ k :: ms.*1.
Proof.
  induction ms as [|[k' v'] ms IH]; [done|]. cbn [insert_index].
  destruct (array_index k') as [n'|]; [|done]. destruct (n' <? n)%N; [|done].
  rewrite !fmap_cons, IH. apply Permutation_swap.
Qed.

Lemma object_define_keys k v ms :
  (object_define k v ms).*1 ≡ₚ if has_key k ms then ms.*1 else k :: ms.*1.
Proof.
  unfold object_define. destruct (has_key k ms); [by rewrite replace_member_keys|].
  destruct (array_index k); [apply insert_index_keys|].
  by rewrite fmap_app, Permutation_app_comm.
Qed.

(** Defining a property keeps the keys distinct. *)
Lemma object_define_NoDup k v ms : NoDup ms.*1 -> NoDup (object_define k v ms).*1.
Proof.
  intros Hnd. rewrite object_define_keys. unfold has_key. case_bool_decide; [done|].
  by apply NoDup_cons.
Qed.

Lemma replace_member_values (P : json -> bool) k v ms :
  P v = true -> forallb (fun kv => P kv.2) ms = true ->
  forallb (fun kv => P kv.2) (replace_member k v ms) = true.
Proof.
  intros Hv. induction ms as [|[k' v'] ms IH]; simpl; [done|].
  intros [H1 H2]%andb_prop. case_bool_decide; simpl; [by rewrite Hv|by rewrite H1, IH].
Qed.

Lemma insert_index_values (P : json -> bool) n k v ms :
  P v = true -> forallb (fun kv => P kv.2) ms = true ->
  forallb (fun kv => P kv.2) (insert_index n k v ms) = true.
Proof.
  intros Hv. induction ms as [|[k' v'] ms IH]; simpl; [by rewrite Hv|].
  intros [H1 H2]%andb_prop.
  destruct (array_index k') as [n'|]; [destruct (n' <? n)%N|]; simpl;
    rewrite ?Hv, ?H1, ?H2, ?IH; done.
Qed.

Lemma object_define_values (P : json -> bool) k v ms :
  P v = true -> forallb (fun kv => P kv.2) ms = true ->
  forallb (fun kv => P kv.2) (object_define k v ms) = true.
Proof.
  intros Hv Hms. unfold object_define. destruct (has_key k ms); [by apply replace_member_values|].
  destruct (array_index k); [by apply insert_index_values|].
  rewrite forallb_app. simpl. by rewrite Hms, Hv.
Qed.

Lemma object_define_distinct k v ms :
  distinct_keys v = true -> distinct_keys (JObject ms) = true ->
  distinct_keys (JObject (object_define k v ms)) = true.
Proof.
  simpl. intros Hv [Hnd%bool_decide_eq_true Hms]%andb_prop. apply andb_true_intro. split.
  - by apply bool_decide_eq_true, object_define_NoDup.
  - by apply object_define_values.
Qed.

(** Every value the parser builds has distinct keys. *)
Lemma parse_distinct f :
  (forall s v r, parse_value f s = Parsed v r -> distinct_keys v = true) /\
  (forall s acc v r, parse_elements f s acc = Parsed v r ->
     distinct_keys (JArray acc) = true -> distinct_keys v = true) /\
  (forall s acc v r, parse_members f s acc = Parsed v r ->
     distinct_keys (JObject acc) = true -> distinct_keys v = true).
Proof.
  induction f as [|f (IHv & IHe & IHm)]; [done|]. split_and!.
  - intros s v r. simpl. destruct (skip_ws s) as [|c s1]; [done|].
    repeat case_bool_decide.
    + destruct (after "}" (skip_ws s1)); [by intros [= <- _]|]. intros Hp. by eapply IHm.
    + destruct (after "]" (skip_ws s1)); [by intros [= <- _]|]. intros Hp. by eapply IHe.
    + by intros (k & _ & ->)%parsed_map_inv.
    + unfold parse_literal. destruct (strip_prefix _ _); [by intros [= <- _]|done].
    + unfold parse_literal. destruct (strip_prefix _ _); [by intros [= <- _]|done].
    + unfold parse_literal. destruct (strip_prefix _ _); [by intros [= <- _]|done].
    + by intros (k & _ & ->)%parsed_map_inv.
  - intros s acc v r. simpl. destruct (parse_value f s) as [x r1| |] eqn:Hx; [|done|done].
    apply IHv in Hx. intros Hp Hacc.
    assert (distinct_keys (JArray (acc ++ [x])) = true) as Hacc'.
    { simpl in *. rewrite forallb_app. simpl. by rewrite Hacc, Hx. }
    destruct (after "," (skip_ws r1)); [by eapply IHe|].
    destruct (after "]" (skip_ws r1)); [by injection Hp as <- _|done].
  - intros s acc v r. simpl. destruct (after quote_char (skip_ws s)) as [s1|]; [|done].
    destruct (parse_string s1) as [k r1| |]; [|done|done].
    destruct (after ":" (skip_ws r1)) as [r2|]; [|done].
    destruct (parse_value f r2) as [x r3| |] eqn:Hx; [|done|done].
    apply IHv in Hx. intros Hp Hacc.
    pose proof (object_define_distinct k x acc Hx Hacc) as Hacc'.
    destruct (after "," (skip_ws r3)); [by eapply IHm|].
    destruct (after "}" (skip_ws r3)); [by injection Hp as <- _|done].
Qed.

Lemma JSON_parse_distinct text v : JSON_parse text = Ok v -> distinct_keys v = true.
Proof.
  unfold JSON_parse. destruct (parse_value _ text) as [v' r| |] eqn:Hp; [|done|done].
  case_bool_decide; [|done]. intros [= <-]. by eapply (proj1 (parse_distinct _)).
Qed.

Lemma indexed_keys {A} (l : list A) : (indexed l).*1 = pretty <$> seq 0 (length l).
Proof. unfold indexed. by rewrite fmap_imap, <- imap_seq_0. Qed.

(** The entries [Object.entries] enumerates have distinct keys. *)
Lemma Object_entries_NoDup v entries :
  distinct_keys v = true -> Object_entries v = Ok entries -> NoDup entries.*1.
Proof.
  destruct v as [|b|l|s|items|ms]; simpl; intros Hv [= <-];
    rewrite ?indexed_keys; try apply NoDup_nil_2;
    try (apply NoDup_fmap_2; [apply _|apply NoDup_seq]).
  by apply andb_prop in Hv as [?%bool_decide_eq_true _].
Qed.
