(* ===== verification/Toolkit.v ===== *)
(** * Toolkit: the state of a run and the calls of the Actions toolkit

    index.ts never touches the outside world directly: it calls
    [@actions/core], [@actions/exec], [@actions/glob], [@actions/cache],
    [fs], [os] and [path] (its imports, lines 1-8).  This file models what
    those calls do to the run:

    - [Event] and [Runner]: the state of the step.  [env] is
      [process.env]; [files] holds the files the step wrote itself;
      [exit_code] is [process.exitCode]; [journal] lists, oldest first,
      every log line, workflow command, file command and external call.
    - [Host]: the outside world.  Its first fields are constants of the
      machine and of the workflow ([platform], [arch], [cwd], [delimiter],
      [path_join], [miseDir], [input]); the others answer the external
      calls, as functions of the arguments and of the [Runner] at the time
      of the call.
    - one action per toolkit call.  A call that can fail records the
      attempt in the journal first and then asks the host for the answer.
      For a process the host gives the exit code (or the error when the
      process cannot be run), and [exec] and [getExecOutput] reject when
      the code is not 0 ([check_exit_code]): index.ts never sets
      [ignoreReturnCode].

    Theorems: the relations [journal_grows], [env_synced], [env_kept],
    [files_kept], [exit_kept], [quiet] and [adds_only] are preorders and
    each toolkit call respects those it should; they are the frame
    conditions the components are proved against.  A call of [exec] or
    [getExecOutput] returns exactly when the process exits with 0. *)

From Stdlib Require Import Ascii ZArith.
From stdpp Require Import base option list strings pretty gmap.
From S2P Require Import Prelude JsString.

(** ** The state of a run *)

(** What a step emits or calls, in the order it does so. *)
Inductive Event : Type :=
| Info (msg : string)                       (* core.info *)
| GroupStart (name : string)                (* ::group:: *)
| GroupEnd                                  (* ::endgroup:: *)
| ErrorCmd (msg : string)                   (* ::error:: *)
| EnvCmd (name value : string)              (* a line of GITHUB_ENV *)
| PathCmd (p : string)                      (* a line of GITHUB_PATH *)
| OutputCmd (name value : string)           (* a line of GITHUB_OUTPUT *)
| StateCmd (name value : string)            (* a line of GITHUB_STATE *)
| WriteFile (path body : string)            (* fs.promises.writeFile *)
| Mkdir (path : string)                     (* fs.promises.mkdir, recursive *)
| Exec (cmd : string) (args : list string)  (* exec.exec *)
| ExecOutputCall (cmd : string) (args : list string) (dir : string)
                                            (* exec.getExecOutput *)
| HashFiles (patterns : string)             (* glob.hashFiles *)
| RestoreCache (paths : list string) (key : string). (* cache.restoreCache *)

#[global] Instance Event_eq_dec : EqDecision Event.
Proof. solve_decision. Defined.

(** The result of [exec.getExecOutput]. *)
Record ExecOutput : Type := mkExecOutput {
  exitCode : Z;
  stdout : string;
  stderr : string
}.

Record Runner : Type := mkRunner {
  env : gmap string string;
  files : gmap string string;
  exit_code : Z;
  journal : list Event
}.

(** The outside world. *)
Record Host : Type := mkHost {
  platform : string;                          (* process.platform *)
  arch : string;                              (* os.arch() *)
  cwd : string;                               (* process.cwd() *)
  delimiter : ascii;                          (* path.delimiter *)
  path_join : string -> string -> string;     (* path.join *)
  miseDir : string;                           (* miseDir() of ./utils *)
  input : string -> string;                   (* the raw value of an input *)
  which : string -> string;                   (* the file a command name resolves to *)
  fs_writeFile : string -> string -> Runner -> res unit;
  fs_mkdir : string -> Runner -> res unit;
  (* the process [exec.exec] runs: its exit code, or the error when it
     cannot be run *)
  exec_exec : string -> list string -> Runner -> res Z;
  (* the process [exec.getExecOutput] runs: its exit code and what it
     printed, or the error when it cannot be run *)
  exec_getExecOutput : string -> list string -> string -> Runner -> res ExecOutput;
  glob_hashFiles : string -> Runner -> res string;
  cache_restoreCache : list string -> string -> Runner -> res (option string)
}.

Definition with_env (f : gmap string string -> gmap string string) (s : Runner) : Runner :=
  {| env := f (env s); files := files s; exit_code := exit_code s; journal := journal s |}.

Definition with_files (f : gmap string string -> gmap string string) (s : Runner) : Runner :=
  {| env := env s; files := f (files s); exit_code := exit_code s; journal := journal s |}.

Definition with_exit_code (c : Z) (s : Runner) : Runner :=
  {| env := env s; files := files s; exit_code := c; journal := journal s |}.

(** The run after it has appended [evs] to its journal. *)
Definition log (evs : list Event) (s : Runner) : Runner :=
  {| env := env s; files := files s; exit_code := exit_code s; journal := journal s ++ evs |}.

Notation "s ⊕ evs" := (log evs s) (at level 50, left associativity).

(** Append an event to the journal. *)
Definition emit (e : Event) : act Runner unit := modify (log [e]).

(** The double quote character, as a string, and the line feed. *)
Definition dquote : string := String "034"%char "".
Definition newline : string := String "010"%char "".

(** [toCommandValue] of a boolean: its JSON text. *)
Definition string_of_bool (b : bool) : string := if b then "true" else "false".

(** [process.env.PATH] inside a template literal: an undefined variable
    prints as [undefined]. *)
Definition env_PATH (s : Runner) : string := default "undefined" (env s !! "PATH").

(** What the environment becomes when a later step (or this process)
    applies one event: only the two file commands for variables and for
    the path change it. *)
Definition apply_event (d : ascii) (e : Event) (m : gmap string string) : gmap string string :=
  match e with
  | EnvCmd k v => <[k := v]> m
  | PathCmd p => <["PATH" := p +:+ String d (default "undefined" (m !! "PATH"))]> m
  | _ => m
  end.

Definition replay (d : ascii) (evs : list Event) (m : gmap string string) : gmap string string :=
  foldl (fun m e => apply_event d e m) m evs.

(** The file commands that change the environment of the later steps. *)
Definition is_env_command (e : Event) : bool :=
  match e with
  | EnvCmd _ _ | PathCmd _ => true
  | _ => false
  end.

Definition env_commands (evs : list Event) : list Event :=
  filter (fun e => is_env_command e = true) evs.

(** The events the run [s'] has appended since it was [s]. *)
Definition new_events (s s' : Runner) : list Event :=
  drop (length (journal s)) (journal s').

(** The external calls among the events, in order. *)
Definition is_call (e : Event) : bool :=
  match e with
  | WriteFile _ _ | Mkdir _ | Exec _ _ | ExecOutputCall _ _ _
  | HashFiles _ | RestoreCache _ _ => true
  | _ => false
  end.

Definition calls (evs : list Event) : list Event := filter (fun e => is_call e = true) evs.

(** ** The toolkit's calls *)

Section Toolkit.
Context (h : Host).

(** [core.getInput(name)]: the raw value, trimmed; the empty string when
    the input is not set. *)
Definition getInput (name : string) : string := trim (input h name).

(** The booleans of YAML 1.2's core schema, in the six spellings
    [getBooleanInput] accepts. *)
Definition parse_boolean (val : string) : option bool :=
  if bool_decide (val ∈ ["true"; "True"; "TRUE"]) then Some true
  else if bool_decide (val ∈ ["false"; "False"; "FALSE"]) then Some false
  else None.

Definition boolean_input_error (name : string) : thrown :=
  JsError "TypeError"
    ("Input does not meet YAML 1.2 " +:+ dquote +:+ "Core Schema" +:+ dquote
     +:+ " specification: " +:+ name +:+ newline
     +:+ "Support boolean input list: `true | True | TRUE | false | False | FALSE`").

(** [core.getBooleanInput(name)]: a [TypeError] for anything but the six
    spellings (an unset input included). *)
Definition getBooleanInput (name : string) : act Runner bool :=
  match parse_boolean (getInput name) with
  | Some b => ret b
  | None => throw (boolean_input_error name)
  end.

Definition info (msg : string) : act Runner unit := emit (Info msg).

Definition startGroup (name : string) : act Runner unit := emit (GroupStart name).

Definition endGroup : act Runner unit := emit GroupEnd.

(** [core.group(name, fn)]: the group is closed in a [finally]. *)
Definition group {A} (name : string) (fn : act Runner A) : act Runner A :=
  startGroup name ;;
  finally fn (log [GroupEnd]).

(** [core.exportVariable(name, val)] for a string [val]. *)
Definition exportVariable (name val : string) : act Runner unit :=
  modify (with_env (insert name val)) ;;
  emit (EnvCmd name val).

(** [core.addPath(p)]: the file command, then
    [process.env.PATH = `${p}${path.delimiter}${process.env.PATH}`]. *)
Definition addPath (p : string) : act Runner unit :=
  emit (PathCmd p) ;;
  modify (fun s => with_env (insert "PATH" (p +:+ String (delimiter h) (env_PATH s))) s).

Definition setOutput (name value : string) : act Runner unit :=
  emit (OutputCmd name value).

Definition saveState (name value : string) : act Runner unit :=
  emit (StateCmd name value).

(** [core.setFailed(message)] *)
Definition setFailed (message : string) : act Runner unit :=
  modify (with_exit_code 1) ;;
  emit (ErrorCmd message).

(** The [Error] with which [@actions/exec] rejects when the process
    exits with a code other than 0. *)
Definition exit_code_error (cmd : string) (code : Z) : thrown :=
  JsError "Error"
    ("The process '" +:+ which h cmd +:+ "' failed with exit code " +:+ pretty code).

(** What [@actions/exec] makes of the outcome of a process.  No call of
    index.ts sets [ignoreReturnCode], so an exit code other than 0 makes
    the call reject. *)
Definition check_exit_code {A} (cmd : string) (code : A -> Z) (r : res A) : res A :=
  match r with
  | Ok a => if bool_decide (code a = 0%Z) then Ok a else Throw (exit_code_error cmd (code a))
  | Throw t => Throw t
  end.

(** What [exec.exec] and [exec.getExecOutput] answer. *)
Definition exec_result (cmd : string) (args : list string) (s : Runner) : res Z :=
  check_exit_code cmd id (exec_exec h cmd args s).

Definition getExecOutput_result (cmd : string) (args : list string) (dir : string)
    (s : Runner) : res ExecOutput :=
  check_exit_code cmd exitCode (exec_getExecOutput h cmd args dir s).

(** [exec.exec(cmd, args)] *)
Definition exec (cmd : string) (args : list string) : act Runner Z :=
  emit (Exec cmd args) ;;
  ask (exec_result cmd args).

(** [exec.getExecOutput(cmd, args, {cwd})] *)
Definition getExecOutput (cmd : string) (args : list string) (dir : string) : act Runner ExecOutput :=
  emit (ExecOutputCall cmd args dir) ;;
  ask (getExecOutput_result cmd args dir).

(** [fs.promises.mkdir(p, {recursive: true})] *)
Definition mkdir (p : string) : act Runner unit :=
  emit (Mkdir p) ;;
  ask (fs_mkdir h p).

(** [fs.promises.writeFile(p, body, {encoding: 'utf8'})]: the file holds
    exactly [body] when the call returns. *)
Definition fsWriteFile (p body : string) : act Runner unit :=
  emit (WriteFile p body) ;;
  ask (fs_writeFile h p body) ;;
  modify (with_files (insert p body)).

(** [glob.hashFiles(patterns)] *)
Definition hashFiles (patterns : string) : act Runner string :=
  emit (HashFiles patterns) ;;
  ask (glob_hashFiles h patterns).

(** [cache.restoreCache(paths, primaryKey)]: the key that was hit, or
    undefined. *)
Definition restoreCache (paths : list string) (key : string) : act Runner (option string) :=
  emit (RestoreCache paths key) ;;
  ask (cache_restoreCache h paths key).

End Toolkit.

(** ** Hosts for examples *)

(** The run at the start of the step. *)
Definition initial_runner (e : gmap string string) : Runner :=
  {| env := e; files := ∅; exit_code := 0; journal := [] |}.

(** A Linux host on which every process exits with 0 and every other
    call succeeds: [mise env --json] prints [env_json], the other
    invocations print a version line, the hash of the configuration files
    is [0f1e2d] and the cache answers [hit]. *)
Definition sample_host (inputs : gmap string string) (env_json : string)
    (hit : option string) : Host :=
  {| platform := "linux";
     arch := "x64";
     cwd := "/work";
     delimiter := ":"%char;
     path_join := fun a b => a +:+ "/" +:+ b;
     miseDir := "/home/runner/.local/share/mise";
     input := fun name => default "" (inputs !! name);
     which := fun cmd => "/usr/bin/" +:+ cmd;
     fs_writeFile := fun _ _ _ => Ok tt;
     fs_mkdir := fun _ _ => Ok tt;
     exec_exec := fun _ _ _ => Ok 0%Z;
     exec_getExecOutput := fun _ args _ _ =>
       Ok {| exitCode := 0;
             stdout := if bool_decide (args = ["env"; "--json"]) then env_json
                       else "mise 2024.1.0";
             stderr := "" |};
     glob_hashFiles := fun _ _ => Ok "0f1e2d";
     cache_restoreCache := fun _ _ _ => Ok hit |}.

(** The same host on another platform. *)
Definition on_platform (p : string) (h : Host) : Host :=
  {| platform := p; arch := arch h; cwd := cwd h; delimiter := delimiter h;
     path_join := path_join h; miseDir := miseDir h; input := input h;
     which := which h;
     fs_writeFile := fs_writeFile h; fs_mkdir := fs_mkdir h;
     exec_exec := exec_exec h; exec_getExecOutput := exec_getExecOutput h;
     glob_hashFiles := glob_hashFiles h;
     cache_restoreCache := cache_restoreCache h |}.

(** The same host, whose file system refuses every write and mkdir. *)
Definition failing_fs (t : thrown) (h : Host) : Host :=
  {| platform := platform h; arch := arch h; cwd := cwd h; delimiter := delimiter h;
     path_join := path_join h; miseDir := miseDir h; input := input h;
     which := which h;
     fs_writeFile := fun _ _ _ => Throw t; fs_mkdir := fun _ _ => Throw t;
     exec_exec := exec_exec h; exec_getExecOutput := exec_getExecOutput h;
     glob_hashFiles := glob_hashFiles h;
     cache_restoreCache := cache_restoreCache h |}.

(** The same host, on which the command [cmd] cannot be run. *)
Definition failing_exec (cmd : string) (t : thrown) (h : Host) : Host :=
  {| platform := platform h; arch := arch h; cwd := cwd h; delimiter := delimiter h;
     path_join := path_join h; miseDir := miseDir h; input := input h;
     which := which h;
     fs_writeFile := fs_writeFile h; fs_mkdir := fs_mkdir h;
     exec_exec := fun c args s =>
       if bool_decide (c = cmd) then Throw t else exec_exec h c args s;
     exec_getExecOutput := exec_getExecOutput h;
     glob_hashFiles := glob_hashFiles h;
     cache_restoreCache := cache_restoreCache h |}.

(** The same host, on which the command [cmd] exits with [code]. *)
Definition exiting (cmd : string) (code : Z) (h : Host) : Host :=
  {| platform := platform h; arch := arch h; cwd := cwd h; delimiter := delimiter h;
     path_join := path_join h; miseDir := miseDir h; input := input h;
     which := which h;
     fs_writeFile := fs_writeFile h; fs_mkdir := fs_mkdir h;
     exec_exec := fun c args s =>
       if bool_decide (c = cmd) then Ok code else exec_exec h c args s;
     exec_getExecOutput := exec_getExecOutput h;
     glob_hashFiles := glob_hashFiles h;
     cache_restoreCache := cache_restoreCache h |}.

(** The same host, on which the process [exec.getExecOutput] runs with
    the argument list [args] ends as [r] says. *)
Definition answering (args : list string) (r : res ExecOutput) (h : Host) : Host :=
  {| platform := platform h; arch := arch h; cwd := cwd h; delimiter := delimiter h;
     path_join := path_join h; miseDir := miseDir h; input := input h;
     which := which h;
     fs_writeFile := fs_writeFile h; fs_mkdir := fs_mkdir h;
     exec_exec := exec_exec h;
     exec_getExecOutput := fun c a d s =>
       if bool_decide (a = args) then r else exec_getExecOutput h c a d s;
     glob_hashFiles := glob_hashFiles h;
     cache_restoreCache := cache_restoreCache h |}.

(** ** Frame relations *)

(** The journal is only appended to. *)
Definition journal_grows : relation Runner :=
  fun s s' => journal s `prefix_of` journal s'.

(** [process.env] changes only through file commands: the new environment
    is the old one with the new events of the journal applied. *)
Definition env_synced (d : ascii) : relation Runner :=
  fun s s' => exists evs,
    journal s' = journal s ++ evs /\ env s' = replay d evs (env s).

(** The files the step wrote are untouched. *)
Definition files_kept : relation Runner := fun s s' => files s' = files s.

(** [process.env] is untouched. *)
Definition env_kept : relation Runner := fun s s' => env s' = env s.

(** The exit code is untouched. *)
Definition exit_kept : relation Runner := fun s s' => exit_code s' = exit_code s.

(** Every event appended satisfies [P]. *)
Definition adds_only (P : Event -> bool) : relation Runner :=
  fun s s' => exists evs, journal s' = journal s ++ evs /\ forallb P evs = true.

(** The events of the Cache Manager: hashing, the cache service, and the
    state saved for the post step. *)
Definition is_cache_event (e : Event) : bool :=
  match e with
  | HashFiles _ | RestoreCache _ _ | StateCmd _ _ => true
  | _ => false
  end.

Definition no_cache_event (e : Event) : bool := negb (is_cache_event e).

(** The error commands: only [core.setFailed] issues one. *)
Definition no_error_event (e : Event) : bool :=
  match e with
  | ErrorCmd _ => false
  | _ => true
  end.

(** The messages of the error commands among the events. *)
Definition error_messages (evs : list Event) : list string :=
  omap (fun e => match e with ErrorCmd m => Some m | _ => None end) evs.

(** No external call is made and no file is written. *)
Definition quiet : relation Runner :=
  fun s s' => exists evs,
    journal s' = journal s ++ evs /\ calls evs = [] /\ files s' = files s.

(** ** Lemmas *)

Lemma replay_app (d : ascii) (evs1 evs2 : list Event) (m : gmap string string) :
  replay d (evs1 ++ evs2) m = replay d evs2 (replay d evs1 m).
Proof. apply foldl_app. Qed.

Lemma calls_app (evs1 evs2 : list Event) : calls (evs1 ++ evs2) = calls evs1 ++ calls evs2.
Proof. apply filter_app. Qed.

#[global] Instance journal_grows_preorder : PreOrder journal_grows.
Proof.
  split; [intros s; by unfold journal_grows|].
  intros s1 s2 s3. unfold journal_grows. by etrans.
Qed.

#[global] Instance env_synced_preorder d : PreOrder (env_synced d).
Proof.
  split.
  - intros s. exists []. by rewrite app_nil_r.
  - intros s1 s2 s3 (evs1 & J1 & E1) (evs2 & J2 & E2). exists (evs1 ++ evs2).
    by rewrite J2, J1, E2, E1, replay_app, app_assoc.
Qed.

#[global] Instance env_kept_preorder : PreOrder env_kept.
Proof. split; unfold env_kept; [done | intros s1 s2 s3; congruence]. Qed.

#[global] Instance files_kept_preorder : PreOrder files_kept.
Proof. split; unfold files_kept; [done | intros s1 s2 s3; congruence]. Qed.

#[global] Instance exit_kept_preorder : PreOrder exit_kept.
Proof. split; unfold exit_kept; [done | intros s1 s2 s3; congruence]. Qed.

#[global] Instance quiet_preorder : PreOrder quiet.
Proof.
  split.
  - intros s. exists []. by rewrite app_nil_r.
  - intros s1 s2 s3 (evs1 & J1 & C1 & F1) (evs2 & J2 & C2 & F2). exists (evs1 ++ evs2).
    by rewrite J2, J1, F2, F1, calls_app, C1, C2, app_assoc.
Qed.

#[global] Instance adds_only_preorder P : PreOrder (adds_only P).
Proof.
  split.
  - intros s. exists []. by rewrite app_nil_r.
  - intros s1 s2 s3 (evs1 & J1 & P1) (evs2 & J2 & P2). exists (evs1 ++ evs2).
    by rewrite J2, J1, forallb_app, P1, P2, app_assoc.
Qed.

Lemma env_synced_journal_grows d s s' : env_synced d s s' -> journal_grows s s'.
Proof. intros (evs & J & _). unfold journal_grows. rewrite J. by apply prefix_app_r. Qed.

Section ToolkitLemmas.
Context (h : Host).

(** *** Normal form of states: updates outside, one [log] inside *)

Lemma log_log evs1 evs2 s : s ⊕ evs1 ⊕ evs2 = s ⊕ (evs1 ++ evs2).
Proof. unfold log. simpl. by rewrite app_assoc. Qed.

Lemma log_nil s : s ⊕ [] = s.
Proof. destruct s. unfold log. simpl. by rewrite app_nil_r. Qed.

Lemma log_with_env f evs s : with_env f s ⊕ evs = with_env f (s ⊕ evs).
Proof. done. Qed.

Lemma log_with_files f evs s : with_files f s ⊕ evs = with_files f (s ⊕ evs).
Proof. done. Qed.

Lemma log_with_exit_code c evs s : with_exit_code c s ⊕ evs = with_exit_code c (s ⊕ evs).
Proof. done. Qed.

Lemma env_PATH_log evs s : env_PATH (s ⊕ evs) = env_PATH s.
Proof. done. Qed.

Lemma new_events_log evs s : new_events s (s ⊕ evs) = evs.
Proof. unfold new_events. simpl. by rewrite drop_app_length. Qed.

Lemma new_events_with_env f s s' : new_events s (with_env f s') = new_events s s'.
Proof. done. Qed.

Lemma new_events_with_files f s s' : new_events s (with_files f s') = new_events s s'.
Proof. done. Qed.

Lemma new_events_with_exit_code c s s' :
  new_events s (with_exit_code c s') = new_events s s'.
Proof. done. Qed.

Lemma new_events_refl s : new_events s s = [].
Proof. unfold new_events. by rewrite drop_all. Qed.

(** The journal of a run that grew is the old journal followed by the
    new events. *)
Lemma journal_new_events s s' :
  journal_grows s s' -> journal s' = journal s ++ new_events s s'.
Proof.
  intros [evs E]. unfold new_events. rewrite E. by rewrite drop_app_length.
Qed.

(** *** The exit code of a process *)

Lemma check_exit_code_zero {A} cmd (code : A -> Z) a :
  code a = 0%Z -> check_exit_code h cmd code (Ok a) = Ok a.
Proof. intros Hc. unfold check_exit_code. by rewrite bool_decide_eq_true_2. Qed.

Lemma check_exit_code_nonzero {A} cmd (code : A -> Z) a :
  code a <> 0%Z ->
  check_exit_code h cmd code (Ok a) = Throw (exit_code_error h cmd (code a)).
Proof. intros Hc. unfold check_exit_code. by rewrite bool_decide_eq_false_2. Qed.

(** A call of [@actions/exec] that returns has seen the exit code 0. *)
Lemma check_exit_code_Ok {A} cmd (code : A -> Z) r a :
  check_exit_code h cmd code r = Ok a -> r = Ok a /\ code a = 0%Z.
Proof.
  destruct r as [a'|t]; [|done]. unfold check_exit_code.
  case_bool_decide; [|done]. by intros [= ->].
Qed.

Lemma exec_result_zero cmd args s :
  exec_exec h cmd args s = Ok 0%Z -> exec_result h cmd args s = Ok 0%Z.
Proof. unfold exec_result. by intros ->. Qed.

Lemma exec_result_nonzero cmd args s code :
  exec_exec h cmd args s = Ok code -> code <> 0%Z ->
  exec_result h cmd args s = Throw (exit_code_error h cmd code).
Proof. unfold exec_result. intros -> Hc. by apply (check_exit_code_nonzero cmd id). Qed.

Lemma exec_result_throw cmd args s t :
  exec_exec h cmd args s = Throw t -> exec_result h cmd args s = Throw t.
Proof. unfold exec_result. by intros ->. Qed.

Lemma getExecOutput_result_zero cmd args dir s out :
  exec_getExecOutput h cmd args dir s = Ok out -> exitCode out = 0%Z ->
  getExecOutput_result h cmd args dir s = Ok out.
Proof. unfold getExecOutput_result. intros ->. apply check_exit_code_zero. Qed.

Lemma getExecOutput_result_nonzero cmd args dir s out :
  exec_getExecOutput h cmd args dir s = Ok out -> exitCode out <> 0%Z ->
  getExecOutput_result h cmd args dir s = Throw (exit_code_error h cmd (exitCode out)).
Proof. unfold getExecOutput_result. intros ->. apply check_exit_code_nonzero. Qed.

Lemma getExecOutput_result_throw cmd args dir s t :
  exec_getExecOutput h cmd args dir s = Throw t ->
  getExecOutput_result h cmd args dir s = Throw t.
Proof. unfold getExecOutput_result. by intros ->. Qed.

Lemma getExecOutput_result_Ok cmd args dir s out :
  getExecOutput_result h cmd args dir s = Ok out ->
  exec_getExecOutput h cmd args dir s = Ok out /\ exitCode out = 0%Z.
Proof. apply check_exit_code_Ok. Qed.

(** *** The journal grows *)

Lemma log_grows evs s : journal_grows s (s ⊕ evs).
Proof. unfold journal_grows. simpl. by apply prefix_app_r. Qed.

Lemma with_env_grows f s : journal_grows s (with_env f s).
Proof. by unfold journal_grows. Qed.

Lemma with_files_grows f s : journal_grows s (with_files f s).
Proof. by unfold journal_grows. Qed.

Lemma with_exit_code_grows c s : journal_grows s (with_exit_code c s).
Proof. by unfold journal_grows. Qed.

(** *** The environment follows the file commands *)

Lemma log_synced d evs s :
  Forall (fun e => forall m, apply_event d e m = m) evs -> env_synced d s (s ⊕ evs).
Proof.
  intros He. exists evs. split; [done|]. simpl. generalize (env s).
  induction He as [|e evs He _ IH]; intros m; simpl; [done|]. by rewrite He.
Qed.

Lemma with_files_synced d f s : env_synced d s (with_files f s).
Proof. exists []. by rewrite app_nil_r. Qed.

Lemma with_exit_code_synced d c s : env_synced d s (with_exit_code c s).
Proof. exists []. by rewrite app_nil_r. Qed.

Lemma exportVariable_synced name val :
  Respects (env_synced (delimiter h)) (exportVariable name val).
Proof. intros s. by exists [EnvCmd name val]. Qed.

Lemma addPath_synced p : Respects (env_synced (delimiter h)) (addPath h p).
Proof. intros s. by exists [PathCmd p]. Qed.

(** *** Files, exit code, external calls *)

Lemma log_env_kept evs s : env_kept s (s ⊕ evs).
Proof. done. Qed.

Lemma with_files_env_kept f s : env_kept s (with_files f s).
Proof. done. Qed.

Lemma with_exit_code_env_kept c s : env_kept s (with_exit_code c s).
Proof. done. Qed.

Lemma log_files_kept evs s : files_kept s (s ⊕ evs).
Proof. done. Qed.

Lemma with_env_files_kept f s : files_kept s (with_env f s).
Proof. done. Qed.

Lemma with_exit_code_files_kept c s : files_kept s (with_exit_code c s).
Proof. done. Qed.

Lemma log_exit_kept evs s : exit_kept s (s ⊕ evs).
Proof. done. Qed.

Lemma with_env_exit_kept f s : exit_kept s (with_env f s).
Proof. done. Qed.

Lemma with_files_exit_kept f s : exit_kept s (with_files f s).
Proof. done. Qed.

Lemma log_adds_only P evs s : forallb P evs = true -> adds_only P s (s ⊕ evs).
Proof. intros He. by exists evs. Qed.

Lemma with_env_adds_only P f s : adds_only P s (with_env f s).
Proof. exists []. by rewrite app_nil_r. Qed.

Lemma with_files_adds_only P f s : adds_only P s (with_files f s).
Proof. exists []. by rewrite app_nil_r. Qed.

Lemma with_exit_code_adds_only P c s : adds_only P s (with_exit_code c s).
Proof. exists []. by rewrite app_nil_r. Qed.

(** What a relation on journals says about the new events. *)
Lemma adds_only_new_events P s s' :
  adds_only P s s' -> forallb P (new_events s s') = true.
Proof. intros (evs & J & HP). unfold new_events. by rewrite J, drop_app_length. Qed.

Lemma error_messages_app evs1 evs2 :
  error_messages (evs1 ++ evs2) = error_messages evs1 ++ error_messages evs2.
Proof. apply omap_app. Qed.

Lemma error_messages_none evs :
  forallb no_error_event evs = true -> error_messages evs = [].
Proof.
  induction evs as [|e evs IH]; [done|]. simpl. intros [He Hevs]%andb_prop.
  unfold error_messages. simpl. destruct e; try done; by apply IH.
Qed.

Lemma quiet_calls s s' : quiet s s' -> calls (new_events s s') = [].
Proof. intros (evs & J & HC & _). unfold new_events. by rewrite J, drop_app_length. Qed.

Lemma new_events_trans s1 s2 s3 :
  journal_grows s1 s2 -> journal_grows s2 s3 ->
  new_events s1 s3 = new_events s1 s2 ++ new_events s2 s3.
Proof.
  intros [evs1 E1] [evs2 E2]. unfold new_events. rewrite E2, E1.
  rewrite <- app_assoc, !drop_app_length.
  by rewrite (app_assoc (journal s1)), drop_app_length.
Qed.

Lemma log_quiet evs s : calls evs = [] -> quiet s (s ⊕ evs).
Proof. intros He. by exists evs. Qed.

Lemma with_env_quiet f s : quiet s (with_env f s).
Proof. exists []. by rewrite app_nil_r. Qed.

Lemma with_exit_code_quiet c s : quiet s (with_exit_code c s).
Proof. exists []. by rewrite app_nil_r. Qed.

End ToolkitLemmas.

#[export] Hint Resolve log_grows with_env_grows with_files_grows
  with_exit_code_grows log_synced with_files_synced with_exit_code_synced
  exportVariable_synced addPath_synced log_env_kept with_files_env_kept
  with_exit_code_env_kept log_files_kept with_env_files_kept
  with_exit_code_files_kept log_exit_kept with_env_exit_kept
  with_files_exit_kept log_quiet with_env_quiet with_exit_code_quiet
  log_adds_only with_env_adds_only with_files_adds_only
  with_exit_code_adds_only : frame.
#[export] Hint Extern 1 (forallb _ _ = true) => reflexivity : frame.
#[export] Hint Extern 1 (Forall _ _) => repeat constructor : frame.
#[export] Hint Extern 1 (calls _ = []) => reflexivity : frame.

#[export] Hint Rewrite log_log log_with_env log_with_files log_with_exit_code
  env_PATH_log new_events_log new_events_with_env new_events_with_files
  new_events_with_exit_code new_events_refl : act.

#[export] Hint Unfold emit getBooleanInput info startGroup endGroup group
  setOutput saveState setFailed exec getExecOutput mkdir fsWriteFile
  hashFiles restoreCache : act.

Create HintDb act_exec discriminated.
#[export] Hint Unfold exportVariable addPath : act_exec.

(** Prove a frame condition of an action built from toolkit calls. *)
Ltac solve_frame := autounfold with act; solve_respects.

(** Run an action symbolically: unfold the toolkit calls, normalise the
    states and use the hypotheses that give the host's answers. *)
Ltac act_norm :=
  autounfold with act act_exec in *; act_unfold; simpl in *;
  autorewrite with act in *; simpl in *.

Ltac act_answer :=
  match goal with
  | H : ?o = _ |- context [?o] => rewrite H
  end.

Ltac act_run := act_norm; repeat (act_answer; act_norm).

(** Case analysis on the next answer of the host the goal depends on. *)
Ltac act_case :=
  match goal with
  | |- context [match ?o with Ok _ => _ | Throw _ => _ end] =>
      let E := fresh "E" in destruct o as [[]|?] eqn:E
  | |- context [match ?o with Ok _ => _ | Throw _ => _ end] =>
      let E := fresh "E" in destruct o eqn:E
  end.
