(* ===== verification/Platform.v ===== *)
(** * Platform: the operating-system token (index.ts, [getOS])

    [getOS] names the platform in download URLs and cache keys: [macos]
    for Node's [darwin], and the platform identifier itself otherwise.

    Theorems: the two branches of the switch, that the token is never
    [darwin], and that [getOS] is the identity exactly off [darwin]. *)

From stdpp Require Import base strings.
From S2P Require Import Prelude JsString Toolkit.

(** ** Definitions *)

Section Platform.
Context (h : Host).

(** [switch (process.platform) { case 'darwin': return 'macos'; default: return process.platform }] *)
Definition getOS : string :=
  if String.eqb (platform h) "darwin" then "macos" else platform h.

End Platform.

(** ** Lemmas *)

Lemma getOS_cases (h : Host) :
  (platform h = "darwin" /\ getOS h = "macos") \/
  (platform h <> "darwin" /\ getOS h = platform h).
Proof.
  unfold getOS. destruct (String.eqb_spec (platform h) "darwin"); auto.
Qed.

Lemma getOS_not_darwin (h : Host) : getOS h <> "darwin".
Proof. destruct (getOS_cases h) as [[_ ->]|[? ->]]; done. Qed.

(** ** Theorems *)

(** On every platform other than [darwin], the token [getOS] returns
    is the platform identifier itself, unchanged. *)
Lemma getOS_passthrough (h : Host) :
  platform h <> "darwin" -> getOS h = platform h.
Proof. intros H. by destruct (getOS_cases h) as [[? _]|[_ ?]]. Qed.

(** On [darwin] the token is [macos], and [getOS] never returns
    [darwin] on any platform. *)
Lemma getOS_darwin (h : Host) :
  (platform h = "darwin" -> getOS h = "macos") /\ getOS h <> "darwin".
Proof.
  split; [|apply getOS_not_darwin].
  intros H. by destruct (getOS_cases h) as [[_ ?]|[? _]].
Qed.

(** ** Witnesses *)

Example getOS_passthrough_sample :
  getOS (on_platform "win32" (sample_host ∅ "{}" None)) = "win32".
Proof. apply getOS_passthrough. discriminate. Qed.

Example getOS_darwin_sample :
  getOS (on_platform "darwin" (sample_host ∅ "{}" None)) = "macos".
Proof. apply getOS_darwin. reflexivity. Qed.
