(* ===== verification/ConfigWriter.v ===== *)
(** * ConfigWriter: [writeFile], [setToolVersions], [setMiseToml]

    The first stage of the run writes [.tool-versions] and [.mise.toml]
    from the inputs [tool_versions] and [mise_toml], each only when the
    input (as [core.getInput] returns it, that is trimmed) is not empty.

    Theorems: an input that is empty or all white space leaves the run
    untouched ([setToolVersions_skips_blank]); a non-empty one is
    written inside a closed log group and the file then holds the value
    [getInput] returned; a failing write throws after closing the group
    and leaves the files as they were; the stage never touches the
    environment or the exit code. *)

From stdpp Require Import base option list strings gmap.
From S2P Require Import Prelude JsString Toolkit.

(** ** Definitions *)

Section ConfigWriter.
Context (h : Host).

(** [writeFile(p, body)]: log the body and write it, inside a group. *)
Definition writeFile (p body : string) : act Runner unit :=
  group ("Writing " +:+ p)
    (info ("Body:" +:+ newline +:+ body) ;;
     fsWriteFile h p body).

Definition setToolVersions : act Runner unit :=
  let toolVersions := getInput h "tool_versions" in
  if truthy toolVersions then writeFile ".tool-versions" toolVersions
  else ret tt.

Definition setMiseToml : act Runner unit :=
  let toml := getInput h "mise_toml" in
  if truthy toml then writeFile ".mise.toml" toml
  else ret tt.

End ConfigWriter.

#[export] Hint Unfold writeFile setToolVersions setMiseToml : act.

(** ** Lemmas *)

Section ConfigWriterLemmas.
Context (h : Host).

(** The events of a [writeFile] up to the call of the file system. *)
Definition writeFile_events (p body : string) : list Event :=
  [GroupStart ("Writing " +:+ p); Info ("Body:" +:+ newline +:+ body); WriteFile p body].

Lemma writeFile_ok p body s :
  fs_writeFile h p body (s ⊕ writeFile_events p body) = Ok tt ->
  writeFile h p body s =
    (Ok tt, with_files (insert p body) (s ⊕ (writeFile_events p body ++ [GroupEnd]))).
Proof. unfold writeFile_events. intros H. by act_run. Qed.

Lemma writeFile_throws p body s t :
  fs_writeFile h p body (s ⊕ writeFile_events p body) = Throw t ->
  writeFile h p body s = (Throw t, s ⊕ (writeFile_events p body ++ [GroupEnd])).
Proof. unfold writeFile_events. intros H. by act_run. Qed.

(** [writeFile] returns only when the write succeeded. *)
Lemma writeFile_returns p body s s' :
  writeFile h p body s = (Ok tt, s') ->
  s' = with_files (insert p body) (s ⊕ (writeFile_events p body ++ [GroupEnd])).
Proof.
  destruct (fs_writeFile h p body (s ⊕ writeFile_events p body)) as [[]|t] eqn:E.
  - rewrite (writeFile_ok _ _ _ E). by intros [= <-].
  - by rewrite (writeFile_throws _ _ _ _ E).
Qed.

Lemma writeFile_grows p body : Respects journal_grows (writeFile h p body).
Proof. solve_frame. Qed.

Lemma writeFile_synced p body : Respects (env_synced (delimiter h)) (writeFile h p body).
Proof. solve_frame. Qed.

Lemma writeFile_exit_kept p body : Respects exit_kept (writeFile h p body).
Proof. solve_frame. Qed.

Lemma setToolVersions_grows : Respects journal_grows (setToolVersions h).
Proof. solve_frame. Qed.

Lemma setToolVersions_synced : Respects (env_synced (delimiter h)) (setToolVersions h).
Proof. solve_frame. Qed.

Lemma setToolVersions_exit_kept : Respects exit_kept (setToolVersions h).
Proof. solve_frame. Qed.

Lemma setMiseToml_grows : Respects journal_grows (setMiseToml h).
Proof. solve_frame. Qed.

Lemma setMiseToml_synced : Respects (env_synced (delimiter h)) (setMiseToml h).
Proof. solve_frame. Qed.

Lemma setMiseToml_exit_kept : Respects exit_kept (setMiseToml h).
Proof. solve_frame. Qed.

(** ** Theorems *)

(** C34: [setToolVersions] does nothing at all (no log line, no call, no
    file) when its input is empty or consists of white space only, the
    white space of more than one byte included (a no-break space, a byte
    order mark), since [core.getInput] trims the value before the test
    [if (toolVersions)]. *)
Theorem setToolVersions_skips_blank s :
  all_white_space (input h "tool_versions") = true ->
  setToolVersions h s = (Ok tt, s).
Proof.
  intros Hw. unfold setToolVersions, getInput.
  by rewrite (proj2 (trim_empty_iff _) Hw).
Qed.

(** C33: when the input is not blank and the write succeeds,
    [setToolVersions] writes [.tool-versions] inside a closed log group
    and the file then holds the trimmed input; nothing else of the run
    changes. *)
Theorem setToolVersions_writes s :
  let body := trim (input h "tool_versions") in
  all_white_space (input h "tool_versions") = false ->
  fs_writeFile h ".tool-versions" body (s ⊕ writeFile_events ".tool-versions" body) = Ok tt ->
  setToolVersions h s =
    (Ok tt, with_files (insert ".tool-versions" body)
              (s ⊕ (writeFile_events ".tool-versions" body ++ [GroupEnd]))).
Proof.
  intros body Hw Hfs. unfold setToolVersions, getInput. fold body.
  assert (truthy body = true) as ->.
  { apply truthy_true. intros E. apply trim_empty_iff in E. congruence. }
  by apply writeFile_ok.
Qed.

(** [setMiseToml] behaves like [setToolVersions] on the input
    [mise_toml] and the file [.mise.toml]: skipped on a blank input,
    written with the trimmed input otherwise. *)
Lemma setMiseToml_spec s :
  let body := trim (input h "mise_toml") in
  setMiseToml h s =
    if all_white_space (input h "mise_toml") then (Ok tt, s)
    else writeFile h ".mise.toml" body s.
Proof.
  intros body. subst body. unfold setMiseToml, getInput.
  destruct (all_white_space _) eqn:Hw.
  - by rewrite (proj2 (trim_empty_iff _) Hw).
  - assert (truthy (trim (input h "mise_toml")) = true) as ->; [|done].
    apply truthy_true. intros E. apply trim_empty_iff in E. congruence.
Qed.

(** C35: a write that fails makes [writeFile] throw the file system's
    error after closing its log group, and the files of the run are as
    they were. *)
Theorem writeFile_failure_closes_group p body s t :
  fs_writeFile h p body (s ⊕ writeFile_events p body) = Throw t ->
  let s' := state_of (writeFile h p body) s in
  result_of (writeFile h p body) s = Throw t /\
  files s' = files s /\ env s' = env s /\
  last (journal s') = Some GroupEnd.
Proof.
  intros H s'. subst s'. unfold result_of, state_of.
  rewrite (writeFile_throws _ _ _ _ H). simpl.
  repeat split. by rewrite last_app.
Qed.

End ConfigWriterLemmas.

#[export] Hint Resolve setToolVersions_grows setToolVersions_synced
  setToolVersions_exit_kept setMiseToml_grows setMiseToml_synced
  setMiseToml_exit_kept : frame.


(** ** Witnesses *)

Lemma setToolVersions_skips_blank_witness :
  let h := sample_host {[ "tool_versions" := " " +:+ nbsp +:+ newline +:+ byte_order_mark ]}
             "{}" None in
  setToolVersions h (initial_runner ∅) = (Ok tt, initial_runner ∅).
Proof. intros h. apply (setToolVersions_skips_blank h). by vm_compute. Defined.

Lemma setToolVersions_writes_witness :
  let h := sample_host {[ "tool_versions" := "node 20" +:+ newline ]} "{}" None in
  files (state_of (setToolVersions h) (initial_runner ∅)) !! ".tool-versions" = Some "node 20".
Proof.
  intros h. unfold state_of.
  rewrite (setToolVersions_writes h (initial_runner ∅)); reflexivity.
Defined.

Lemma writeFile_failure_closes_group_witness :
  let h := failing_fs (JsError "Error" "EACCES") (sample_host ∅ "{}" None) in
  result_of (writeFile h ".mise.toml" "x") (initial_runner ∅) = Throw (JsError "Error" "EACCES").
Proof.
  intros h.
  apply (writeFile_failure_closes_group h ".mise.toml" "x" (initial_runner ∅)).
  reflexivity.
Defined.
