(* ===== verification/Installer.v ===== *)
(** * Installer: [setupMise]

    Downloads the binary for the platform into [<miseDir>/bin/mise] with
    curl, marks it executable with chmod and puts [<miseDir>/bin] on PATH.

    Theorems: the shape of the download URL in both variants; the
    behaviour of [setupMise] when every call succeeds and when [mkdir]
    throws or curl or chmod cannot be run or exits with a code other than
    0 (nothing after the failing call happens and the environment is
    untouched); the order of its external calls on every branch. *)

From Stdlib Require Import ZArith.
From stdpp Require Import base option list strings gmap.
From S2P Require Import Prelude JsString Toolkit Platform.

(** ** Definitions *)

Section Installer.
Context (h : Host).

(** [path.join(miseDir(), 'bin')] *)
Definition miseBinDir : string := path_join h (miseDir h) "bin".

(** [path.join(miseBinDir, 'mise')] *)
Definition miseBin : string := path_join h miseBinDir "mise".

(** The title of the log group. *)
Definition setup_title (version : string) : string :=
  if truthy version then "Setup mise@" +:+ version else "Setup mise".

(** The download URL: the versioned one when a version is given, the
    latest one otherwise. *)
Definition download_url (version : string) : string :=
  if truthy version
  then "https://mise.jdx.dev/v" +:+ version +:+ "/mise-v" +:+ version +:+ "-"
       +:+ getOS h +:+ "-" +:+ arch h
  else "https://mise.jdx.dev/mise-latest-" +:+ getOS h +:+ "-" +:+ arch h.

Definition curl_args (version : string) : list string :=
  ["-fsSL"; download_url version; "--output"; miseBin].

Definition chmod_args : list string := ["+x"; miseBin].

Definition setupMise (version : string) : act Runner unit :=
  startGroup (setup_title version) ;;
  mkdir h miseBinDir ;;
  exec h "curl" (curl_args version) ;;
  exec h "chmod" chmod_args ;;
  addPath h miseBinDir.

(** The external calls of [setupMise], in order. *)
Definition setup_calls (version : string) : list Event :=
  [Mkdir miseBinDir; Exec "curl" (curl_args version); Exec "chmod" chmod_args].

(** The journal of [setupMise] up to each of its calls. *)
Definition setup_to_mkdir (version : string) : list Event :=
  [GroupStart (setup_title version); Mkdir miseBinDir].

Definition setup_to_curl (version : string) : list Event :=
  setup_to_mkdir version ++ [Exec "curl" (curl_args version)].

Definition setup_to_chmod (version : string) : list Event :=
  setup_to_curl version ++ [Exec "chmod" chmod_args].

End Installer.

#[export] Hint Unfold setupMise : act.

(** ** Lemmas *)

Section InstallerLemmas.
Context (h : Host).

Lemma setupMise_grows v : Respects journal_grows (setupMise h v).
Proof. solve_frame. Qed.

Lemma setupMise_synced v : Respects (env_synced (delimiter h)) (setupMise h v).
Proof. solve_frame. Qed.

Lemma setupMise_files_kept v : Respects files_kept (setupMise h v).
Proof. solve_frame. Qed.

Lemma setupMise_exit_kept v : Respects exit_kept (setupMise h v).
Proof. solve_frame. Qed.

Lemma setupMise_ok v s c1 c2 :
  fs_mkdir h (miseBinDir h) (s ⊕ setup_to_mkdir h v) = Ok tt ->
  exec_result h "curl" (curl_args h v) (s ⊕ setup_to_curl h v) = Ok c1 ->
  exec_result h "chmod" (chmod_args h) (s ⊕ setup_to_chmod h v) = Ok c2 ->
  setupMise h v s =
    (Ok tt,
     with_env (insert "PATH" (miseBinDir h +:+ String (delimiter h) (env_PATH s)))
       (s ⊕ (setup_to_chmod h v ++ [PathCmd (miseBinDir h)]))).
Proof.
  unfold setup_to_chmod, setup_to_curl, setup_to_mkdir. intros H1 H2 H3. by act_run.
Qed.

Lemma setupMise_mkdir_throws v s t :
  fs_mkdir h (miseBinDir h) (s ⊕ setup_to_mkdir h v) = Throw t ->
  setupMise h v s = (Throw t, s ⊕ setup_to_mkdir h v).
Proof. unfold setup_to_mkdir. intros H1. by act_run. Qed.

Lemma setupMise_curl_throws v s t :
  fs_mkdir h (miseBinDir h) (s ⊕ setup_to_mkdir h v) = Ok tt ->
  exec_result h "curl" (curl_args h v) (s ⊕ setup_to_curl h v) = Throw t ->
  setupMise h v s = (Throw t, s ⊕ setup_to_curl h v).
Proof. unfold setup_to_curl, setup_to_mkdir. intros H1 H2. by act_run. Qed.

Lemma setupMise_chmod_throws v s t c1 :
  fs_mkdir h (miseBinDir h) (s ⊕ setup_to_mkdir h v) = Ok tt ->
  exec_result h "curl" (curl_args h v) (s ⊕ setup_to_curl h v) = Ok c1 ->
  exec_result h "chmod" (chmod_args h) (s ⊕ setup_to_chmod h v) = Throw t ->
  setupMise h v s = (Throw t, s ⊕ setup_to_chmod h v).
Proof.
  unfold setup_to_chmod, setup_to_curl, setup_to_mkdir. intros H1 H2 H3. by act_run.
Qed.

(** The four ways [setupMise] can end. *)
Lemma setupMise_cases v s :
  (exists t, setupMise h v s = (Throw t, s ⊕ setup_to_mkdir h v)) \/
  (exists t, setupMise h v s = (Throw t, s ⊕ setup_to_curl h v)) \/
  (exists t, setupMise h v s = (Throw t, s ⊕ setup_to_chmod h v)) \/
  setupMise h v s =
    (Ok tt,
     with_env (insert "PATH" (miseBinDir h +:+ String (delimiter h) (env_PATH s)))
       (s ⊕ (setup_to_chmod h v ++ [PathCmd (miseBinDir h)]))).
Proof.
  destruct (fs_mkdir h (miseBinDir h) (s ⊕ setup_to_mkdir h v)) as [[]|t] eqn:H1;
    [|left; eauto using setupMise_mkdir_throws].
  destruct (exec_result h "curl" (curl_args h v) (s ⊕ setup_to_curl h v)) as [c1|t] eqn:H2;
    [|right; left; eauto using setupMise_curl_throws].
  destruct (exec_result h "chmod" (chmod_args h) (s ⊕ setup_to_chmod h v)) as [c2|t] eqn:H3;
    [|right; right; left; eauto using setupMise_chmod_throws].
  right; right; right. eauto using setupMise_ok.
Qed.

(** ** Theorems *)

(** With a version, the download URL is
    [https://mise.jdx.dev/v<version>/mise-v<version>-<os>-<arch>]; with an
    empty version it is [https://mise.jdx.dev/mise-latest-<os>-<arch>];
    [<os>] is the token of [getOS]. *)
Lemma download_url_shape v :
  download_url h v =
    if decide (v = "")
    then "https://mise.jdx.dev/mise-latest-" +:+ getOS h +:+ "-" +:+ arch h
    else "https://mise.jdx.dev/v" +:+ v +:+ "/mise-v" +:+ v +:+ "-" +:+ getOS h
         +:+ "-" +:+ arch h.
Proof.
  unfold download_url. case_decide as Hv.
  - by rewrite (proj2 (truthy_false v) Hv).
  - by rewrite (proj2 (truthy_true v) Hv).
Qed.

(** C10: when mkdir succeeds and curl and chmod exit with 0, [setupMise]
    has made exactly these three calls in this order, and the only change
    to the environment is that [<miseDir>/bin] is put in front of PATH. *)
Theorem setupMise_installs v s :
  fs_mkdir h (miseBinDir h) (s ⊕ setup_to_mkdir h v) = Ok tt ->
  exec_exec h "curl" (curl_args h v) (s ⊕ setup_to_curl h v) = Ok 0%Z ->
  exec_exec h "chmod" (chmod_args h) (s ⊕ setup_to_chmod h v) = Ok 0%Z ->
  let s' := state_of (setupMise h v) s in
  result_of (setupMise h v) s = Ok tt /\
  env s' = <["PATH" := miseBinDir h +:+ String (delimiter h) (env_PATH s)]> (env s) /\
  journal s' = journal s ++ setup_to_chmod h v ++ [PathCmd (miseBinDir h)] /\
  calls (setup_to_chmod h v ++ [PathCmd (miseBinDir h)]) = setup_calls h v.
Proof.
  intros H1 H2%exec_result_zero H3%exec_result_zero s'. subst s'.
  unfold result_of, state_of. by rewrite (setupMise_ok _ _ _ _ H1 H2 H3).
Qed.

(** C30: when curl exits with a code other than 0, [setupMise] throws
    the [Error] of [exec.exec] that names the exit code, chmod is never
    run and neither PATH nor any other variable has changed. *)
Theorem setupMise_download_fails v s code :
  fs_mkdir h (miseBinDir h) (s ⊕ setup_to_mkdir h v) = Ok tt ->
  exec_exec h "curl" (curl_args h v) (s ⊕ setup_to_curl h v) = Ok code ->
  code <> 0%Z ->
  let s' := state_of (setupMise h v) s in
  result_of (setupMise h v) s = Throw (exit_code_error h "curl" code) /\
  env s' = env s /\
  Exec "chmod" (chmod_args h) ∉ drop (length (journal s)) (journal s').
Proof.
  intros H1 H2 Hcode s'. subst s'. unfold result_of, state_of.
  rewrite (setupMise_curl_throws _ _ _ H1 (exec_result_nonzero h _ _ _ _ H2 Hcode)). simpl.
  repeat split. rewrite drop_app_length.
  unfold setup_to_curl, setup_to_mkdir. simpl.
  rewrite !elem_of_cons, elem_of_nil. intros [?|[?|[?|[]]]]; discriminate.
Qed.

(** On every branch, the external calls of [setupMise] are an initial
    segment of mkdir, curl, chmod; when it throws the environment is
    unchanged, and when it returns all three calls were made. *)
Lemma setupMise_calls_in_order v s :
  let s' := state_of (setupMise h v) s in
  exists evs,
    journal s' = journal s ++ evs /\
    calls evs `prefix_of` setup_calls h v /\
    match result_of (setupMise h v) s with
    | Ok _ => calls evs = setup_calls h v
    | Throw _ => env s' = env s
    end.
Proof.
  intros s'. subst s'. unfold result_of, state_of.
  destruct (setupMise_cases v s) as [[t ->]|[[t ->]|[[t ->]| -> ]]]; simpl;
    eexists; (split; [reflexivity|]); (split; [|done]).
  - by exists [Exec "curl" (curl_args h v); Exec "chmod" (chmod_args h)].
  - by exists [Exec "chmod" (chmod_args h)].
  - done.
  - done.
Qed.

End InstallerLemmas.

#[export] Hint Resolve setupMise_grows setupMise_synced setupMise_files_kept
  setupMise_exit_kept : frame.


(** ** Witnesses *)

Lemma setupMise_installs_witness :
  let h := sample_host ∅ "{}" None in
  env (state_of (setupMise h "2024.1.0") (initial_runner {[ "PATH" := "/usr/bin" ]})) !! "PATH"
  = Some "/home/runner/.local/share/mise/bin:/usr/bin".
Proof.
  intros h.
  destruct (setupMise_installs h "2024.1.0" (initial_runner {[ "PATH" := "/usr/bin" ]}))
    as (_ & -> & _); reflexivity.
Defined.

Lemma setupMise_download_fails_witness :
  let h := exiting "curl" 22 (sample_host ∅ "{}" None) in
  result_of (setupMise h "") (initial_runner ∅) =
    Throw (JsError "Error" "The process '/usr/bin/curl' failed with exit code 22").
Proof.
  intros h.
  apply (setupMise_download_fails h "" (initial_runner ∅) 22); done.
Defined.
