(* ===== verification/Cache.v ===== *)
(** * Cache: [restoreMiseCache]

    Hashes the configuration files, builds the primary key
    [<prefix>-<os>-<arch>-<hash>], saves the run-scoped state the post
    step reads ([CACHE], [PRIMARY_KEY], [MISE_DIR]), restores the cache and
    reports [cache-hit]; on a hit it also saves [CACHE_KEY].

    Theorems: the key is injective in the hash; the behaviour of
    [restoreMiseCache] on a hit, on a miss and when [cache_save] is not a
    boolean; the saved [CACHE] flag is always the [cache_save] input
    itself (the [?? true] fallback of the source never applies). *)

From stdpp Require Import base option list strings gmap.
From S2P Require Import Prelude JsString Toolkit Platform.

(** ** Definitions *)

(** The glob patterns of the configuration files, one per line. *)
Definition cache_patterns : string :=
  join_with newline
    [ "**/.config/mise/config.toml";
      "**/.mise.*.toml";
      "**/.mise.toml";
      "**/.mise/config.toml";
      "**/.tool-versions" ].

(** [`${prefix}-${getOS()}-${os.arch()}-${fileHash}`] *)
Definition primaryKey (prefix os arch fileHash : string) : string :=
  prefix +:+ "-" +:+ os +:+ "-" +:+ arch +:+ "-" +:+ fileHash.

Section Cache.
Context (h : Host).

(** [core.getInput('cache_key_prefix') || 'mise-v0'] *)
Definition cache_prefix : string := or_else (getInput h "cache_key_prefix") "mise-v0".

(** The primary key of this host for a given hash. *)
Definition cache_key (fileHash : string) : string :=
  primaryKey cache_prefix (getOS h) (arch h) fileHash.

Definition restoreMiseCache : act Runner unit :=
  startGroup "Restoring mise cache" ;;
  let cachePath := miseDir h in
  fileHash <- hashFiles h cache_patterns ;;
  let key := cache_key fileHash in
  cache_save <- getBooleanInput h "cache_save" ;;
  saveState "CACHE" (string_of_bool (nullish (Some cache_save) true)) ;;
  saveState "PRIMARY_KEY" key ;;
  saveState "MISE_DIR" cachePath ;;
  cacheKey <- restoreCache h [cachePath] key ;;
  setOutput "cache-hit" (string_of_bool (truthy_opt cacheKey)) ;;
  if negb (truthy_opt cacheKey)
  then info ("mise cache not found for " +:+ key)
  else
    saveState "CACHE_KEY" (default "" cacheKey) ;;
    info ("mise cache restored from key: " +:+ default "" cacheKey).

(** The journal of [restoreMiseCache] up to the hashing of the files. *)
Definition cache_to_hash : list Event :=
  [GroupStart "Restoring mise cache"; HashFiles cache_patterns].

(** ... and from there up to the call of the cache service. *)
Definition cache_to_restore (save : bool) (fileHash : string) : list Event :=
  cache_to_hash ++
  [ StateCmd "CACHE" (string_of_bool save);
    StateCmd "PRIMARY_KEY" (cache_key fileHash);
    StateCmd "MISE_DIR" (miseDir h);
    RestoreCache [miseDir h] (cache_key fileHash) ].

End Cache.

#[export] Hint Unfold restoreMiseCache : act.

(** ** Lemmas *)

Lemma primaryKey_inj_hash prefix os arch h1 h2 :
  primaryKey prefix os arch h1 = primaryKey prefix os arch h2 -> h1 = h2.
Proof. unfold primaryKey. intros H. by repeat apply string_app_inv_head in H. Qed.

Section CacheLemmas.
Context (h : Host).

Lemma restoreMiseCache_grows : Respects journal_grows (restoreMiseCache h).
Proof. solve_frame. Qed.

Lemma restoreMiseCache_synced : Respects (env_synced (delimiter h)) (restoreMiseCache h).
Proof. solve_frame. Qed.

Lemma restoreMiseCache_files_kept : Respects files_kept (restoreMiseCache h).
Proof. solve_frame. Qed.

Lemma restoreMiseCache_exit_kept : Respects exit_kept (restoreMiseCache h).
Proof. solve_frame. Qed.

Lemma restoreMiseCache_hit_eq s fh save k :
  glob_hashFiles h cache_patterns (s ⊕ cache_to_hash) = Ok fh ->
  parse_boolean (getInput h "cache_save") = Some save ->
  cache_restoreCache h [miseDir h] (cache_key h fh) (s ⊕ cache_to_restore h save fh) = Ok (Some k) ->
  truthy k = true ->
  restoreMiseCache h s =
    (Ok tt, s ⊕ (cache_to_restore h save fh ++
                 [ OutputCmd "cache-hit" "true"; StateCmd "CACHE_KEY" k;
                   Info ("mise cache restored from key: " +:+ k) ])).
Proof.
  unfold cache_to_restore, cache_to_hash. intros H1 H2 H3 H4. by act_run.
Qed.

Lemma restoreMiseCache_miss_eq s fh save o :
  glob_hashFiles h cache_patterns (s ⊕ cache_to_hash) = Ok fh ->
  parse_boolean (getInput h "cache_save") = Some save ->
  cache_restoreCache h [miseDir h] (cache_key h fh) (s ⊕ cache_to_restore h save fh) = Ok o ->
  truthy_opt o = false ->
  restoreMiseCache h s =
    (Ok tt, s ⊕ (cache_to_restore h save fh ++
                 [ OutputCmd "cache-hit" "false";
                   Info ("mise cache not found for " +:+ cache_key h fh) ])).
Proof.
  unfold cache_to_restore, cache_to_hash. intros H1 H2 H3 H4. by act_run.
Qed.

Lemma restoreMiseCache_restore_throws s fh save t :
  glob_hashFiles h cache_patterns (s ⊕ cache_to_hash) = Ok fh ->
  parse_boolean (getInput h "cache_save") = Some save ->
  cache_restoreCache h [miseDir h] (cache_key h fh) (s ⊕ cache_to_restore h save fh) = Throw t ->
  restoreMiseCache h s = (Throw t, s ⊕ cache_to_restore h save fh).
Proof.
  unfold cache_to_restore, cache_to_hash. intros H1 H2 H3. by act_run.
Qed.

Lemma restoreMiseCache_bad_flag s fh :
  glob_hashFiles h cache_patterns (s ⊕ cache_to_hash) = Ok fh ->
  parse_boolean (getInput h "cache_save") = None ->
  restoreMiseCache h s = (Throw (boolean_input_error "cache_save"), s ⊕ cache_to_hash).
Proof. unfold cache_to_hash. intros H1 H2. by act_run. Qed.

Lemma restoreMiseCache_hash_throws s t :
  glob_hashFiles h cache_patterns (s ⊕ cache_to_hash) = Throw t ->
  restoreMiseCache h s = (Throw t, s ⊕ cache_to_hash).
Proof. unfold cache_to_hash. intros H1. by act_run. Qed.

(** The ways [restoreMiseCache] can end: it stops at the hashing (the
    hash throws, or [cache_save] is not a boolean), at the cache service,
    or it returns after [tail], the events that follow the restore. *)
Lemma restoreMiseCache_cases s :
  (exists t, restoreMiseCache h s = (Throw t, s ⊕ cache_to_hash)) \/
  (exists save fh,
     parse_boolean (getInput h "cache_save") = Some save /\
     ((exists t, restoreMiseCache h s = (Throw t, s ⊕ cache_to_restore h save fh)) \/
      (exists hit tail,
         restoreMiseCache h s =
           (Ok tt, s ⊕ (cache_to_restore h save fh ++
                        OutputCmd "cache-hit" (string_of_bool hit) :: tail)) /\
         Forall (fun e => exists k, e = StateCmd "CACHE_KEY" k \/ e = Info k) tail))).
Proof.
  destruct (glob_hashFiles h cache_patterns (s ⊕ cache_to_hash)) as [fh|t] eqn:H1;
    [|left; eauto using restoreMiseCache_hash_throws].
  destruct (parse_boolean (getInput h "cache_save")) as [save|] eqn:H2;
    [|left; eauto using restoreMiseCache_bad_flag].
  right. exists save, fh. split; [done|].
  destruct (cache_restoreCache h [miseDir h] (cache_key h fh) (s ⊕ cache_to_restore h save fh))
    as [o|t] eqn:H3; [|left; eauto using restoreMiseCache_restore_throws].
  right. destruct (truthy_opt o) eqn:H4.
  - destruct o as [k|]; [|done]. exists true. eexists. split.
    + by apply restoreMiseCache_hit_eq.
    + repeat constructor; eauto.
  - exists false. eexists. split.
    + by eapply restoreMiseCache_miss_eq.
    + repeat constructor; eauto.
Qed.

(** ** Theorems *)

(** C9: two primary keys built from the same prefix, platform and
    architecture are equal only if the hashes of the configuration files
    are equal: a change of the hash always changes the key. *)
Theorem cache_key_injective fh1 fh2 :
  fh1 <> fh2 -> cache_key h fh1 <> cache_key h fh2.
Proof. intros Hne E. by apply Hne, (primaryKey_inj_hash _ _ _ _ _ E). Qed.

(** C7: on a cache hit (the service returns a non-empty key),
    [restoreMiseCache] saves [CACHE], [PRIMARY_KEY] and [MISE_DIR], calls
    the cache service once with the data directory and the primary key,
    sets the output [cache-hit] to [true] and saves the key that was hit
    as [CACHE_KEY]; environment and files are unchanged. *)
Theorem restoreMiseCache_hit s fh save k :
  glob_hashFiles h cache_patterns (s ⊕ cache_to_hash) = Ok fh ->
  parse_boolean (getInput h "cache_save") = Some save ->
  cache_restoreCache h [miseDir h] (cache_key h fh) (s ⊕ cache_to_restore h save fh) = Ok (Some k) ->
  k <> "" ->
  let s' := state_of (restoreMiseCache h) s in
  result_of (restoreMiseCache h) s = Ok tt /\
  new_events s s' =
    [ GroupStart "Restoring mise cache"; HashFiles cache_patterns;
      StateCmd "CACHE" (string_of_bool save);
      StateCmd "PRIMARY_KEY" (cache_key h fh);
      StateCmd "MISE_DIR" (miseDir h);
      RestoreCache [miseDir h] (cache_key h fh);
      OutputCmd "cache-hit" "true"; StateCmd "CACHE_KEY" k;
      Info ("mise cache restored from key: " +:+ k) ] /\
  env s' = env s /\ files s' = files s.
Proof.
  intros H1 H2 H3 Hk s'. subst s'. unfold result_of, state_of.
  rewrite (restoreMiseCache_hit_eq _ _ _ _ H1 H2 H3) by by apply truthy_true.
  simpl. by rewrite new_events_log.
Qed.

(** C8: on a miss (the service returns undefined, or an empty key),
    the output [cache-hit] is [false], no [CACHE_KEY] is saved, and the
    three values [CACHE], [PRIMARY_KEY] and [MISE_DIR] are saved all the
    same. *)
Theorem restoreMiseCache_miss s fh save o :
  glob_hashFiles h cache_patterns (s ⊕ cache_to_hash) = Ok fh ->
  parse_boolean (getInput h "cache_save") = Some save ->
  cache_restoreCache h [miseDir h] (cache_key h fh) (s ⊕ cache_to_restore h save fh) = Ok o ->
  o = None \/ o = Some "" ->
  let s' := state_of (restoreMiseCache h) s in
  result_of (restoreMiseCache h) s = Ok tt /\
  new_events s s' =
    [ GroupStart "Restoring mise cache"; HashFiles cache_patterns;
      StateCmd "CACHE" (string_of_bool save);
      StateCmd "PRIMARY_KEY" (cache_key h fh);
      StateCmd "MISE_DIR" (miseDir h);
      RestoreCache [miseDir h] (cache_key h fh);
      OutputCmd "cache-hit" "false";
      Info ("mise cache not found for " +:+ cache_key h fh) ] /\
  env s' = env s /\ files s' = files s.
Proof.
  intros H1 H2 H3 Ho s'. subst s'. unfold result_of, state_of.
  rewrite (restoreMiseCache_miss_eq _ _ _ _ H1 H2 H3) by by destruct Ho as [-> | ->].
  simpl. by rewrite new_events_log.
Qed.

(** C27: whenever [restoreMiseCache] saves the state [CACHE], the value
    saved is the boolean the input [cache_save] spells: the fallback
    [?? true] of the source never supplies a value, because
    [getBooleanInput] returns a boolean or throws. *)
Theorem restoreMiseCache_cache_flag s v :
  StateCmd "CACHE" v ∈ new_events s (state_of (restoreMiseCache h) s) ->
  exists save,
    parse_boolean (getInput h "cache_save") = Some save /\ v = string_of_bool save.
Proof.
  unfold state_of.
  destruct (restoreMiseCache_cases s)
    as [[t ->]|(save & fh & Hs & [[t ->]|(hit & tail & -> & Htail)])];
    simpl; rewrite new_events_log; unfold cache_to_restore, cache_to_hash; simpl.
  - rewrite !elem_of_cons, elem_of_nil. intros [?|[?|[]]]; discriminate.
  - rewrite !elem_of_cons, elem_of_nil.
    intros [?|[?|[[= ->]|[?|[?|[?|[]]]]]]]; try discriminate. eauto.
  - rewrite !elem_of_cons.
    intros [?|[?|[[= ->]|[?|[?|[?|[?|Hin]]]]]]]; try discriminate; [eauto|].
    rewrite Forall_forall in Htail. destruct (Htail _ Hin) as [k [?|?]]; discriminate.
Qed.

(** C40: when the input [cache_save] is not one of the six boolean
    spellings (in particular when it is not set), [restoreMiseCache]
    throws a [TypeError] after hashing the files: no state is saved, the
    cache service is not called and no output is set. *)
Theorem restoreMiseCache_invalid_cache_save s fh :
  glob_hashFiles h cache_patterns (s ⊕ cache_to_hash) = Ok fh ->
  parse_boolean (getInput h "cache_save") = None ->
  let s' := state_of (restoreMiseCache h) s in
  result_of (restoreMiseCache h) s = Throw (boolean_input_error "cache_save") /\
  new_events s s' = [GroupStart "Restoring mise cache"; HashFiles cache_patterns].
Proof.
  intros H1 H2 s'. subst s'. unfold result_of, state_of.
  rewrite (restoreMiseCache_bad_flag _ _ H1 H2). simpl. by rewrite new_events_log.
Qed.

End CacheLemmas.

#[export] Hint Resolve restoreMiseCache_grows restoreMiseCache_synced
  restoreMiseCache_files_kept restoreMiseCache_exit_kept : frame.


(** ** Witnesses *)

Lemma cache_key_injective_witness :
  let h := sample_host ∅ "{}" None in
  cache_key h "0f1e2d" <> cache_key h "0f1e2e".
Proof. intros h. apply cache_key_injective. discriminate. Defined.

Lemma restoreMiseCache_hit_witness :
  let h := sample_host {[ "cache_save" := "true" ]} "{}" (Some "mise-v0-linux-x64-0f1e2d") in
  new_events (initial_runner ∅) (state_of (restoreMiseCache h) (initial_runner ∅)) =
    [ GroupStart "Restoring mise cache"; HashFiles cache_patterns;
      StateCmd "CACHE" "true";
      StateCmd "PRIMARY_KEY" "mise-v0-linux-x64-0f1e2d";
      StateCmd "MISE_DIR" "/home/runner/.local/share/mise";
      RestoreCache ["/home/runner/.local/share/mise"] "mise-v0-linux-x64-0f1e2d";
      OutputCmd "cache-hit" "true"; StateCmd "CACHE_KEY" "mise-v0-linux-x64-0f1e2d";
      Info "mise cache restored from key: mise-v0-linux-x64-0f1e2d" ].
Proof.
  intros h.
  apply (restoreMiseCache_hit h (initial_runner ∅) "0f1e2d" true "mise-v0-linux-x64-0f1e2d");
    reflexivity || discriminate.
Defined.

Lemma restoreMiseCache_miss_witness :
  let h := sample_host {[ "cache_save" := "FALSE"; "cache_key_prefix" := "ci" ]} "{}" None in
  new_events (initial_runner ∅) (state_of (restoreMiseCache h) (initial_runner ∅)) =
    [ GroupStart "Restoring mise cache"; HashFiles cache_patterns;
      StateCmd "CACHE" "false";
      StateCmd "PRIMARY_KEY" "ci-linux-x64-0f1e2d";
      StateCmd "MISE_DIR" "/home/runner/.local/share/mise";
      RestoreCache ["/home/runner/.local/share/mise"] "ci-linux-x64-0f1e2d";
      OutputCmd "cache-hit" "false";
      Info "mise cache not found for ci-linux-x64-0f1e2d" ].
Proof.
  intros h.
  apply (restoreMiseCache_miss h (initial_runner ∅) "0f1e2d" false None);
    reflexivity || (by left).
Defined.

Lemma restoreMiseCache_cache_flag_witness :
  let h := sample_host {[ "cache_save" := "false" ]} "{}" None in
  exists save, parse_boolean (getInput h "cache_save") = Some save /\ "false" = string_of_bool save.
Proof.
  intros h. apply (restoreMiseCache_cache_flag h (initial_runner ∅) "false").
  vm_compute. do 2 apply list_elem_of_further. apply list_elem_of_here.
Defined.

Lemma restoreMiseCache_invalid_cache_save_witness :
  let h := sample_host ∅ "{}" None in
  result_of (restoreMiseCache h) (initial_runner ∅) = Throw (boolean_input_error "cache_save").
Proof.
  intros h.
  apply (restoreMiseCache_invalid_cache_save h (initial_runner ∅) "0f1e2d"); reflexivity.
Defined.
