(* ===== verification/Invoker.v ===== *)
(** * Invoker: [mise], [testMise], [miseInstall], [miseEnv]

    Runs the installed binary with an argument list inside a log group, in
    the directory given by the input [install_dir] (the working directory
    when the input is empty), and returns what [exec.getExecOutput]
    returns.

    Theorems: the journal of a call (group, call, end of group) whether
    the call returns or throws; the working directory chosen; a call
    returns only when the binary exited with 0, so the version check
    stops the run when the binary exits with another code. *)

From Stdlib Require Import ZArith.
From stdpp Require Import base option list strings gmap.
From S2P Require Import Prelude JsString Toolkit.

(** ** Definitions *)

Section Invoker.
Context (h : Host).

(** [core.getInput('install_dir') || process.cwd()] *)
Definition install_dir : string := or_else (getInput h "install_dir") (cwd h).

Definition mise (args : list string) : act Runner ExecOutput :=
  group ("Running mise " +:+ join_with " " args)
    (getExecOutput h "mise" args install_dir).

Definition testMise : act Runner ExecOutput := mise ["--version"].

Definition miseInstall : act Runner ExecOutput := mise ["install"].

Definition miseEnv : act Runner ExecOutput := mise ["env"; "--json"].

End Invoker.

#[export] Hint Unfold mise testMise miseInstall miseEnv : act.

(** ** Lemmas *)

Section InvokerLemmas.
Context (h : Host).

(** The journal of [mise args] up to the call of the binary. *)
Definition mise_call (args : list string) : list Event :=
  [ GroupStart ("Running mise " +:+ join_with " " args);
    ExecOutputCall "mise" args (install_dir h) ].

(** [mise] in closed form: the answer of [exec.getExecOutput], between
    the opening and the closing of the group. *)
Lemma mise_eq args s :
  mise h args s =
    (getExecOutput_result h "mise" args (install_dir h) (s ⊕ mise_call args),
     s ⊕ (mise_call args ++ [GroupEnd])).
Proof.
  unfold mise_call. act_norm.
  by destruct (getExecOutput_result h "mise" args (install_dir h) _).
Qed.

(** Every [ExecOutput] the script gets to see has the exit code 0. *)
Lemma mise_exit_code args s s' out : mise h args s = (Ok out, s') -> exitCode out = 0%Z.
Proof. rewrite mise_eq. intros [= H _]. by apply getExecOutput_result_Ok in H as [_ ?]. Qed.

Lemma mise_grows args : Respects journal_grows (mise h args).
Proof. solve_frame. Qed.

Lemma mise_synced args : Respects (env_synced (delimiter h)) (mise h args).
Proof. solve_frame. Qed.

Lemma mise_files_kept args : Respects files_kept (mise h args).
Proof. solve_frame. Qed.

Lemma mise_exit_kept args : Respects exit_kept (mise h args).
Proof. solve_frame. Qed.

(** ** Theorems *)

(** Whatever the binary does (exit with any code, or fail to start),
    [mise args] appends exactly three events to the journal: the opening
    of the group [Running mise <args joined by spaces>], the call in the
    install directory, and the closing of the group; its result is the
    answer of [exec.getExecOutput] and nothing else of the run changes. *)
Lemma mise_closes_group args s :
  let s' := state_of (mise h args) s in
  result_of (mise h args) s =
    getExecOutput_result h "mise" args (install_dir h) (s ⊕ mise_call args) /\
  new_events s s' =
    [ GroupStart ("Running mise " +:+ join_with " " args);
      ExecOutputCall "mise" args (install_dir h); GroupEnd ] /\
  env s' = env s /\ files s' = files s /\ exit_code s' = exit_code s.
Proof.
  intros s'. subst s'. unfold result_of, state_of. rewrite mise_eq. simpl.
  by rewrite new_events_log.
Qed.

(** The binary runs in the directory of the input [install_dir]
    when that input is not blank, and in the working directory of the
    process otherwise. *)
Lemma install_dir_default :
  install_dir h =
    if all_white_space (input h "install_dir") then cwd h
    else trim (input h "install_dir").
Proof.
  unfold install_dir, getInput, or_else.
  destruct (all_white_space _) eqn:Hw.
  - by rewrite (proj2 (trim_empty_iff _) Hw).
  - assert (truthy (trim (input h "install_dir")) = true) as ->; [|done].
    apply truthy_true. intros E. apply trim_empty_iff in E. congruence.
Qed.

(** C36: [testMise] does not look at the [ExecOutput]; it is
    [exec.getExecOutput] that stops the run when the version check exits
    with a code other than 0, with an [Error] that names the exit code.
    With the exit code 0 [testMise] returns the output.  In both cases the
    log group is closed. *)
Theorem testMise_exit_code s out :
  exec_getExecOutput h "mise" ["--version"] (install_dir h) (s ⊕ mise_call ["--version"])
    = Ok out ->
  testMise h s =
    (if bool_decide (exitCode out = 0%Z) then Ok out
     else Throw (exit_code_error h "mise" (exitCode out)),
     s ⊕ (mise_call ["--version"] ++ [GroupEnd])).
Proof.
  intros H. unfold testMise. rewrite mise_eq. unfold getExecOutput_result. by rewrite H.
Qed.

End InvokerLemmas.

#[export] Hint Resolve mise_grows mise_synced mise_files_kept mise_exit_kept : frame.


(** ** Witnesses *)

Lemma testMise_exit_code_witness :
  let out := {| exitCode := 127; stdout := ""; stderr := "not found" |} in
  let h := answering ["--version"] (Ok out) (sample_host ∅ "{}" None) in
  result_of (testMise h) (initial_runner ∅) =
    Throw (JsError "Error" "The process '/usr/bin/mise' failed with exit code 127").
Proof.
  intros out h. unfold result_of.
  rewrite (testMise_exit_code h (initial_runner ∅) out); reflexivity.
Defined.
