(* ===== verification/Exporter.v ===== *)
(** * Exporter: the environment before and after the tool runs

    - Environment Bootstrapper: [setEnvVarsPreInstall] sets
      [MISE_TRUSTED_CONFIG_PATHS], [MISE_YES] and [MISE_EXPERIMENTAL]
      through [setEnvIfUnset], which tests [!process.env[k]].
    - Environment Exporter: [setEnvVars] runs [mise env --json], and when
      the exit code is 0 parses the output and exports every entry:
      [setEnv] for every key but PATH, one [core.addPath] per segment of
      the value of PATH.

    Theorems: [setEnvIfUnset] keeps a non-empty value and replaces a
    missing or empty one; the environment after the bootstrap, key by
    key; a tool that exits with a code other than 0 makes the call
    throw, so the [else] branch of [setEnvVars] is never reached
    ([setEnvVars_exit_test_redundant]); malformed JSON throws before any
    variable is touched; the effect of a successful export as a fold over
    the entries; the order in which the segments of PATH end up; the
    environment after the export, whatever value the tool printed
    ([setEnvVars_environment]); no entry is overwritten by another
    ([setEnvVars_overrides]); the members of any
    well-formed object the tool prints are exported as printed
    ([setEnvVars_roundtrip]). *)

From Stdlib Require Import Ascii ZArith.
From stdpp Require Import base option list strings gmap.
From S2P Require Import Prelude JsString Json JsonRoundTrip JsonObjects Toolkit Invoker.

(** ** Definitions *)

Section Exporter.
Context (h : Host).

Definition setEnv (k : string) (v : json) : act Runner unit :=
  info ("Setting " +:+ k +:+ "=" +:+ js_to_string v) ;;
  exportVariable k (toCommandValue v).

Definition setEnvIfUnset (k v : string) : act Runner unit :=
  cur <- gets (fun s => env s !! k) ;;
  if negb (truthy_opt cur) then setEnv k (JString v) else ret tt.

(** [experimentalString === 'true' ? true : false] *)
Definition getExperimental : bool :=
  if String.eqb (getInput h "experimental") "true" then true else false.

Definition setEnvVarsPreInstall : act Runner unit :=
  startGroup "Setting env vars for Mise" ;;
  setEnvIfUnset "MISE_TRUSTED_CONFIG_PATHS" (cwd h) ;;
  setEnvIfUnset "MISE_YES" "1" ;;
  setEnvIfUnset "MISE_EXPERIMENTAL" (if getExperimental then "1" else "0").

(** The body of the inner loop of [setEnvVars]. *)
Definition add_path_element (pathElement : string) : act Runner unit :=
  info ("Adding " +:+ pathElement +:+ " to PATH") ;;
  addPath h pathElement.

(** The body of the outer loop of [setEnvVars]. *)
Definition export_entry (entry : string * json) : act Runner unit :=
  let '(key, value) := entry in
  if negb (String.eqb key "PATH") then setEnv key value
  else
    elements <- lift (split_value (delimiter h) value) ;;
    for_each add_path_element elements.

Definition mise_env_error (out : ExecOutput) : thrown :=
  JsError "Error" ("Failed to run mise env: " +:+ stderr out).

Definition setEnvVars : act Runner unit :=
  envOutput <- miseEnv h ;;
  startGroup "Setting env vars" ;;
  if Z.eqb (exitCode envOutput) 0 then
    envVars <- lift (JSON_parse (stdout envOutput)) ;;
    entries <- lift (Object_entries envVars) ;;
    for_each export_entry entries
  else throw (mise_env_error envOutput).

(** *** The effects of the exporter, as functions on the run *)

Definition setEnv_effect (k : string) (v : json) (s : Runner) : Runner :=
  with_env (insert k (toCommandValue v))
    (s ⊕ [Info ("Setting " +:+ k +:+ "=" +:+ js_to_string v); EnvCmd k (toCommandValue v)]).

Definition setEnvIfUnset_effect (k v : string) (s : Runner) : Runner :=
  if truthy_opt (env s !! k) then s else setEnv_effect k (JString v) s.

Definition add_path_effect (p : string) (s : Runner) : Runner :=
  with_env (insert "PATH" (p +:+ String (delimiter h) (env_PATH s)))
    (s ⊕ [Info ("Adding " +:+ p +:+ " to PATH"); PathCmd p]).

Definition export_effect (entry : string * json) (s : Runner) : Runner :=
  if negb (String.eqb entry.1 "PATH") then setEnv_effect entry.1 entry.2 s
  else match entry.2 with
       | JString v => foldl (fun s p => add_path_effect p s) s (split_on (delimiter h) v)
       | _ => s
       end.

(** An entry the exporter can apply: any entry but a PATH whose value is
    not a string. *)
Definition exportable (entry : string * json) : bool :=
  negb (String.eqb entry.1 "PATH") ||
  match entry.2 with JString _ => true | _ => false end.

(** The journal of [setEnvVars] up to the test of the exit code. *)
Definition env_events : list Event :=
  mise_call h ["env"; "--json"] ++ [GroupEnd; GroupStart "Setting env vars"].

(** The value [setEnvVarsPreInstall] gives to each of its three
    variables when the variable is not set. *)
Definition bootstrap_default (k : string) : option string :=
  if bool_decide (k = "MISE_TRUSTED_CONFIG_PATHS") then Some (cwd h)
  else if bool_decide (k = "MISE_YES") then Some "1"
  else if bool_decide (k = "MISE_EXPERIMENTAL")
       then Some (if getExperimental then "1" else "0")
  else None.

End Exporter.

(** The example of the specification: [{"FOO":"bar","PATH":"/a:/b"}]. *)
Definition example_json : string :=
  "{" +:+ q "FOO" +:+ ":" +:+ q "bar" +:+ "," +:+ q "PATH" +:+ ":" +:+ q "/a:/b" +:+ "}".

#[export] Hint Unfold setEnv setEnvIfUnset setEnvVarsPreInstall add_path_element
  setEnvVars : act.

(** ** Lemmas *)

Section ExporterLemmas.
Context (h : Host).

Lemma setEnv_eq k v s : setEnv k v s = (Ok tt, setEnv_effect k v s).
Proof. unfold setEnv_effect. by act_run. Qed.

Lemma add_path_element_eq p s : add_path_element h p s = (Ok tt, add_path_effect h p s).
Proof. unfold add_path_effect. by act_run. Qed.

Lemma setEnvIfUnset_eq k v s : setEnvIfUnset k v s = (Ok tt, setEnvIfUnset_effect k v s).
Proof.
  unfold setEnvIfUnset, setEnvIfUnset_effect, bind, gets.
  destruct (truthy_opt (env s !! k)); simpl; [done|]. apply setEnv_eq.
Qed.

Lemma setEnvVarsPreInstall_eq s :
  setEnvVarsPreInstall h s =
    (Ok tt,
     setEnvIfUnset_effect "MISE_EXPERIMENTAL" (if getExperimental h then "1" else "0")
       (setEnvIfUnset_effect "MISE_YES" "1"
          (setEnvIfUnset_effect "MISE_TRUSTED_CONFIG_PATHS" (cwd h)
             (s ⊕ [GroupStart "Setting env vars for Mise"])))).
Proof.
  unfold setEnvVarsPreInstall, startGroup, emit. unfold bind at 1. simpl.
  do 2 (erewrite bind_ok by apply setEnvIfUnset_eq). apply setEnvIfUnset_eq.
Qed.

Lemma env_setEnvIfUnset k v s k' :
  env (setEnvIfUnset_effect k v s) !! k' =
    if bool_decide (k' = k) then
      (if truthy_opt (env s !! k) then env s !! k else Some v)
    else env s !! k'.
Proof.
  unfold setEnvIfUnset_effect. case_bool_decide as Hk.
  - subst k'. destruct (truthy_opt (env s !! k)); simpl; [done|]. by rewrite lookup_insert_eq.
  - destruct (truthy_opt (env s !! k)); simpl; [done|]. by rewrite lookup_insert_ne.
Qed.

(** The environment after the bootstrap, key by key. *)
Lemma env_bootstrap s k :
  env (state_of (setEnvVarsPreInstall h) s) !! k =
    match bootstrap_default h k with
    | Some v => if truthy_opt (env s !! k) then env s !! k else Some v
    | None => env s !! k
    end.
Proof.
  unfold state_of. rewrite setEnvVarsPreInstall_eq. cbn [snd].
  rewrite !env_setEnvIfUnset. unfold bootstrap_default. simpl.
  repeat case_bool_decide; simplify_eq; done.
Qed.

Lemma export_entry_eq entry s :
  exportable entry = true -> export_entry h entry s = (Ok tt, export_effect h entry s).
Proof.
  destruct entry as [key value]. unfold exportable, export_entry, export_effect. simpl.
  destruct (String.eqb key "PATH"); simpl; [|intros _; apply setEnv_eq].
  destruct value; try discriminate. intros _. unfold bind, lift. simpl.
  apply for_each_total. intros p s'. apply add_path_element_eq.
Qed.

(** When the call of the tool throws, [setEnvVars] throws the same value
    before it opens its group. *)
Lemma setEnvVars_call_throws s t :
  getExecOutput_result h "mise" ["env"; "--json"] (install_dir h)
    (s ⊕ mise_call h ["env"; "--json"]) = Throw t ->
  setEnvVars h s = (Throw t, s ⊕ (mise_call h ["env"; "--json"] ++ [GroupEnd])).
Proof. intros H. unfold setEnvVars, miseEnv. unfold bind at 1. by rewrite mise_eq, H. Qed.

(** [setEnvVars] from the parsing on, when the tool exited with 0 and
    printed [out]. *)
Lemma setEnvVars_after_call s out :
  exec_getExecOutput h "mise" ["env"; "--json"] (install_dir h)
    (s ⊕ mise_call h ["env"; "--json"]) = Ok out ->
  exitCode out = 0%Z ->
  setEnvVars h s =
    (envVars <- lift (JSON_parse (stdout out)) ;;
     entries <- lift (Object_entries envVars) ;;
     for_each (export_entry h) entries) (s ⊕ env_events h).
Proof.
  intros Hout Hcode. unfold setEnvVars, miseEnv, env_events.
  unfold bind at 1. rewrite mise_eq, (getExecOutput_result_zero h _ _ _ _ _ Hout Hcode).
  unfold bind at 1, startGroup, emit, modify. by rewrite log_log, <- app_assoc, Hcode.
Qed.

(** [setEnvVars] returns only when the exit code was 0. *)
Lemma setEnvVars_ok_exit s s' out :
  exec_getExecOutput h "mise" ["env"; "--json"] (install_dir h)
    (s ⊕ mise_call h ["env"; "--json"]) = Ok out ->
  setEnvVars h s = (Ok tt, s') -> exitCode out = 0%Z.
Proof.
  intros Hout. destruct (decide (exitCode out = 0%Z)) as [|Hcode]; [done|].
  by rewrite (setEnvVars_call_throws _ _ (getExecOutput_result_nonzero h _ _ _ _ _ Hout Hcode)).
Qed.

(** C5: the test of the exit code in [setEnvVars] never fails, since
    [miseEnv] returns only when the tool exited with 0: on every host
    and from every run, [setEnvVars] behaves as the function without the
    test and without its [else] branch. *)
Theorem setEnvVars_exit_test_redundant :
  setEnvVars h ≡
    (envOutput <- miseEnv h ;;
     startGroup "Setting env vars" ;;
     envVars <- lift (JSON_parse (stdout envOutput)) ;;
     entries <- lift (Object_entries envVars) ;;
     for_each (export_entry h) entries).
Proof.
  intros s. unfold setEnvVars, miseEnv, bind.
  destruct (mise h ["env"; "--json"] s) as [[out|t] s1] eqn:E; [|done].
  simpl. by rewrite (mise_exit_code h _ _ _ _ E).
Qed.

Lemma for_each_export_eq entries s :
  forallb exportable entries = true ->
  for_each (export_entry h) entries s =
    (Ok tt, foldl (fun s e => export_effect h e s) s entries).
Proof.
  revert s. induction entries as [|e entries IH]; intros s; simpl; [done|].
  intros [He Hes]%andb_prop. unfold bind. by rewrite export_entry_eq, IH.
Qed.

(** The loop returns only when every entry can be exported. *)
Lemma for_each_export_ok entries s s' :
  for_each (export_entry h) entries s = (Ok tt, s') -> forallb exportable entries = true.
Proof.
  revert s. induction entries as [|e entries IH]; intros s; simpl; [done|].
  unfold bind. destruct (exportable e) eqn:He.
  - rewrite export_entry_eq by done. apply IH.
  - destruct e as [k [| | | | |]]; unfold exportable in He; simpl in He;
      destruct (String.eqb k "PATH") eqn:Hk; try discriminate;
      unfold export_entry; rewrite Hk; done.
Qed.

(** [setEnvVars] from the loop on, when the tool exited with 0 and its
    output parsed to a value with these entries. *)
Lemma setEnvVars_entries s out v entries :
  exec_getExecOutput h "mise" ["env"; "--json"] (install_dir h)
    (s ⊕ mise_call h ["env"; "--json"]) = Ok out ->
  exitCode out = 0%Z ->
  JSON_parse (stdout out) = Ok v ->
  Object_entries v = Ok entries ->
  setEnvVars h s = for_each (export_entry h) entries (s ⊕ env_events h).
Proof.
  intros Hout Hcode Hparse Hentries. rewrite (setEnvVars_after_call _ _ Hout Hcode).
  unfold bind, lift. by rewrite Hparse, Hentries.
Qed.

Lemma string_members_exportable vars : forallb exportable (string_members vars) = true.
Proof.
  induction vars as [|[k v] vars IH]; [done|]. cbn [string_members fmap list_fmap forallb].
  unfold exportable at 1. cbn [fst snd]. by rewrite orb_true_r.
Qed.

Lemma elem_of_string_members k v vars :
  (k, v) ∈ vars -> (k, JString v) ∈ string_members vars.
Proof. intros Hin. apply list_elem_of_fmap. by exists (k, v). Qed.

(** *** Frame conditions *)

Lemma setEnv_synced k v : Respects (env_synced (delimiter h)) (setEnv k v).
Proof. solve_frame. Qed.

Lemma setEnvVarsPreInstall_grows : Respects journal_grows (setEnvVarsPreInstall h).
Proof. solve_frame. Qed.

Lemma setEnvVarsPreInstall_synced :
  Respects (env_synced (delimiter h)) (setEnvVarsPreInstall h).
Proof. solve_frame. Qed.

Lemma setEnvVarsPreInstall_files_kept : Respects files_kept (setEnvVarsPreInstall h).
Proof. solve_frame. Qed.

Lemma setEnvVarsPreInstall_exit_kept : Respects exit_kept (setEnvVarsPreInstall h).
Proof. solve_frame. Qed.

Lemma setEnvVarsPreInstall_quiet : Respects quiet (setEnvVarsPreInstall h).
Proof. solve_frame. Qed.

Lemma export_entry_grows e : Respects journal_grows (export_entry h e).
Proof. destruct e. unfold export_entry. solve_frame. Qed.

Lemma export_entry_synced e : Respects (env_synced (delimiter h)) (export_entry h e).
Proof. destruct e. unfold export_entry. solve_frame. Qed.

Lemma export_entry_files_kept e : Respects files_kept (export_entry h e).
Proof. destruct e. unfold export_entry. solve_frame. Qed.

Lemma export_entry_exit_kept e : Respects exit_kept (export_entry h e).
Proof. destruct e. unfold export_entry. solve_frame. Qed.

Lemma export_entry_quiet e : Respects quiet (export_entry h e).
Proof. destruct e. unfold export_entry. solve_frame. Qed.

Lemma export_entry_no_cache e : Respects (adds_only no_cache_event) (export_entry h e).
Proof. destruct e. unfold export_entry. solve_frame. Qed.

Lemma export_entry_no_error e : Respects (adds_only no_error_event) (export_entry h e).
Proof. destruct e. unfold export_entry. solve_frame. Qed.

End ExporterLemmas.

#[export] Hint Resolve export_entry_grows export_entry_synced export_entry_files_kept
  export_entry_exit_kept export_entry_quiet export_entry_no_cache
  export_entry_no_error : frame.

Section ExporterFrames.
Context (h : Host).

Lemma setEnvVars_grows : Respects journal_grows (setEnvVars h).
Proof. solve_frame. Qed.

Lemma setEnvVars_synced : Respects (env_synced (delimiter h)) (setEnvVars h).
Proof. solve_frame. Qed.

Lemma setEnvVars_files_kept : Respects files_kept (setEnvVars h).
Proof. solve_frame. Qed.

Lemma setEnvVars_exit_kept : Respects exit_kept (setEnvVars h).
Proof. solve_frame. Qed.

End ExporterFrames.

#[export] Hint Resolve setEnvVarsPreInstall_grows setEnvVarsPreInstall_synced
  setEnvVarsPreInstall_files_kept setEnvVarsPreInstall_exit_kept
  setEnvVars_grows setEnvVars_synced setEnvVars_files_kept setEnvVars_exit_kept : frame.


(** ** More lemmas: what the effects do to the environment *)

Section ExporterEnv.
Context (h : Host).

Lemma env_PATH_add_path p s :
  env_PATH (add_path_effect h p s) = p +:+ String (delimiter h) (env_PATH s).
Proof. unfold env_PATH at 1. simpl. by rewrite lookup_insert_eq. Qed.

Lemma env_add_path_other p s k :
  k <> "PATH" -> env (add_path_effect h p s) !! k = env s !! k.
Proof. intros Hk. simpl. by rewrite lookup_insert_ne. Qed.

Lemma env_add_paths_other ps s k :
  k <> "PATH" -> env (foldl (fun s p => add_path_effect h p s) s ps) !! k = env s !! k.
Proof.
  intros Hk. revert s. induction ps as [|p ps IH]; intros s; simpl; [done|].
  by rewrite IH, env_add_path_other.
Qed.

(** After adding the segments one by one, PATH is the segments in reverse
    order, then the old PATH. *)
Lemma env_PATH_add_paths ps s :
  env_PATH (foldl (fun s p => add_path_effect h p s) s ps) =
    join_with (String (delimiter h) "") (rev ps ++ [env_PATH s]).
Proof.
  revert s. induction ps as [|p ps IH]; intros s; simpl; [done|].
  rewrite IH, env_PATH_add_path, <- app_assoc. simpl.
  destruct (rev ps) as [|x l] eqn:E; [done|].
  rewrite !(join_with_app _ (x :: l)) by done. done.
Qed.

Lemma env_export_other e s k :
  e.1 <> k -> k <> "PATH" -> env (export_effect h e s) !! k = env s !! k.
Proof.
  intros He Hk. unfold export_effect.
  destruct (String.eqb e.1 "PATH"); simpl.
  - destruct e.2; try done. by apply env_add_paths_other.
  - by rewrite lookup_insert_ne.
Qed.

Lemma env_export_same k v s :
  k <> "PATH" -> env (export_effect h (k, v) s) !! k = Some (toCommandValue v).
Proof.
  intros Hk. unfold export_effect. simpl.
  rewrite (proj2 (String.eqb_neq k "PATH") Hk). simpl. by rewrite lookup_insert_eq.
Qed.

Lemma env_export_fold entries s k v :
  NoDup entries.*1 -> (k, v) ∈ entries -> k <> "PATH" ->
  env (foldl (fun s e => export_effect h e s) s entries) !! k = Some (toCommandValue v).
Proof.
  intros Hnd Hin Hk. revert Hnd Hin.
  induction entries as [|e entries IH] using rev_ind; [by intros _ ?%elem_of_nil|].
  rewrite fmap_app, foldl_app. simpl. intros [Hnd [Hdis _]]%NoDup_app.
  intros [Hin|Hin%list_elem_of_singleton]%elem_of_app; [|subst e].
  - rewrite env_export_other; [by apply IH| |done].
    intros He. apply (Hdis k); [|rewrite He; by left].
    apply list_elem_of_fmap. by exists (k, v).
  - by apply env_export_same.
Qed.

Lemma env_export_fold_other entries s k :
  k ∉ entries.*1 -> k <> "PATH" ->
  env (foldl (fun s e => export_effect h e s) s entries) !! k = env s !! k.
Proof.
  intros Hk Hp. revert s. induction entries as [|e entries IH]; intros s; simpl; [done|].
  apply not_elem_of_cons in Hk as [He Hk]. by rewrite IH, env_export_other.
Qed.

Lemma env_PATH_export_other e s :
  e.1 <> "PATH" -> env_PATH (export_effect h e s) = env_PATH s.
Proof.
  intros He. unfold export_effect, env_PATH.
  rewrite (proj2 (String.eqb_neq e.1 "PATH") He). simpl. by rewrite lookup_insert_ne.
Qed.

Lemma env_PATH_export_fold_other entries s :
  "PATH" ∉ entries.*1 ->
  env_PATH (foldl (fun s e => export_effect h e s) s entries) = env_PATH s.
Proof.
  revert s. induction entries as [|e entries IH]; intros s Hp; simpl; [done|].
  apply not_elem_of_cons in Hp as [He Hp]. by rewrite IH, env_PATH_export_other.
Qed.

(** After the export of entries with distinct keys, PATH is the segments
    of the PATH entry in reverse order, then the old PATH. *)
Lemma env_PATH_export_fold entries s p :
  NoDup entries.*1 -> ("PATH", JString p) ∈ entries ->
  env_PATH (foldl (fun s e => export_effect h e s) s entries) =
    join_with (String (delimiter h) "") (rev (split_on (delimiter h) p) ++ [env_PATH s]).
Proof.
  intros Hnd (l1 & l2 & ->)%list_elem_of_split.
  rewrite fmap_app, fmap_cons in Hnd. apply NoDup_app in Hnd as (_ & Hdis & Hnd).
  apply NoDup_cons in Hnd as [H2 _]. rewrite foldl_app. simpl.
  rewrite env_PATH_export_fold_other by done. unfold export_effect at 1. simpl.
  rewrite env_PATH_add_paths, env_PATH_export_fold_other; [done|].
  intros H1. apply (Hdis _ H1). by left.
Qed.

(** ** Theorems *)

(** C28: [setEnvIfUnset] never overwrites a variable that has a
    non-empty value: the run is left exactly as it was (no log line, no
    file command). *)
Theorem setEnvIfUnset_keeps_value k v v0 s :
  env s !! k = Some v0 -> v0 <> "" -> setEnvIfUnset k v s = (Ok tt, s).
Proof.
  intros Hk Hv. rewrite setEnvIfUnset_eq. unfold setEnvIfUnset_effect. rewrite Hk. simpl.
  by rewrite (proj2 (truthy_true v0) Hv).
Qed.

(** C11: [setEnvIfUnset] sets a variable that is missing, and also one
    that is present with the empty string as its value (the test is
    [!process.env[k]]): the variable is logged, exported, and has the new
    value afterwards. *)
Theorem setEnvIfUnset_sets_missing_or_empty k v s :
  env s !! k = None \/ env s !! k = Some "" ->
  let s' := state_of (setEnvIfUnset k v) s in
  env s' = <[k := v]> (env s) /\
  new_events s s' = [Info ("Setting " +:+ k +:+ "=" +:+ v); EnvCmd k v].
Proof.
  intros Hk s'. subst s'. unfold state_of. rewrite setEnvIfUnset_eq.
  unfold setEnvIfUnset_effect.
  assert (truthy_opt (env s !! k) = false) as -> by (by destruct Hk as [-> | ->]).
  cbn [snd]. unfold setEnv_effect. split; [done|].
  by rewrite new_events_with_env, new_events_log.
Qed.

(** C29: [setEnvVarsPreInstall] always returns, and afterwards each of
    [MISE_TRUSTED_CONFIG_PATHS], [MISE_YES] and [MISE_EXPERIMENTAL] has
    the value it had before when that value was non-empty, and otherwise
    the working directory, [1], and [1] or [0] according to the input
    [experimental]; every other variable is unchanged. *)
Theorem setEnvVarsPreInstall_spec s k :
  let s' := state_of (setEnvVarsPreInstall h) s in
  result_of (setEnvVarsPreInstall h) s = Ok tt /\
  env s' !! k =
    match bootstrap_default h k with
    | Some v => if truthy_opt (env s !! k) then env s !! k else Some v
    | None => env s !! k
    end.
Proof.
  intros s'. subst s'. split; [|apply env_bootstrap].
  unfold result_of. by rewrite setEnvVarsPreInstall_eq.
Qed.

(** C4: when [mise env --json] exits with a code other than 0,
    [exec.getExecOutput] rejects, so [setEnvVars] throws the [Error] of
    the library, which names the exit code and not the standard error:
    the [else] branch with the message [Failed to run mise env] is never
    reached.  [setEnvVars] has then not opened its log group, not touched
    [process.env] and not issued any file command. *)
Theorem setEnvVars_nonzero_exit s out :
  exec_getExecOutput h "mise" ["env"; "--json"] (install_dir h)
    (s ⊕ mise_call h ["env"; "--json"]) = Ok out ->
  exitCode out <> 0%Z ->
  setEnvVars h s =
    (Throw (exit_code_error h "mise" (exitCode out)),
     s ⊕ (mise_call h ["env"; "--json"] ++ [GroupEnd])).
Proof.
  intros Hout Hcode. apply setEnvVars_call_throws.
  by apply getExecOutput_result_nonzero.
Qed.

(** C37: when the exit code is 0 but the standard output is not JSON
    text, [setEnvVars] throws the [SyntaxError] of [JSON.parse] and has
    not touched [process.env] nor issued any file command. *)
Theorem setEnvVars_malformed_json s out t :
  exec_getExecOutput h "mise" ["env"; "--json"] (install_dir h)
    (s ⊕ mise_call h ["env"; "--json"]) = Ok out ->
  exitCode out = 0%Z ->
  JSON_parse (stdout out) = Throw t ->
  setEnvVars h s = (Throw t, s ⊕ env_events h).
Proof.
  intros Hout Hcode Hparse. rewrite (setEnvVars_after_call h _ _ Hout Hcode).
  unfold bind, lift. by rewrite Hparse.
Qed.

(** C2: when the exit code is 0, the output parses and no PATH entry has
    a value other than a string, [setEnvVars] returns and its effect is
    that of exporting the entries one after the other, in the order of
    [Object.entries]: a log line and [exportVariable] for every key but
    PATH, a log line and [addPath] for every segment of PATH. *)
Theorem setEnvVars_exports s out v entries :
  exec_getExecOutput h "mise" ["env"; "--json"] (install_dir h)
    (s ⊕ mise_call h ["env"; "--json"]) = Ok out ->
  exitCode out = 0%Z ->
  JSON_parse (stdout out) = Ok v ->
  Object_entries v = Ok entries ->
  forallb exportable entries = true ->
  setEnvVars h s =
    (Ok tt, foldl (fun s e => export_effect h e s) (s ⊕ env_events h) entries).
Proof.
  intros Hout Hcode Hparse Hentries Hexp.
  rewrite (setEnvVars_entries h _ _ _ _ Hout Hcode Hparse Hentries).
  by apply for_each_export_eq.
Qed.

(** After the loop of [setEnvVars] has run over entries with distinct
    keys, every key other than PATH holds the command value of its entry,
    whatever it held before. *)
Lemma export_overrides entries s k v :
  forallb exportable entries = true ->
  NoDup entries.*1 -> (k, v) ∈ entries -> k <> "PATH" ->
  env (state_of (for_each (export_entry h)  entries) s) !! k = Some (toCommandValue v).
Proof.
  intros Hexp Hnd Hin Hk. unfold state_of. rewrite for_each_export_eq by done.
  by apply env_export_fold.
Qed.

(** C38: whatever JSON value the tool prints, when [setEnvVars] has
    exported its entries every key other than PATH holds the command
    value of its entry, whatever it held before: [JSON.parse] never
    yields a key twice, so no entry is overwritten by another. *)
Theorem setEnvVars_overrides s out v entries k x :
  exec_getExecOutput h "mise" ["env"; "--json"] (install_dir h)
    (s ⊕ mise_call h ["env"; "--json"]) = Ok out ->
  exitCode out = 0%Z ->
  JSON_parse (stdout out) = Ok v ->
  Object_entries v = Ok entries ->
  forallb exportable entries = true ->
  (k, x) ∈ entries -> k <> "PATH" ->
  result_of (setEnvVars h) s = Ok tt /\
  env (state_of (setEnvVars h) s) !! k = Some (toCommandValue x).
Proof.
  intros Hout Hcode Hparse Hentries Hexp Hin Hk. unfold result_of, state_of.
  rewrite (setEnvVars_entries h _ _ _ _ Hout Hcode Hparse Hentries).
  rewrite for_each_export_eq by done. split; [done|]. apply env_export_fold; [|done..].
  eapply Object_entries_NoDup; [|exact Hentries]. by eapply JSON_parse_distinct.
Qed.

(** C3: exporting a PATH entry puts the segments of its value in front
    of the PATH of the process one at a time, so they end up in reverse
    order: [export_entry] returns, and the segments of the new PATH are
    the segments of the value reversed, followed by the segments of the
    old PATH. *)
Theorem export_PATH_reversed v s :
  let s' := state_of (export_entry h ("PATH", JString v)) s in
  result_of (export_entry h ("PATH", JString v)) s = Ok tt /\
  split_on (delimiter h) (env_PATH s') =
    rev (split_on (delimiter h) v) ++ split_on (delimiter h) (env_PATH s).
Proof.
  intros s'. subst s'. unfold result_of, state_of. rewrite export_entry_eq by done.
  split; [done|]. unfold export_effect. simpl. rewrite env_PATH_add_paths.
  apply split_join_snoc, Forall_rev, split_on_segments.
Qed.

(** C39: a PATH entry whose value is not a string makes the export throw
    a [TypeError] at that entry; the entries before it have been exported
    and stay exported, the entries after it are not. *)
Theorem export_bad_PATH pre v post s :
  forallb exportable pre = true ->
  exportable ("PATH", v) = false ->
  exists t,
    split_value (delimiter h) v = Throw t /\
    for_each (export_entry h) (pre ++ ("PATH", v) :: post) s =
      (Throw t, foldl (fun s e => export_effect h e s) s pre).
Proof.
  intros Hpre Hv.
  assert (exists t, split_value (delimiter h) v = Throw t) as [t Ht].
  { destruct v; simpl in *; eauto; discriminate. }
  exists t. split; [done|]. rewrite for_each_app. unfold bind.
  rewrite for_each_export_eq by done. simpl. unfold bind, lift. by rewrite Ht.
Qed.

(** C12: what the tool prints is what the action exports.  When [mise env
    --json] exits with 0 and its standard output is the text
    [JSON.stringify] gives for an object (whose values may be of any
    kind, nested arrays and objects included), [JSON.parse] gives the
    members of that object back in the same order and [setEnvVars]
    exports exactly them, one after the other. *)
Theorem setEnvVars_roundtrip s out ms :
  exec_getExecOutput h "mise" ["env"; "--json"] (install_dir h)
    (s ⊕ mise_call h ["env"; "--json"]) = Ok out ->
  exitCode out = 0%Z ->
  stdout out = JSON_stringify (JObject ms) ->
  wf_json (JObject ms) = true ->
  forallb exportable ms = true ->
  JSON_parse (stdout out) = Ok (JObject ms) /\
  setEnvVars h s =
    (Ok tt, foldl (fun s e => export_effect h e s) (s ⊕ env_events h) ms).
Proof.
  intros Hout Hcode Hstdout Hwf Hexp.
  assert (JSON_parse (stdout out) = Ok (JObject ms)) as Hparse
    by (rewrite Hstdout; by apply JSON_parse_stringify).
  split; [done|]. rewrite (setEnvVars_entries h _ _ _ ms Hout Hcode Hparse) by done.
  by apply for_each_export_eq.
Qed.

(** [setEnvVars] returns only when the tool exited with 0 and every
    entry could be exported, and then it has exported them in order. *)
Lemma setEnvVars_returns s s' out v entries :
  exec_getExecOutput h "mise" ["env"; "--json"] (install_dir h)
    (s ⊕ mise_call h ["env"; "--json"]) = Ok out ->
  JSON_parse (stdout out) = Ok v ->
  Object_entries v = Ok entries ->
  setEnvVars h s = (Ok tt, s') ->
  forallb exportable entries = true /\
  s' = foldl (fun s e => export_effect h e s) (s ⊕ env_events h) entries.
Proof.
  intros Hout Hparse Hentries Hrun.
  pose proof (setEnvVars_ok_exit h _ _ _ Hout Hrun) as Hcode.
  rewrite (setEnvVars_entries h _ _ _ _ Hout Hcode Hparse Hentries) in Hrun.
  pose proof (for_each_export_ok h _ _ _ Hrun) as Hexp.
  rewrite for_each_export_eq in Hrun by done. by injection Hrun as <-.
Qed.

(** The environment [setEnvVars] leaves when it returns, whatever JSON
    value the tool printed: the old one with every entry other than PATH
    set to the command value of its value, and with the segments of the
    PATH entry, reversed, in front of the old PATH. *)
Lemma setEnvVars_environment s s' out v entries :
  exec_getExecOutput h "mise" ["env"; "--json"] (install_dir h)
    (s ⊕ mise_call h ["env"; "--json"]) = Ok out ->
  JSON_parse (stdout out) = Ok v ->
  Object_entries v = Ok entries ->
  setEnvVars h s = (Ok tt, s') ->
  let vars : gmap string json := list_to_map entries in
  (forall k, k <> "PATH" -> env s' !! k = ((toCommandValue <$> vars) ∪ env s) !! k) /\
  split_on (delimiter h) (env_PATH s') =
    match vars !! "PATH" with
    | Some (JString p) => rev (split_on (delimiter h) p)
    | _ => []
    end ++ split_on (delimiter h) (env_PATH s).
Proof.
  intros Hout Hparse Hentries Hrun vars.
  destruct (setEnvVars_returns _ _ _ _ _ Hout Hparse Hentries Hrun) as [Hexp ->].
  assert (NoDup entries.*1) as Hnd
    by (eapply Object_entries_NoDup; [by eapply JSON_parse_distinct|done]).
  split.
  - intros k Hk. rewrite lookup_union, lookup_fmap. destruct (vars !! k) as [x|] eqn:E.
    + apply elem_of_list_to_map in E; [|done].
      rewrite (env_export_fold _ _ k x) by done. destruct (env s !! k); reflexivity.
    + apply not_elem_of_list_to_map in E. rewrite env_export_fold_other by done.
      by rewrite (left_id_L None _).
  - destruct (vars !! "PATH") as [x|] eqn:E.
    + apply elem_of_list_to_map in E; [|done].
      assert (exists p, x = JString p) as [p ->].
      { rewrite forallb_forall in Hexp. apply list_elem_of_In, Hexp in E.
        destruct x; try discriminate. eauto. }
      rewrite (env_PATH_export_fold _ _ p) by done.
      rewrite split_join_snoc by apply Forall_rev, split_on_segments. done.
    + apply not_elem_of_list_to_map in E. by rewrite env_PATH_export_fold_other.
Qed.

End ExporterEnv.

(** ** Witnesses *)

Lemma setEnvIfUnset_keeps_value_witness :
  setEnvIfUnset "MISE_YES" "1" (initial_runner {[ "MISE_YES" := "0" ]})
  = (Ok tt, initial_runner {[ "MISE_YES" := "0" ]}).
Proof. by apply (setEnvIfUnset_keeps_value "MISE_YES" "1" "0"). Defined.

Lemma setEnvIfUnset_sets_missing_or_empty_witness :
  env (state_of (setEnvIfUnset "MISE_YES" "1") (initial_runner {[ "MISE_YES" := "" ]}))
  = <["MISE_YES" := "1"]> {[ "MISE_YES" := "" ]}.
Proof.
  apply (setEnvIfUnset_sets_missing_or_empty "MISE_YES" "1"). by right.
Defined.

Lemma setEnvVars_nonzero_exit_witness :
  let out := {| exitCode := 1; stdout := ""; stderr := "mise ERROR no config" |} in
  let h := answering ["env"; "--json"] (Ok out) (sample_host ∅ "{}" None) in
  result_of (setEnvVars h) (initial_runner ∅)
  = Throw (JsError "Error" "The process '/usr/bin/mise' failed with exit code 1").
Proof.
  intros out h. unfold result_of.
  rewrite (setEnvVars_nonzero_exit h (initial_runner ∅) out); done.
Defined.

Lemma setEnvVars_malformed_json_witness :
  let h := sample_host ∅ "{oops" None in
  result_of (setEnvVars h) (initial_runner ∅) = Throw syntax_error.
Proof.
  intros h. unfold result_of.
  rewrite (setEnvVars_malformed_json h (initial_runner ∅)
             {| exitCode := 0; stdout := "{oops"; stderr := "" |} syntax_error);
    reflexivity.
Defined.

Lemma setEnvVars_exports_witness :
  let h := sample_host ∅ example_json None in
  let s' := state_of (setEnvVars h) (initial_runner {[ "PATH" := "/usr/bin" ]}) in
  env s' = {[ "FOO" := "bar"; "PATH" := "/b:/a:/usr/bin" ]} /\
  env_commands (journal s') = [EnvCmd "FOO" "bar"; PathCmd "/a"; PathCmd "/b"].
Proof.
  intros h s'. subst s'. unfold state_of.
  rewrite (setEnvVars_exports h (initial_runner {[ "PATH" := "/usr/bin" ]})
             {| exitCode := 0; stdout := example_json; stderr := "" |}
             (JObject [("FOO", JString "bar"); ("PATH", JString "/a:/b")])
             [("FOO", JString "bar"); ("PATH", JString "/a:/b")]);
    try reflexivity.
  split; [by apply map_eq; intros k; vm_compute | by vm_compute].
Defined.

Example setEnvVars_environment_sample :
  let h := sample_host ∅ example_json None in
  let s' := state_of (setEnvVars h) (initial_runner {[ "PATH" := "/usr/bin" ]}) in
  env s' !! "FOO" = Some "bar" /\
  split_on ":" (env_PATH s') = ["/b"; "/a"; "/usr/bin"].
Proof.
  intros h s'.
  destruct (setEnvVars_environment h (initial_runner {[ "PATH" := "/usr/bin" ]}) s'
              {| exitCode := 0; stdout := example_json; stderr := "" |}
              (JObject [("FOO", JString "bar"); ("PATH", JString "/a:/b")])
              [("FOO", JString "bar"); ("PATH", JString "/a:/b")]) as (Henv & Hpath);
    try reflexivity.
  split; [by apply (Henv "FOO")|exact Hpath].
Qed.

Lemma setEnvVars_roundtrip_witness :
  let ms := [("1", JNumber "42"); ("FOO", JString "bar"); ("PATH", JString "/a:/b");
             ("LIST", JArray [JBool true; JNull; JObject [("k", JString "v")]])] in
  let h := sample_host ∅ (JSON_stringify (JObject ms)) None in
  let s := initial_runner {[ "PATH" := "/usr/bin" ]} in
  JSON_parse (JSON_stringify (JObject ms)) = Ok (JObject ms) /\
  setEnvVars h s = (Ok tt, foldl (fun s e => export_effect h e s) (s ⊕ env_events h) ms).
Proof.
  intros ms h s.
  apply (setEnvVars_roundtrip h s
           {| exitCode := 0; stdout := JSON_stringify (JObject ms); stderr := "" |} ms);
    reflexivity.
Defined.

Example export_overrides_sample :
  let h := sample_host ∅ "{}" None in
  env (state_of (for_each (export_entry h) [("FOO", JString "bar"); ("N", JNumber "1")])
         (initial_runner {[ "FOO" := "old" ]})) !! "FOO" = Some "bar".
Proof.
  intros h. apply (export_overrides h _ _ "FOO" (JString "bar")).
  - done.
  - apply NoDup_cons. split; [by intros ?%list_elem_of_singleton | apply NoDup_singleton].
  - by left.
  - done.
Qed.

Lemma setEnvVars_overrides_witness :
  let text := "{" +:+ q "FOO" +:+ ":1," +:+ q "BAR" +:+ ":" +:+ q "x" +:+ ","
              +:+ q "FOO" +:+ ":" +:+ q "last" +:+ "}" in
  let h := sample_host ∅ text None in
  let s := initial_runner {[ "FOO" := "old" ]} in
  result_of (setEnvVars h) s = Ok tt /\
  env (state_of (setEnvVars h) s) !! "FOO" = Some "last".
Proof.
  intros text h s.
  apply (setEnvVars_overrides h s {| exitCode := 0; stdout := text; stderr := "" |}
           (JObject [("FOO", JString "last"); ("BAR", JString "x")])
           [("FOO", JString "last"); ("BAR", JString "x")] "FOO" (JString "last"));
    try reflexivity; [by left|done].
Defined.

Lemma export_bad_PATH_witness :
  let h := sample_host ∅ "{}" None in
  exists t,
    split_value (delimiter h) JNull = Throw t /\
    for_each (export_entry h) ([("A", JString "1")] ++ ("PATH", JNull) :: [("B", JString "2")])
      (initial_runner ∅)
    = (Throw t, foldl (fun s e => export_effect h e s) (initial_runner ∅) [("A", JString "1")]).
Proof. intros h. by apply export_bad_PATH. Defined.
