(* ===== verification/Run.v ===== *)
(** * Run: the pipeline [run] and its stage machine

    [run] calls the stages in a fixed order inside one [try]; the [catch]
    turns an [Error] into [core.setFailed(err.message)] and rethrows
    anything else.

    - [cache_stage], [install_stage]: the two gated stages, each with its
      [getBooleanInput] guard.
    - [main]: the body of the [try]; [on_error]: the [catch]; [run];
      [entry]: the call [run()] that ends the module, with the ways the
      process ends ([Ending]).
    - [Stage], [stage_action], [next_stage], [step]: the same pipeline as
      a transition system over pairs of a stage and a run, one transition
      per stage; [step_fn] is the transition as a function, [run_machine]
      its iteration and [pipeline] the iteration of the stages.
    - [wf_config]: the well-formed configurations of the machine;
      [on_track]: the stages the machine is at while nothing has been
      thrown.

    The machine is the specification [run] is compared with: its
    transitions say what a failure is (exit code 1 and the error command
    with the message, or the thrown value kept in [Crashed]) without
    calling [on_error], so that the refinement is a statement about the
    [catch] of the source and fails when the [catch] is wrong.

    Theorems: [run] refines the stage machine (the final configuration of
    the machine is the outcome of [run]) and the machine has no other
    final configuration; every reachable configuration has a journal that
    extends the initial one and an environment that follows the file
    commands; the pipeline stops at the first stage that throws
    ([failure_stops_main]), and an [Error] thrown by a stage becomes a
    failure message with all earlier effects kept; with the cache
    disabled no cache call is ever made; the ending of the process on
    every outcome ([entry_endings]); transitions preserve [wf_config]
    ([machine_well_formed]); what every stage that returns carries over
    to the next one holds at every stage reached without a throw
    ([reachable_boundary]).  That the machine is deterministic, reaches a
    final stage within eight transitions and is computed by [step_fn] are
    lemmas about the machine itself ([machine_deterministic],
    [machine_reaches_settled], [step_fn_iff]), used by the theorems and
    by the witnesses. *)

From Stdlib Require Import Ascii ZArith.
From stdpp Require Import base option list strings gmap relations.
From S2P Require Import Prelude JsString Json Toolkit Platform.
From S2P Require Import ConfigWriter Installer Cache Invoker Exporter.

(** ** Definitions *)

Section Run.
Context (h : Host).

(** [if (core.getBooleanInput('cache')) { await restoreMiseCache() }
     else { core.setOutput('cache-hit', false) }] *)
Definition cache_stage : act Runner unit :=
  cache <- getBooleanInput h "cache" ;;
  if cache then restoreMiseCache h
  else setOutput "cache-hit" (string_of_bool false).

(** [if (core.getBooleanInput('install')) { await miseInstall() }] *)
Definition install_stage : act Runner unit :=
  install <- getBooleanInput h "install" ;;
  if install then miseInstall h ;; ret tt
  else ret tt.

(** The body of the [try]. *)
Definition main : act Runner unit :=
  setToolVersions h ;;
  setMiseToml h ;;
  cache_stage ;;
  let version := getInput h "version" in
  setupMise h version ;;
  setEnvVarsPreInstall h ;;
  testMise h ;;
  install_stage ;;
  setEnvVars h.

(** The [catch]: [if (err instanceof Error) core.setFailed(err.message)
    else throw err]. *)
Definition on_error (err : thrown) : act Runner unit :=
  match err with
  | JsError _ message => setFailed message
  | NonError _ => throw err
  end.

Definition run : act Runner unit := catch main on_error.

(** How the process of the step ends: the event loop drains and the
    process exits with [process.exitCode], or the promise of [run()]
    rejects and nobody handles the rejection. *)
Inductive Ending : Type :=
| Exits (code : Z)
| Rejects (err : thrown).

(** [run()], the last line of the module: the promise is neither awaited
    nor caught. *)
Definition entry (s : Runner) : Ending * Runner :=
  match run s with
  | (Ok _, s') => (Exits (exit_code s'), s')
  | (Throw err, s') => (Rejects err, s')
  end.

(** *** The stage machine *)

Inductive Stage : Type :=
| WriteToolVersions
| WriteMiseToml
| CacheStage
| SetupStage
| PreInstallEnv
| TestStage
| InstallStage
| ExportStage
| Done
| Failed
| Crashed (err : thrown).

#[global] Instance Stage_eq_dec : EqDecision Stage.
Proof. solve_decision. Defined.

(** What a stage runs; a final stage runs nothing. *)
Definition stage_action (st : Stage) : act Runner unit :=
  match st with
  | WriteToolVersions => setToolVersions h
  | WriteMiseToml => setMiseToml h
  | CacheStage => cache_stage
  | SetupStage => setupMise h (getInput h "version")
  | PreInstallEnv => setEnvVarsPreInstall h
  | TestStage => testMise h ;; ret tt
  | InstallStage => install_stage
  | ExportStage => setEnvVars h
  | Done | Failed | Crashed _ => ret tt
  end.

Definition next_stage (st : Stage) : Stage :=
  match st with
  | WriteToolVersions => WriteMiseToml
  | WriteMiseToml => CacheStage
  | CacheStage => SetupStage
  | SetupStage => PreInstallEnv
  | PreInstallEnv => TestStage
  | TestStage => InstallStage
  | InstallStage => ExportStage
  | ExportStage => Done
  | Done => Done
  | Failed => Failed
  | Crashed err => Crashed err
  end.

Definition is_final (st : Stage) : bool :=
  match st with
  | Done | Failed | Crashed _ => true
  | _ => false
  end.

(** The stages of a run in which nothing has been thrown. *)
Definition on_track (st : Stage) : bool :=
  match st with
  | Failed | Crashed _ => false
  | _ => true
  end.

(** The number of stages still to run. *)
Definition remaining (st : Stage) : nat :=
  match st with
  | WriteToolVersions => 8
  | WriteMiseToml => 7
  | CacheStage => 6
  | SetupStage => 5
  | PreInstallEnv => 4
  | TestStage => 3
  | InstallStage => 2
  | ExportStage => 1
  | Done | Failed | Crashed _ => 0
  end.

(** One transition: the current stage runs; when it returns the machine
    moves to the next stage, when it throws an [Error] the failure is
    recorded and the machine stops in [Failed], when it throws anything
    else the machine stops in [Crashed]. *)
Inductive step : Stage * Runner -> Stage * Runner -> Prop :=
| step_next st s s' :
    is_final st = false ->
    stage_action st s = (Ok tt, s') ->
    step (st, s) (next_stage st, s')
| step_fail st s name message s' :
    is_final st = false ->
    stage_action st s = (Throw (JsError name message), s') ->
    step (st, s) (Failed, with_exit_code 1 s' ⊕ [ErrorCmd message])
| step_crash st s descr s' :
    is_final st = false ->
    stage_action st s = (Throw (NonError descr), s') ->
    step (st, s) (Crashed (NonError descr), s').

(** The same transition as a function, for running the machine. *)
Definition step_fn (c : Stage * Runner) : Stage * Runner :=
  let '(st, s) := c in
  if is_final st then c
  else match stage_action st s with
       | (Ok _, s') => (next_stage st, s')
       | (Throw (JsError _ message), s') => (Failed, with_exit_code 1 s' ⊕ [ErrorCmd message])
       | (Throw (NonError descr), s') => (Crashed (NonError descr), s')
       end.

(** The machine run for [n] transitions. *)
Definition run_machine (n : nat) (c : Stage * Runner) : Stage * Runner :=
  Nat.iter n step_fn c.

(** Run the stages from [st] on, at most [n] of them. *)
Fixpoint pipeline (n : nat) (st : Stage) : act Runner unit :=
  match n with
  | O => ret tt
  | S n' => if is_final st then ret tt
            else stage_action st ;; pipeline n' (next_stage st)
  end.

(** Where the machine stops after the pipeline ended with this outcome. *)
Definition settle (p : res unit * Runner) : Stage * Runner :=
  match p with
  | (Ok _, s) => (Done, s)
  | (Throw (JsError _ message), s) => (Failed, with_exit_code 1 s ⊕ [ErrorCmd message])
  | (Throw (NonError descr), s) => (Crashed (NonError descr), s)
  end.

(** The stages that change [process.env]. *)
Definition changes_env (st : Stage) : bool :=
  match st with
  | SetupStage | PreInstallEnv | ExportStage => true
  | _ => false
  end.

(** The tool answers [mise env --json] with [out] whenever it is asked. *)
Definition prints_env (out : ExecOutput) : Prop :=
  forall r, exec_getExecOutput h "mise" ["env"; "--json"] (install_dir h) r = Ok out.

(** The configuration in which [run] ends: its stage tells how. *)
Definition outcome (r : res unit) (s : Runner) (c : Stage * Runner) : Prop :=
  c.2 = s /\
  match r with
  | Ok _ => c.1 = Done \/ c.1 = Failed
  | Throw err => c.1 = Crashed err
  end.

End Run.

(** The configurations of a machine started on the run [s0]: the journal
    extends that of [s0]; in [Failed] the exit code is 1 and one error
    command has been issued since [s0], the last event of the journal; in
    every other stage the exit code is that of [s0] and no error command
    has been issued. *)
Definition wf_config (s0 : Runner) (c : Stage * Runner) : bool :=
  bool_decide (journal s0 `prefix_of` journal c.2) &&
  match c.1 with
  | Failed =>
      bool_decide (exit_code c.2 = 1%Z) &&
      match error_messages (new_events s0 c.2), last (journal c.2) with
      | [m], Some (ErrorCmd m') => bool_decide (m = m')
      | _, _ => false
      end
  | _ =>
      bool_decide (exit_code c.2 = exit_code s0) &&
      bool_decide (error_messages (new_events s0 c.2) = [])
  end.

(** A workflow with the action's usual inputs. *)
Definition usual_inputs : gmap string string :=
  {[ "cache" := "true"; "cache_save" := "true"; "install" := "true";
     "cache_key_prefix" := "mise-v0"; "experimental" := "false" ]}.

#[export] Hint Unfold cache_stage install_stage main on_error run : act.

(** ** Lemmas *)

Section RunLemmas.
Context (h : Host).

(** *** Frame conditions of the stages and of the run *)

Lemma stage_grows st : Respects journal_grows (stage_action h st).
Proof.
  destruct st; simpl; unfold cache_stage, install_stage, testMise, miseInstall,
    getBooleanInput, setOutput, emit; solve_respects.
Qed.

Lemma stage_synced st : Respects (env_synced (delimiter h)) (stage_action h st).
Proof.
  destruct st; simpl; unfold cache_stage, install_stage, testMise, miseInstall,
    getBooleanInput, setOutput, emit; solve_respects.
Qed.

Lemma stage_exit_kept st : Respects exit_kept (stage_action h st).
Proof.
  destruct st; simpl; unfold cache_stage, install_stage, testMise, miseInstall,
    getBooleanInput, setOutput, emit; solve_respects.
Qed.

Lemma on_error_grows err : Respects journal_grows (on_error err).
Proof. destruct err; solve_frame. Qed.

Lemma on_error_synced err : Respects (env_synced (delimiter h)) (on_error err).
Proof. destruct err; solve_frame. Qed.

Lemma on_error_no_cache err : Respects (adds_only no_cache_event) (on_error err).
Proof. destruct err; solve_frame. Qed.

Lemma on_error_quiet err : Respects quiet (on_error err).
Proof. destruct err; solve_frame. Qed.

(** *** The pipeline as an iteration over the stages *)

Lemma main_pipeline : main h ≡ pipeline h 8 WriteToolVersions.
Proof.
  intros s. unfold main. simpl. unfold bind, ret.
  repeat (case_match; simplify_eq; try done).
  match goal with |- (Ok ?a, _) = _ => by destruct a end.
Qed.

(** A frame condition of every stage is a frame condition of the whole
    pipeline. *)
Lemma pipeline_respects (R : relation Runner) `{!PreOrder R} n st :
  (forall st, Respects R (stage_action h st)) -> Respects R (pipeline h n st).
Proof.
  intros Hst. revert st. induction n as [|n IH]; intros st; simpl; [apply ret_respects; apply _|].
  destruct (is_final st); [apply ret_respects; apply _|].
  apply bind_respects; [apply _ | apply Hst | intros _; apply IH].
Qed.

Lemma main_respects (R : relation Runner) `{!PreOrder R} :
  (forall st, Respects R (stage_action h st)) -> Respects R (main h).
Proof.
  intros Hst. eapply respects_equiv; [symmetry; apply main_pipeline|].
  by apply pipeline_respects.
Qed.

Lemma run_respects (R : relation Runner) `{!PreOrder R} :
  (forall st, Respects R (stage_action h st)) ->
  (forall err, Respects R (on_error err)) -> Respects R (run h).
Proof.
  intros Hst Herr. apply catch_respects; [apply _ | by apply main_respects | done].
Qed.

Lemma main_grows : Respects journal_grows (main h).
Proof. apply main_respects; [apply _ | apply stage_grows]. Qed.

Lemma main_exit_kept : Respects exit_kept (main h).
Proof. apply main_respects; [apply _ | apply stage_exit_kept]. Qed.

Lemma run_grows : Respects journal_grows (run h).
Proof. apply run_respects; [apply _ | apply stage_grows | apply on_error_grows]. Qed.

Lemma run_synced : Respects (env_synced (delimiter h)) (run h).
Proof. apply run_respects; [apply _ | apply stage_synced | apply on_error_synced]. Qed.

Lemma pipeline_final n st s : is_final st = true -> pipeline h n st s = (Ok tt, s).
Proof. intros Hf. destruct n; simpl; [done|]. by rewrite Hf. Qed.

Lemma remaining_next st : is_final st = false -> remaining st = S (remaining (next_stage st)).
Proof. by destruct st. Qed.

Lemma remaining_final st : remaining st = 0 <-> is_final st = true.
Proof. by destruct st. Qed.

Lemma remaining_pos st : is_final st = false -> 1 <= remaining st.
Proof. destruct st; simpl; (done || lia). Qed.

Lemma settle_final p : is_final (settle p).1 = true.
Proof. by destruct p as [[[]|[]] s]. Qed.

(** From a stage that is not final, the machine reaches the settled
    outcome of the pipeline in at most [remaining st] transitions. *)
Lemma machine_runs_pipeline n st s :
  is_final st = false -> remaining st <= n ->
  exists k, k <= remaining st /\ nsteps (step h) k (st, s) (settle (pipeline h n st s)).
Proof.
  revert st s. induction n as [|n IH]; intros st s Hst Hn.
  { apply Nat.le_0_r, remaining_final in Hn. congruence. }
  simpl. rewrite Hst. unfold bind.
  destruct (stage_action h st s) as [[[]|[name message|descr]] s1] eqn:Hact.
  - destruct (is_final (next_stage st)) eqn:Hnext.
    + rewrite pipeline_final by done. exists 1. split; [by apply remaining_pos|].
      apply nsteps_once. simpl. replace Done with (next_stage st) by (by destruct st).
      by apply step_next.
    + rewrite (remaining_next st Hst) in *.
      destruct (IH (next_stage st) s1 Hnext) as (k & Hk & Hsteps); [lia|].
      exists (S k). split; [lia|]. eapply nsteps_l; [|exact Hsteps]. by apply step_next.
  - exists 1. split; [by apply remaining_pos|]. apply nsteps_once. by eapply step_fail.
  - exists 1. split; [by apply remaining_pos|]. apply nsteps_once. by eapply step_crash.
Qed.

(** [run] ends where the settled outcome of [main] says. *)
Lemma run_settles s :
  outcome (result_of (run h) s) (state_of (run h) s) (settle (main h s)).
Proof.
  unfold outcome, result_of, state_of, run, catch.
  destruct (main h s) as [[[]|[name message|descr]] s1]; simpl; auto.
Qed.

Lemma step_deterministic c c1 c2 : step h c c1 -> step h c c2 -> c1 = c2.
Proof. intros H1 H2. destruct H1; inversion H2; congruence. Qed.

Lemma step_not_final st s c : step h (st, s) c -> is_final st = false.
Proof. by inversion 1. Qed.

Lemma step_fn_step st s : is_final st = false -> step h (st, s) (step_fn h (st, s)).
Proof.
  intros Hst. unfold step_fn. rewrite Hst.
  destruct (stage_action h st s) as [[[]|[name message|descr]] s1] eqn:Hact;
    [by apply step_next | by eapply step_fail | by eapply step_crash].
Qed.

(** A transition extends the journal and keeps the environment in step
    with the file commands. *)
Lemma step_invariant c c' :
  step h c c' -> journal_grows c.2 c'.2 /\ env_synced (delimiter h) c.2 c'.2.
Proof.
  intros Hstep. destruct Hstep as [st s s' _ Hact|st s name message s' _ Hact|st s descr s' _ Hact];
    simpl; pose proof (stage_grows st s) as Hg; pose proof (stage_synced st s) as He;
    unfold state_of in Hg, He; rewrite Hact in Hg, He; simpl in Hg, He.
  - done.
  - split.
    + etrans; [exact Hg|]. etrans; [apply with_exit_code_grows|apply log_grows].
    + etrans; [exact He|]. etrans; [apply with_exit_code_synced|].
      apply log_synced. by repeat constructor.
  - done.
Qed.

(** *** The machine as a function *)

Lemma step_fn_final c : is_final c.1 = true -> step_fn h c = c.
Proof. destruct c as [st s]. simpl. by intros ->. Qed.

Lemma run_machine_final n c : is_final c.1 = true -> run_machine h n c = c.
Proof.
  intros Hc. unfold run_machine. induction n as [|n IH]; [done|].
  by rewrite Nat.iter_succ, IH, step_fn_final.
Qed.

Lemma step_fn_settle st s :
  is_final st = false ->
  step_fn h (st, s) =
    match stage_action h st s with
    | (Ok _, s') => (next_stage st, s')
    | p => settle p
    end.
Proof.
  intros Hst. unfold step_fn. rewrite Hst.
  by destruct (stage_action h st s) as [[[]|[name message|descr]] s1].
Qed.

(** Iterating the transition function as often as there are stages left
    computes the settled outcome of the pipeline. *)
Lemma run_machine_pipeline n st s :
  is_final st = false -> remaining st <= n ->
  run_machine h n (st, s) = settle (pipeline h n st s).
Proof.
  revert st s. induction n as [|n IH]; intros st s Hst Hn.
  { apply Nat.le_0_r, remaining_final in Hn. congruence. }
  unfold run_machine. rewrite Nat.iter_succ_r, (step_fn_settle _ _ Hst).
  simpl. rewrite Hst. unfold bind.
  destruct (stage_action h st s) as [[[]|[name message|descr]] s1]; try (by apply run_machine_final).
  destruct (is_final (next_stage st)) eqn:Hnext.
  - rewrite pipeline_final by done. fold (run_machine h n (next_stage st, s1)).
    rewrite run_machine_final by done. by destruct st.
  - apply IH; [done|]. rewrite (remaining_next st Hst) in Hn. lia.
Qed.

(** The transition function takes exactly the transitions of [step]. *)
Lemma step_fn_iff c c' : step h c c' <-> is_final c.1 = false /\ step_fn h c = c'.
Proof.
  destruct c as [st s]. split.
  - intros Hs. pose proof (step_not_final _ _ _ Hs) as Hf. split; [done|].
    eapply step_deterministic; [by apply step_fn_step | exact Hs].
  - intros [Hf <-]. by apply step_fn_step.
Qed.

(** Running the machine only takes transitions of [step]. *)
Lemma run_machine_reachable n c : rtc (step h) c (run_machine h n c).
Proof.
  unfold run_machine. induction n as [|n IH]; [done|]. rewrite Nat.iter_succ.
  destruct (is_final (Nat.iter n (step_fn h) c).1) eqn:Hf.
  - by rewrite step_fn_final.
  - eapply rtc_r; [exact IH|]. by apply step_fn_iff.
Qed.

(** *** Well-formed configurations *)

Lemma stage_no_error st : Respects (adds_only no_error_event) (stage_action h st).
Proof.
  destruct st; simpl; unfold cache_stage, install_stage, testMise, miseInstall,
    getBooleanInput, setOutput, emit; solve_frame.
Qed.

Lemma wf_config_initial st s : st <> Failed -> wf_config s (st, s) = true.
Proof.
  intros Hst. unfold wf_config. cbn [fst snd].
  rewrite new_events_refl, !bool_decide_eq_true_2 by done. by destruct st.
Qed.

(** What a stage that has run leaves of a well-formed configuration. *)
Lemma stage_keeps_wf s0 st s r s' :
  is_final st = false -> wf_config s0 (st, s) = true ->
  stage_action h st s = (r, s') ->
  journal_grows s0 s' /\ exit_code s' = exit_code s0 /\
  error_messages (new_events s0 s') = [].
Proof.
  intros Hst Hwf Hact. unfold wf_config in Hwf. cbn [fst snd] in Hwf.
  assert (journal_grows s0 s /\ exit_code s = exit_code s0 /\
          error_messages (new_events s0 s) = []) as (Hg & He & Hm).
  { destruct st; try done;
      by apply andb_prop in Hwf as [?%bool_decide_eq_true
                                     [?%bool_decide_eq_true ?%bool_decide_eq_true]%andb_prop]. }
  pose proof (respects_run _ _ _ _ _ (stage_grows st) Hact) as Hg'.
  pose proof (respects_run _ _ _ _ _ (stage_exit_kept st) Hact) as He'.
  pose proof (respects_run _ _ _ _ _ (stage_no_error st) Hact) as Hm'.
  split; [by etrans|]. split; [by rewrite He'|].
  rewrite (new_events_trans s0 s s'), error_messages_app, Hm by done.
  by apply error_messages_none, adds_only_new_events.
Qed.

(** Every transition preserves well-formedness. *)
Lemma step_keeps_wf s0 c c' : wf_config s0 c = true -> step h c c' -> wf_config s0 c' = true.
Proof.
  intros Hwf Hstep.
  destruct Hstep as [st s s' Hst Hact|st s name message s' Hst Hact|st s descr s' Hst Hact];
    destruct (stage_keeps_wf _ _ _ _ _ Hst Hwf Hact) as (Hg & He & Hm);
    unfold wf_config; cbn [fst snd].
  - rewrite He, Hm, !bool_decide_eq_true_2 by done. by destruct st.
  - rewrite bool_decide_eq_true_2 by (etrans; [exact Hg|by apply prefix_app_r]).
    rewrite (new_events_trans s0 s'), error_messages_app, Hm;
      [|done|etrans; [apply with_exit_code_grows|apply log_grows]].
    rewrite log_with_exit_code, new_events_with_exit_code, new_events_log. simpl.
    by rewrite last_snoc, !bool_decide_eq_true_2.
  - by rewrite He, Hm, !bool_decide_eq_true_2.
Qed.

(** Every configuration the machine reaches from a stage other than
    [Failed] is well-formed. *)
Lemma reachable_wf s0 st c :
  st <> Failed -> rtc (step h) (st, s0) c -> wf_config s0 c = true.
Proof.
  intros Hst. apply (rtc_ind_r (fun c => wf_config s0 c = true));
    [by apply wf_config_initial | intros c1 c2 _ Hstep IH; by eapply step_keeps_wf].
Qed.

(** *** With the cache disabled *)

Lemma cache_stage_eq s :
  cache_stage h s =
    match parse_boolean (getInput h "cache") with
    | Some true => restoreMiseCache h s
    | Some false => (Ok tt, s ⊕ [OutputCmd "cache-hit" "false"])
    | None => (Throw (boolean_input_error "cache"), s)
    end.
Proof.
  unfold cache_stage, getBooleanInput.
  by destruct (parse_boolean (getInput h "cache")) as [[]|].
Qed.

Lemma install_stage_eq s :
  install_stage h s =
    match parse_boolean (getInput h "install") with
    | Some true => (miseInstall h ;; ret tt) s
    | Some false => (Ok tt, s)
    | None => (Throw (boolean_input_error "install"), s)
    end.
Proof.
  unfold install_stage, getBooleanInput.
  by destruct (parse_boolean (getInput h "install")) as [[]|].
Qed.

Lemma stage_no_cache st :
  parse_boolean (getInput h "cache") <> Some true ->
  Respects (adds_only no_cache_event) (stage_action h st).
Proof.
  intros Hc. destruct st; simpl.
  3: { intros s. unfold state_of. rewrite cache_stage_eq.
       destruct (parse_boolean (getInput h "cache")) as [[]|]; [done| |]; simpl.
       - by apply log_adds_only.
       - reflexivity. }
  all: unfold install_stage, testMise, miseInstall, getBooleanInput; solve_frame.
Qed.

(** A pipeline that returned ran its first stage, which returned, and
    then the rest. *)
Lemma pipeline_step_ok n st s s' :
  is_final st = false ->
  pipeline h (S n) st s = (Ok tt, s') ->
  exists s1, stage_action h st s = (Ok tt, s1) /\ pipeline h n (next_stage st) s1 = (Ok tt, s').
Proof. simpl. intros -> ([] & s1 & Hact & Hrest)%bind_inv_ok. eauto. Qed.

(** *** What the stages do to the environment *)

Lemma stage_env_kept st :
  changes_env st = false -> Respects env_kept (stage_action h st).
Proof.
  destruct st; try done; intros _; simpl;
    unfold cache_stage, install_stage, testMise, miseInstall, getBooleanInput; solve_frame.
Qed.

Lemma stage_env_kept_run st s r s' :
  changes_env st = false -> stage_action h st s = (r, s') -> env s' = env s.
Proof. intros Hst Hact. by eapply (respects_run env_kept), Hact; apply stage_env_kept. Qed.

Lemma setup_env s s' :
  stage_action h SetupStage s = (Ok tt, s') ->
  env s' = <["PATH" := miseBinDir h +:+ String (delimiter h) (env_PATH s)]> (env s).
Proof.
  simpl. intros Hs.
  destruct (setupMise_cases h (getInput h "version") s)
    as [[t E]|[[t E]|[[t E]|E]]]; rewrite E in Hs; try done. by injection Hs as <-.
Qed.

End RunLemmas.

(** ** Theorems *)

Section RunTheorems.
Context (h : Host).

Lemma machine_reaches_settled s :
  exists k, k <= 8 /\
    nsteps (step h) k (WriteToolVersions, s) (settle (main h s)).
Proof.
  rewrite (main_pipeline h s).
  by apply (machine_runs_pipeline h 8 WriteToolVersions s).
Qed.

Lemma final_irreducible c c' : is_final c.1 = true -> ~ step h c c'.
Proof. destruct c as [st s]. intros Hf Hs%step_not_final. simpl in Hf. congruence. Qed.

(** Two executions of the machine from the same configuration that both
    end in a final stage end in the same configuration. *)
Lemma final_unique c c1 c2 :
  rtc (step h) c c1 -> is_final c1.1 = true ->
  rtc (step h) c c2 -> is_final c2.1 = true -> c1 = c2.
Proof.
  intros H1 Hf1 H2 Hf2. induction H1 as [c|c c' c1 Hstep _ IH] in c2, H2, Hf1, Hf2 |- *.
  - destruct H2 as [|c c' c2 Hstep _]; [done|]. by apply final_irreducible in Hstep.
  - destruct H2 as [|c c'' c2 Hstep' H2]; [by apply final_irreducible in Hstep|].
    rewrite (step_deterministic h _ _ _ Hstep' Hstep) in H2. by apply IH.
Qed.

(** The machine and the pipeline run the same stages: when the machine
    has reached a stage that is not final, what was left of the pipeline
    is the pipeline from that stage on. *)
Lemma reachable_pipeline c c' :
  rtc (step h) c c' -> is_final c'.1 = false ->
  pipeline h (remaining c.1) c.1 c.2 = pipeline h (remaining c'.1) c'.1 c'.2.
Proof.
  induction 1 as [c|c c1 c' Hstep Hrest IH]; [done|]. intros Hf. rewrite <- IH by done.
  assert (is_final c1.1 = false) as Hf1.
  { destruct Hrest as [|c1 c2 c' Hstep' _]; [done|]. destruct c1. by eapply step_not_final. }
  destruct Hstep as [st s s' Hst Hact| |]; [|done..].
  cbn [fst snd]. rewrite (remaining_next st Hst). simpl. rewrite Hst. unfold bind.
  by rewrite Hact.
Qed.

(** The pipeline stops at the first stage that throws: when the machine
    has reached a stage and that stage throws, the body of [run] throws
    the same value and leaves the run as that stage left it. *)
Lemma failure_stops_main s0 st s t s' :
  rtc (step h) (WriteToolVersions, s0) (st, s) -> is_final st = false ->
  stage_action h st s = (Throw t, s') -> main h s0 = (Throw t, s').
Proof.
  intros Hr Hf Hact. rewrite (main_pipeline h s0).
  etrans; [exact (reachable_pipeline _ _ Hr Hf)|]. cbn [fst snd].
  rewrite (remaining_next st Hf). simpl. rewrite Hf. unfold bind. by rewrite Hact.
Qed.

(** The journal of a configuration the machine reaches extends the
    journal it started from. *)
Lemma reachable_grows st0 s0 c : rtc (step h) (st0, s0) c -> journal_grows s0 c.2.
Proof.
  apply (rtc_ind_r (fun c => journal_grows s0 c.2)); [done|].
  intros c1 c2 _ Hstep IH. etrans; [exact IH|]. exact (proj1 (step_invariant h _ _ Hstep)).
Qed.

(** Invariants of the stage boundaries: what holds when the machine
    starts and is carried over every stage that returns, holds at every
    stage the machine reaches without a throw. *)
Lemma reachable_boundary (Q : Stage -> Runner -> Prop) st0 s0 c :
  (forall st s s', is_final st = false -> Q st s ->
                   stage_action h st s = (Ok tt, s') -> Q (next_stage st) s') ->
  Q st0 s0 -> rtc (step h) (st0, s0) c -> on_track c.1 = true -> Q c.1 c.2.
Proof.
  intros Hstage H0. apply (rtc_ind_r (fun c => on_track c.1 = true -> Q c.1 c.2)); [done|].
  intros c1 c2 _ Hstep IH. destruct Hstep as [st s s' Hst Hact| |]; [|done..].
  intros _. eapply Hstage; [done| |done]. apply IH. by destruct st.
Qed.

(** A run whose body returns has taken the machine to [Done]. *)
Lemma main_reaches_done s s' :
  main h s = (Ok tt, s') -> rtc (step h) (WriteToolVersions, s) (Done, s').
Proof.
  intros Hm. destruct (machine_reaches_settled s) as (k & _ & Hk%rtc_nsteps_2).
  by rewrite Hm in Hk.
Qed.

(** C1: [run] refines the stage machine: started on the first stage, the
    machine reaches a final stage whose run is the run [run] leaves, and
    that stage is [Done] or [Failed] when [run] returns and [Crashed err]
    when [run] throws [err]. *)
Theorem run_refines_machine s :
  exists c,
    rtc (step h) (WriteToolVersions, s) c /\
    is_final c.1 = true /\
    outcome (result_of (run h) s) (state_of (run h) s) c.
Proof.
  exists (settle (main h s)). destruct (machine_reaches_settled s) as (k & _ & Hk).
  split; [by eapply rtc_nsteps_2|]. split; [apply settle_final | apply run_settles].
Qed.

(** C31: conversely, every final configuration the machine can reach from
    the first stage is the outcome of [run]: the machine has no other
    behaviour than the one [run] has. *)
Theorem machine_final_is_run_outcome s c :
  rtc (step h) (WriteToolVersions, s) c ->
  is_final c.1 = true ->
  outcome (result_of (run h) s) (state_of (run h) s) c.
Proof.
  intros Hc Hf. destruct (machine_reaches_settled s) as (k & _ & Hk).
  rewrite (final_unique _ _ _ Hc Hf (rtc_nsteps_2 _ _ _ Hk) (settle_final _)).
  apply run_settles.
Qed.

(** The machine is deterministic and cannot be stuck before a final
    stage: a configuration whose stage is not final has exactly one
    successor, and a final one has none. *)
Lemma machine_deterministic st s :
  if is_final st then forall c, ~ step h (st, s) c
  else exists c, step h (st, s) c /\ forall c', step h (st, s) c' -> c' = c.
Proof.
  destruct (is_final st) eqn:Hst.
  - intros c. by apply final_irreducible.
  - exists (step_fn h (st, s)). split; [by apply step_fn_step|].
    intros c' Hc'. eapply step_deterministic; [exact Hc' | by apply step_fn_step].
Qed.

(** C32: nothing the run did is ever undone, on any path of the machine:
    in every configuration reachable from [(st0, s0)] the journal extends
    the journal of [s0], and the environment is the environment of [s0]
    with the file commands issued since then applied in order. *)
Theorem reachable_invariant st0 s0 st s :
  rtc (step h) (st0, s0) (st, s) ->
  journal_grows s0 s /\ env_synced (delimiter h) s0 s.
Proof.
  intros Hr. remember (st0, s0) as c0 eqn:E0. remember (st, s) as c eqn:E.
  revert st0 s0 E0 st s E. induction Hr as [c|c c' c'' Hstep _ IH]; intros st0 s0 -> st s E.
  - injection E as <- <-. split; reflexivity.
  - destruct c' as [st1 s1]. destruct (step_invariant h _ _ Hstep) as [Hg He].
    destruct (IH st1 s1 eq_refl st s E) as [Hg' He']. simpl in *.
    split; etrans; eauto.
Qed.

(** [run] itself only appends to the journal and changes [process.env]
    only through file commands, whether it returns, records a failure or
    rethrows: the effects of the stages that ran before an error are all
    kept. *)
Lemma run_never_rolls_back s :
  journal_grows s (state_of (run h) s) /\
  env_synced (delimiter h) s (state_of (run h) s).
Proof.
  split; [apply run_grows | apply run_synced].
Qed.

(** C6: when the machine has reached a stage and that stage throws an
    [Error], no later stage runs: the body of [run] throws that error,
    and [run] returns normally after setting the exit code to 1 and
    issuing the error command with the message of the error; the run is
    otherwise as the failing stage left it. *)
Theorem run_reports_error s0 st s name message s' :
  rtc (step h) (WriteToolVersions, s0) (st, s) ->
  is_final st = false ->
  stage_action h st s = (Throw (JsError name message), s') ->
  main h s0 = (Throw (JsError name message), s') /\
  run h s0 = (Ok tt, with_exit_code 1 (s' ⊕ [ErrorCmd message])).
Proof.
  intros Hr Hf Hact. pose proof (failure_stops_main _ _ _ _ _ Hr Hf Hact) as Hm.
  split; [done|]. unfold run, catch. by rewrite Hm.
Qed.

(** When a stage throws a value that is not an [Error], [run]
    rethrows it: no failure is recorded and the exit code is unchanged. *)
Lemma run_rethrows_non_error s descr s1 :
  main h s = (Throw (NonError descr), s1) ->
  run h s = (Throw (NonError descr), s1).
Proof. intros Hm. unfold run, catch. by rewrite Hm. Qed.

(** The exit code after [run] is 1 exactly when a stage threw an
    [Error]; in every other case it is what it was. *)
Lemma run_exit_code s :
  exit_code (state_of (run h) s) =
    match result_of (main h) s with
    | Throw (JsError _ _) => 1%Z
    | _ => exit_code s
    end.
Proof.
  pose proof (main_exit_kept h s) as Hk. unfold run, catch, result_of, state_of in *.
  by destruct (main h s) as [[[]|[name message|descr]] s1].
Qed.

(** C26: unless the input [cache] is true, a run hashes no file, calls the
    cache service never and saves no state for the post step, whichever
    way it ends. *)
Theorem run_without_cache s :
  parse_boolean (getInput h "cache") <> Some true ->
  forallb no_cache_event (new_events s (state_of (run h) s)) = true.
Proof.
  intros Hc. apply adds_only_new_events, run_respects;
    [apply _ | intros st; by apply stage_no_cache | apply on_error_no_cache].
Qed.

(** C21: how the process ends, on every outcome of the body of [run].
    When every stage returns the process exits with the exit code it
    started with; when a stage throws an [Error] it exits with code 1
    after the error command carrying the message, the run being otherwise
    as the failing stage left it; when a stage throws anything else the
    promise of [run()] rejects with that value, no failure is recorded
    and the exit code is untouched. *)
Theorem entry_endings s :
  match main h s with
  | (Ok _, s1) => entry h s = (Exits (exit_code s), s1)
  | (Throw (JsError _ message), s1) =>
      entry h s = (Exits 1, with_exit_code 1 (s1 ⊕ [ErrorCmd message]))
  | (Throw (NonError descr), s1) =>
      entry h s = (Rejects (NonError descr), s1) /\ exit_code s1 = exit_code s
  end.
Proof.
  pose proof (main_exit_kept h s) as Hk. unfold entry, run, catch, state_of in *.
  destruct (main h s) as [[[]|[name message|descr]] s1]; simpl in *; by rewrite ?Hk.
Qed.

(** C18: configurations stay well-formed.  The first configuration is
    well-formed, every transition preserves well-formedness, and so every
    configuration the machine reaches is well-formed: the journal extends
    the initial one; in [Failed] the exit code is 1 and exactly one error
    command was issued, as the last event; in every other stage, [Done]
    and [Crashed] included, the exit code is untouched and no error
    command was issued. *)
Theorem machine_well_formed s0 :
  wf_config s0 (WriteToolVersions, s0) = true /\
  (forall c c', wf_config s0 c = true -> step h c c' -> wf_config s0 c' = true) /\
  (forall c, rtc (step h) (WriteToolVersions, s0) c -> wf_config s0 c = true).
Proof.
  split; [by apply wf_config_initial|]. split; [apply step_keeps_wf|].
  intros c. by apply reachable_wf.
Qed.

(** With the input [cache] set to false, the cache stage only sets
    the output [cache-hit] to [false]: nothing is hashed, no state is
    saved and the cache service is not called. *)
Lemma cache_stage_disabled s :
  parse_boolean (getInput h "cache") = Some false ->
  cache_stage h s = (Ok tt, s ⊕ [OutputCmd "cache-hit" "false"]).
Proof. intros Hc. unfold cache_stage, getBooleanInput. rewrite Hc. by act_run. Qed.

End RunTheorems.

(** ** Witnesses *)

Lemma machine_final_is_run_outcome_witness :
  let h := sample_host usual_inputs example_json None in
  let s := initial_runner {[ "PATH" := "/usr/bin" ]} in
  outcome (result_of (run h) s) (state_of (run h) s) (settle (main h s)).
Proof.
  intros h s. apply machine_final_is_run_outcome.
  - destruct (machine_reaches_settled h s) as (k & _ & Hk). by eapply rtc_nsteps_2.
  - apply settle_final.
Defined.

Lemma reachable_invariant_witness :
  let h := sample_host usual_inputs example_json None in
  let s := initial_runner {[ "PATH" := "/usr/bin" ]} in
  let c := run_machine h 8 (WriteToolVersions, s) in
  journal_grows s c.2 /\ env_synced (delimiter h) s c.2.
Proof.
  intros h s c. pose proof (run_machine_reachable h 8 (WriteToolVersions, s)) as Hr.
  fold c in Hr. clearbody c. destruct c as [st s'].
  exact (reachable_invariant h WriteToolVersions s st s' Hr).
Defined.

Lemma run_reports_error_witness :
  let h := exiting "curl" 22 (sample_host usual_inputs example_json None) in
  let s := (run_machine h 3 (WriteToolVersions, initial_runner ∅)).2 in
  let s' := state_of (stage_action h SetupStage) s in
  run h (initial_runner ∅) =
    (Ok tt, with_exit_code 1
              (s' ⊕ [ErrorCmd "The process '/usr/bin/curl' failed with exit code 22"])).
Proof.
  intros h s s'.
  apply (run_reports_error h (initial_runner ∅) SetupStage s "Error").
  - exact (run_machine_reachable h 3 _).
  - reflexivity.
  - by vm_compute.
Defined.

Example run_rethrows_non_error_sample :
  let h := failing_exec "chmod" (NonError "EPERM") (sample_host usual_inputs example_json None) in
  result_of (run h) (initial_runner ∅) = Throw (NonError "EPERM").
Proof.
  intros h. unfold result_of.
  erewrite (run_rethrows_non_error h (initial_runner ∅)); [done|by vm_compute].
Qed.

(** The machine run on a host whose download fails: it stops in [Failed]
    at the setup stage, well-formed. *)
Example run_machine_failing :
  let h := exiting "curl" 22 (sample_host usual_inputs example_json None) in
  let c := run_machine h 8 (WriteToolVersions, initial_runner ∅) in
  c = run_machine h 4 (WriteToolVersions, initial_runner ∅) /\
  c.1 = Failed /\ wf_config (initial_runner ∅) c = true /\
  wf_config (initial_runner ∅) (Done, c.2) = false.
Proof. by vm_compute. Qed.

Lemma run_without_cache_witness :
  let h := sample_host {[ "cache" := "false"; "install" := "true" ]} example_json None in
  let s := initial_runner {[ "PATH" := "/usr/bin" ]} in
  forallb no_cache_event (new_events s (state_of (run h) s)) = true.
Proof. intros h s. apply (run_without_cache h s). by vm_compute. Defined.

Example cache_stage_disabled_sample :
  let h := sample_host {[ "cache" := "false" ]} "{}" None in
  cache_stage h (initial_runner ∅) = (Ok tt, initial_runner ∅ ⊕ [OutputCmd "cache-hit" "false"]).
Proof. intros h. by apply cache_stage_disabled. Qed.

(** The three endings, on hosts whose download succeeds, fails with an
    [Error], and fails with a value that is not an [Error]. *)
Example entry_sample :
  let h := sample_host usual_inputs example_json None in
  let failing t := failing_exec "curl" t h in
  (entry h (initial_runner ∅)).1 = Exits 0 /\
  (entry (failing (JsError "Error" "exit code 22")) (initial_runner ∅)).1 = Exits 1 /\
  (entry (failing (NonError "EPERM")) (initial_runner ∅)).1 = Rejects (NonError "EPERM").
Proof. by vm_compute. Qed.

(** A whole run on the sample host: it succeeds, the variables of the
    bootstrap and of the tool are exported, and PATH holds the segments
    of the tool in reverse order before the directory of the binary. *)
Example run_sample :
  let h := sample_host usual_inputs example_json None in
  let s' := state_of (run h) (initial_runner {[ "PATH" := "/usr/bin" ]}) in
  result_of (run h) (initial_runner {[ "PATH" := "/usr/bin" ]}) = Ok tt /\
  exit_code s' = 0%Z /\
  env s' !! "PATH" = Some "/b:/a:/home/runner/.local/share/mise/bin:/usr/bin" /\
  env s' !! "FOO" = Some "bar" /\
  env s' !! "MISE_YES" = Some "1" /\
  calls (journal s') =
    [ HashFiles cache_patterns;
      RestoreCache ["/home/runner/.local/share/mise"] "mise-v0-linux-x64-0f1e2d";
      Mkdir "/home/runner/.local/share/mise/bin";
      Exec "curl" ["-fsSL"; "https://mise.jdx.dev/mise-latest-linux-x64"; "--output";
                   "/home/runner/.local/share/mise/bin/mise"];
      Exec "chmod" ["+x"; "/home/runner/.local/share/mise/bin/mise"];
      ExecOutputCall "mise" ["--version"] "/work";
      ExecOutputCall "mise" ["install"] "/work";
      ExecOutputCall "mise" ["env"; "--json"] "/work" ].
Proof. by vm_compute. Qed.
