(* ===== verification/Calls.v ===== *)
(** * Calls: the external calls of a run, in order

    Every file written, directory made, process started, hash computed
    and cache request is an event of the journal ([calls]).

    - [stage_calls], [main_calls], [pipeline_calls]: the external calls a
      stage, a whole run, and the stages from some stage on make when they
      return;
    - [calls_of]: the calls made are a prefix of such a list, and all of it
      on a return.

    Theorems: the external calls of a run are made in the order of the
    pipeline and stop at the first failure ([run_calls_in_order]); a run
    makes at most ten external calls, and at least five when every stage
    returns ([run_calls_bounded]). *)

From Stdlib Require Import Ascii ZArith.
From stdpp Require Import base option list strings gmap relations.
From S2P Require Import Prelude JsString Json Toolkit Platform.
From S2P Require Import ConfigWriter Installer Cache Invoker Exporter Run.

(** ** Definitions *)

Section Calls.
Context (h : Host).

(** The external calls a stage makes when it returns; [fh] is the hash
    of the configuration files. *)
Definition stage_calls (st : Stage) (fh : string) : list Event :=
  match st with
  | WriteToolVersions =>
      let body := getInput h "tool_versions" in
      if truthy body then [WriteFile ".tool-versions" body] else []
  | WriteMiseToml =>
      let body := getInput h "mise_toml" in
      if truthy body then [WriteFile ".mise.toml" body] else []
  | CacheStage =>
      match parse_boolean (getInput h "cache") with
      | Some true => [HashFiles cache_patterns; RestoreCache [miseDir h] (cache_key h fh)]
      | _ => []
      end
  | SetupStage => setup_calls h (getInput h "version")
  | PreInstallEnv => []
  | TestStage => [ExecOutputCall "mise" ["--version"] (install_dir h)]
  | InstallStage =>
      match parse_boolean (getInput h "install") with
      | Some true => [ExecOutputCall "mise" ["install"] (install_dir h)]
      | _ => []
      end
  | ExportStage => [ExecOutputCall "mise" ["env"; "--json"] (install_dir h)]
  | Done | Failed | Crashed _ => []
  end.

(** The external calls of a run in which every stage returns, in order. *)
Definition main_calls (fh : string) : list Event :=
  stage_calls WriteToolVersions fh ++ stage_calls WriteMiseToml fh ++
  stage_calls CacheStage fh ++ stage_calls SetupStage fh ++
  stage_calls PreInstallEnv fh ++ stage_calls TestStage fh ++
  stage_calls InstallStage fh ++ stage_calls ExportStage fh.

(** The same for the stages from [st] on, at most [n] of them. *)
Fixpoint pipeline_calls (n : nat) (st : Stage) (fh : string) : list Event :=
  match n with
  | O => []
  | S n' => if is_final st then []
            else stage_calls st fh ++ pipeline_calls n' (next_stage st) fh
  end.

(** The calls made are a prefix of [l], and all of [l] when the action
    returned. *)
Definition calls_of (l : list Event) (s : Runner) (r : res unit) (s' : Runner) : Prop :=
  calls (new_events s s') `prefix_of` l /\ (r = Ok tt -> calls (new_events s s') = l).

End Calls.

(** ** Lemmas *)

Section CallsLemmas.
Context (h : Host).

Lemma calls_new_events_trans s1 s2 s3 :
  journal_grows s1 s2 -> journal_grows s2 s3 ->
  calls (new_events s1 s3) = calls (new_events s1 s2) ++ calls (new_events s2 s3).
Proof. intros H12 H23. by rewrite (new_events_trans s1 s2 s3), calls_app. Qed.

Lemma calls_of_exact l s r s' : calls (new_events s s') = l -> calls_of l s r s'.
Proof. by intros <-. Qed.

Lemma calls_of_none s r : calls_of [] s r s.
Proof. apply calls_of_exact. by rewrite new_events_refl. Qed.

Lemma calls_of_quiet s r s' : quiet s s' -> calls_of [] s r s'.
Proof. intros Hq. by apply calls_of_exact, quiet_calls. Qed.

Lemma calls_of_throw l l' s t s' :
  calls (new_events s s') = l -> calls_of (l ++ l') s (Throw t) s'.
Proof. intros <-. split; [by apply prefix_app_r|done]. Qed.

Lemma writeFile_calls p body s r s' :
  writeFile h p body s = (r, s') -> calls (new_events s s') = [WriteFile p body].
Proof.
  destruct (fs_writeFile h p body (s ⊕ writeFile_events p body)) as [[]|t] eqn:E.
  - rewrite (writeFile_ok _ _ _ _ E). intros [= _ <-].
    by rewrite new_events_with_files, new_events_log.
  - rewrite (writeFile_throws _ _ _ _ _ E). intros [= _ <-]. by rewrite new_events_log.
Qed.

Lemma mise_calls args s r s' :
  mise h args s = (r, s') ->
  calls (new_events s s') = [ExecOutputCall "mise" args (install_dir h)].
Proof. rewrite mise_eq. intros [= _ <-]. by rewrite new_events_log. Qed.

Lemma mise_then_ret_calls args s r s' :
  (mise h args ;; ret tt) s = (r, s') ->
  calls (new_events s s') = [ExecOutputCall "mise" args (install_dir h)].
Proof.
  unfold bind. destruct (mise h args s) as [[out|t] s1] eqn:E; intros [= _ <-];
    by eapply mise_calls.
Qed.

Lemma setEnvVars_calls s r s' :
  setEnvVars h s = (r, s') ->
  calls (new_events s s') = [ExecOutputCall "mise" ["env"; "--json"] (install_dir h)].
Proof.
  unfold setEnvVars, miseEnv. unfold bind at 1. rewrite mise_eq.
  destruct (getExecOutput_result h _ _ _ _) as [out|t].
  - intros Hrest. set (s1 := s ⊕ _) in Hrest.
    rewrite (calls_new_events_trans s s1 s').
    + rewrite (quiet_calls s1 s'); [subst s1; by rewrite new_events_log|].
      eapply respects_run; [|exact Hrest]. solve_frame.
    + apply log_grows.
    + eapply respects_run; [|exact Hrest]. solve_frame.
  - intros [= _ <-]. by rewrite new_events_log.
Qed.

Lemma restoreMiseCache_calls s r s' :
  restoreMiseCache h s = (r, s') ->
  exists fh, calls_of [HashFiles cache_patterns; RestoreCache [miseDir h] (cache_key h fh)]
               s r s'.
Proof.
  destruct (restoreMiseCache_cases h s)
    as [[t ->]|(save & fh & _ & [[t ->]|(hit & tail & -> & Htail)])]; intros [= <- <-].
  - exists "". apply (calls_of_throw [_] [_]). by rewrite new_events_log.
  - exists fh. apply calls_of_exact. by rewrite new_events_log.
  - exists fh. apply calls_of_exact. rewrite new_events_log.
    assert (calls tail = []) as Ht.
    { induction Htail as [|e tail [k [-> | ->]] _ IH]; [done| |];
        unfold calls in *; by rewrite filter_cons_False. }
    unfold calls in *.
    repeat first [rewrite filter_cons_True by done | rewrite filter_cons_False by done].
    by rewrite Ht.
Qed.

Lemma setupMise_calls v s r s' :
  setupMise h v s = (r, s') -> calls_of (setup_calls h v) s r s'.
Proof.
  destruct (setupMise_cases h v s) as [[t ->]|[[t ->]|[[t ->]| -> ]]]; intros [= <- <-].
  - apply (calls_of_throw [_] [_; _]). by rewrite new_events_log.
  - apply (calls_of_throw [_; _] [_]). by rewrite new_events_log.
  - apply calls_of_exact. by rewrite new_events_log.
  - apply calls_of_exact. by rewrite new_events_with_env, new_events_log.
Qed.

(** The calls of a stage, whichever way it ends. *)
Lemma stage_calls_any st s r s' :
  stage_action h st s = (r, s') -> exists fh, calls_of (stage_calls h st fh) s r s'.
Proof.
  destruct st; simpl.
  - unfold setToolVersions. destruct (truthy _).
    + intros Hw. exists "". by eapply calls_of_exact, writeFile_calls.
    + intros [= <- <-]. exists "". apply calls_of_none.
  - unfold setMiseToml. destruct (truthy _).
    + intros Hw. exists "". by eapply calls_of_exact, writeFile_calls.
    + intros [= <- <-]. exists "". apply calls_of_none.
  - rewrite cache_stage_eq. destruct (parse_boolean _) as [[]|].
    + apply restoreMiseCache_calls.
    + intros [= <- <-]. exists "". apply calls_of_exact. by rewrite new_events_log.
    + intros [= <- <-]. exists "". apply calls_of_none.
  - intros Hs. exists "". by apply setupMise_calls.
  - intros Hs. exists "". apply calls_of_quiet.
    eapply respects_run; [apply setEnvVarsPreInstall_quiet | exact Hs].
  - intros Hs. exists "". by eapply calls_of_exact, mise_then_ret_calls.
  - rewrite install_stage_eq. destruct (parse_boolean _) as [[]|].
    + intros Hs. exists "". by eapply calls_of_exact, mise_then_ret_calls.
    + intros [= <- <-]. exists "". apply calls_of_none.
    + intros [= <- <-]. exists "". apply calls_of_none.
  - intros Hs. exists "". by eapply calls_of_exact, setEnvVars_calls.
  - intros [= <- <-]. exists "". apply calls_of_none.
  - intros [= <- <-]. exists "". apply calls_of_none.
  - intros [= <- <-]. exists "". apply calls_of_none.
Qed.

Lemma stage_calls_fh st fh fh' : st <> CacheStage -> stage_calls h st fh = stage_calls h st fh'.
Proof. by destruct st. Qed.

Lemma pipeline_calls_fh n st fh fh' :
  remaining st < 6 -> pipeline_calls h n st fh = pipeline_calls h n st fh'.
Proof.
  revert st. induction n as [|n IH]; intros st Hst; simpl; [done|].
  destruct (is_final st) eqn:E; [done|].
  rewrite (stage_calls_fh st fh fh'), (IH (next_stage st)); [done| |].
  - rewrite (remaining_next st E) in Hst. lia.
  - intros ->. simpl in Hst. lia.
Qed.

(** The calls of a stage followed by the calls of the rest, for one hash. *)
Lemma pipeline_calls_cons n st fh1 fh2 :
  exists fh, stage_calls h st fh = stage_calls h st fh1 /\
             pipeline_calls h n (next_stage st) fh = pipeline_calls h n (next_stage st) fh2.
Proof.
  destruct (decide (st = CacheStage)) as [->|Hst].
  - exists fh1. split; [done|]. apply pipeline_calls_fh. simpl. lia.
  - exists fh2. split; [by apply stage_calls_fh|done].
Qed.

Lemma main_calls_pipeline fh : main_calls h fh = pipeline_calls h 8 WriteToolVersions fh.
Proof. unfold main_calls. cbn [pipeline_calls is_final next_stage]. by rewrite app_nil_r. Qed.

(** The calls of the pipeline, whichever way it ends: the stages that
    returned made all their calls, the stage that threw made the first of
    its calls, and no later stage made any. *)
Lemma pipeline_calls_any n st s r s' :
  pipeline h n st s = (r, s') ->
  exists fh, calls_of (pipeline_calls h n st fh) s r s'.
Proof.
  revert st s. induction n as [|n IH]; intros st s; simpl.
  { intros [= <- <-]. exists "". apply calls_of_none. }
  destruct (is_final st) eqn:Hst.
  { intros [= <- <-]. exists "". apply calls_of_none. }
  unfold bind. destruct (stage_action h st s) as [[[]|t] s1] eqn:Hact.
  - intros Hrest. destruct (stage_calls_any _ _ _ _ Hact) as (fh1 & _ & H1).
    destruct (IH _ _ Hrest) as (fh2 & H2p & H2e).
    destruct (pipeline_calls_cons n st fh1 fh2) as (fh & E1 & E2). exists fh.
    rewrite E1, E2. unfold calls_of. rewrite (calls_new_events_trans s s1 s'), H1; [|done|..].
    + split; [by apply prefix_app|]. intros Hr. by rewrite H2e.
    + eapply respects_run; [apply stage_grows | exact Hact].
    + eapply respects_run; [|exact Hrest]. apply pipeline_respects; [apply _|apply stage_grows].
  - intros [= <- <-]. destruct (stage_calls_any _ _ _ _ Hact) as (fh1 & H1 & _).
    exists fh1. split; [by apply prefix_app_r|done].
Qed.

(** The pipeline makes between five and ten external calls when every
    stage returns. *)
Lemma main_calls_length fh : 5 <= length (main_calls h fh) <= 10.
Proof.
  unfold main_calls, stage_calls, setup_calls. rewrite !length_app.
  repeat case_match; simpl; lia.
Qed.

End CallsLemmas.

(** ** Theorems *)

Section CallsTheorems.
Context (h : Host).

(** The calls of [run], whichever way it ends: the [catch] makes none. *)
Lemma run_calls_any s :
  exists fh, calls_of (main_calls h fh) s (result_of (main h) s) (state_of (run h) s).
Proof.
  unfold result_of, state_of, run, catch.
  destruct (main h s) as [r s1] eqn:Hmain. pose proof Hmain as Hp.
  rewrite (main_pipeline h s) in Hp. apply pipeline_calls_any in Hp as (fh & Hpre & Heq).
  exists fh. rewrite main_calls_pipeline. destruct r as [[]|err]; [done|].
  split; [|done]. cbn [fst snd].
  pose proof (respects_run _ _ _ _ _ (main_grows h) Hmain) as Hg.
  rewrite (calls_new_events_trans s s1); [|done|apply on_error_grows].
  rewrite (quiet_calls s1), app_nil_r; [done|]. apply on_error_quiet.
Qed.

(** C25: on every run the external calls are made in the order of the
    pipeline, and nothing is called after a failure: the calls are a
    prefix of the two configuration files written (each only when its
    input is not blank), the hash and the cache restore (only when
    [cache] is true), the [mkdir], the [curl] and the [chmod] of the
    setup, [mise --version], [mise install] (only when [install] is true)
    and [mise env --json]; when every stage returns they are all of
    them. *)
Theorem run_calls_in_order s :
  exists fh,
    calls (new_events s (state_of (run h) s)) `prefix_of` main_calls h fh /\
    (result_of (main h) s = Ok tt ->
     calls (new_events s (state_of (run h) s)) = main_calls h fh).
Proof. destruct (run_calls_any s) as (fh & Hpre & Hall). by exists fh. Qed.

(** C19: a run makes at most ten external calls (two files written, a
    hash, a cache request, a directory made and five processes started),
    whichever way it ends, and at least five when every stage returns
    (the three of the setup, [mise --version] and [mise env --json]):
    the calls made are never more than those of the pipeline, which are
    between five and ten. *)
Theorem run_calls_bounded s :
  exists fh,
    length (calls (new_events s (state_of (run h) s))) <= length (main_calls h fh) <= 10 /\
    (result_of (main h) s = Ok tt ->
     5 <= length (calls (new_events s (state_of (run h) s)))).
Proof.
  destruct (run_calls_any s) as (fh & Hpre%prefix_length & Hall).
  pose proof (main_calls_length h fh) as [Hlo Hhi]. exists fh.
  split; [lia|]. intros Hr. by rewrite (Hall Hr).
Qed.

End CallsTheorems.
