(* ===== verification/Progress.v ===== *)
(** * Progress: on a cooperative host the run succeeds

    Whether [run] ends in [Done] depends on the outside world.  This file
    states what the action needs from it and proves that it is enough.

    - [Cooperative]: the interface of a host on which every call of the
      toolkit returns (the file system accepts the writes, the processes
      start and exit with 0, hashing and the cache service answer);
    - [valid_inputs]: the boolean inputs the run reads are booleans;
    - [prints_exportable]: [mise env --json] prints a JSON value whose
      entries can be exported;
    - [inputs_read]: the boolean inputs read before a stage are
      booleans.

    Theorems: under these three conditions every stage returns
    ([stage_progress]), so the machine reaches [Done] from every stage
    that is not final and [run] returns with the exit code untouched
    ([run_succeeds]).  [sample_host] is an instance of [Cooperative].
    Conversely, a run whose body returns had boolean inputs that are
    booleans ([success_valid_inputs]). *)

From Stdlib Require Import Ascii ZArith.
From stdpp Require Import base option list strings gmap relations.
From S2P Require Import Prelude JsString Json Toolkit Platform.
From S2P Require Import ConfigWriter Installer Cache Invoker Exporter Run.

(** ** Definitions *)

(** A host on which every call returns. *)
Class Cooperative (h : Host) : Prop := {
  coop_writeFile p body s : fs_writeFile h p body s = Ok tt;
  coop_mkdir p s : fs_mkdir h p s = Ok tt;
  coop_exec cmd args s : exec_exec h cmd args s = Ok 0%Z;
  coop_getExecOutput cmd args dir s :
    exists out, exec_getExecOutput h cmd args dir s = Ok out /\ exitCode out = 0%Z;
  coop_hashFiles patterns s : exists fh, glob_hashFiles h patterns s = Ok fh;
  coop_restoreCache paths key s : exists hit, cache_restoreCache h paths key s = Ok hit
}.

(** The inputs [cache] and [install] are booleans, and so is [cache_save]
    when the cache is enabled. *)
Definition valid_inputs (h : Host) : bool :=
  match parse_boolean (getInput h "cache"), parse_boolean (getInput h "install") with
  | Some cache, Some _ =>
      if cache then bool_decide (is_Some (parse_boolean (getInput h "cache_save"))) else true
  | _, _ => false
  end.

(** What [setEnvVars] needs of the answer of the tool. *)
Definition exportable_output (out : ExecOutput) : bool :=
  match JSON_parse (stdout out) with
  | Ok v => match Object_entries v with
            | Ok entries => forallb exportable entries
            | Throw _ => false
            end
  | Throw _ => false
  end.

(** The tool answers [mise env --json] with such an output whenever it is
    asked. *)
Definition prints_exportable (h : Host) : Prop :=
  forall s out,
    exec_getExecOutput h "mise" ["env"; "--json"] (install_dir h) s = Ok out ->
    exportable_output out = true.

(** The boolean inputs the run has read when the machine is at [st] are
    booleans. *)
Definition inputs_read (h : Host) (st : Stage) : bool :=
  match st with
  | WriteToolVersions | WriteMiseToml | CacheStage | Failed | Crashed _ => true
  | SetupStage | PreInstallEnv | TestStage | InstallStage =>
      match parse_boolean (getInput h "cache") with
      | Some true => bool_decide (is_Some (parse_boolean (getInput h "cache_save")))
      | Some false => true
      | None => false
      end
  | ExportStage | Done => valid_inputs h
  end.

(** ** Lemmas *)

(** A stage that returns has read booleans. *)
Lemma stage_reads (h : Host) st s s' :
  is_final st = false -> inputs_read h st = true ->
  stage_action h st s = (Ok tt, s') -> inputs_read h (next_stage st) = true.
Proof.
  intros _ Hin. destruct st; try done; simpl.
  - rewrite cache_stage_eq. destruct (parse_boolean (getInput h "cache")) as [[]|]; [|done..].
    destruct (restoreMiseCache_cases h s) as [[t ->]|(save & fh & -> & _)]; [done|].
    intros _. by apply bool_decide_eq_true_2.
  - rewrite install_stage_eq. unfold valid_inputs. simpl in Hin.
    destruct (parse_boolean (getInput h "cache")) as [[]|]; [| |done];
      by destruct (parse_boolean (getInput h "install")) as [[]|].
Qed.

(** A run whose body returns had boolean inputs that are booleans. *)
Lemma success_valid_inputs (h : Host) s s' :
  main h s = (Ok tt, s') -> valid_inputs h = true.
Proof.
  intros Hm%main_reaches_done.
  exact (reachable_boundary h (fun st _ => inputs_read h st = true)
           WriteToolVersions s (Done, s') (stage_reads h) eq_refl Hm eq_refl).
Qed.

#[global] Instance sample_host_cooperative inputs env_json hit :
  Cooperative (sample_host inputs env_json hit).
Proof. split; intros; simpl; eauto. Qed.

Section Progress.
Context (h : Host) `{!Cooperative h}.
Hypothesis Hinputs : valid_inputs h = true.
Hypothesis Hprints : prints_exportable h.

Lemma writeFile_progress p body s : exists s', writeFile h p body s = (Ok tt, s').
Proof. eexists. apply writeFile_ok, coop_writeFile. Qed.

Lemma mise_progress args s : exists out s', mise h args s = (Ok out, s').
Proof.
  rewrite mise_eq. destruct (coop_getExecOutput "mise" args (install_dir h)
    (s ⊕ mise_call h args)) as (out & Hout & Hcode).
  rewrite (getExecOutput_result_zero h _ _ _ _ _ Hout Hcode). eauto.
Qed.

Lemma restoreMiseCache_progress s :
  is_Some (parse_boolean (getInput h "cache_save")) ->
  exists s', restoreMiseCache h s = (Ok tt, s').
Proof.
  intros [save Hsave].
  destruct (coop_hashFiles cache_patterns (s ⊕ cache_to_hash)) as [fh Hfh].
  destruct (coop_restoreCache [miseDir h] (cache_key h fh) (s ⊕ cache_to_restore h save fh))
    as [hit Hhit].
  destruct (truthy_opt hit) eqn:Ht.
  - destruct hit as [k|]; [|done]. eexists. by eapply restoreMiseCache_hit_eq.
  - eexists. by eapply restoreMiseCache_miss_eq.
Qed.

Lemma setupMise_progress v s : exists s', setupMise h v s = (Ok tt, s').
Proof.
  eexists. eapply setupMise_ok; [apply coop_mkdir|apply exec_result_zero, coop_exec..].
Qed.

Lemma setEnvVars_progress s : exists s', setEnvVars h s = (Ok tt, s').
Proof.
  destruct (coop_getExecOutput "mise" ["env"; "--json"] (install_dir h)
    (s ⊕ mise_call h ["env"; "--json"])) as (out & Hout & Hcode).
  pose proof (Hprints _ _ Hout) as Hjson. unfold exportable_output in Hjson.
  destruct (JSON_parse (stdout out)) as [v|] eqn:Hv; [|done].
  destruct (Object_entries v) as [entries|] eqn:He; [|done].
  rewrite (setEnvVars_entries h _ _ _ _ Hout Hcode Hv He).
  eexists. by apply for_each_export_eq.
Qed.

(** Every stage returns. *)
Lemma stage_progress st s : exists s', stage_action h st s = (Ok tt, s').
Proof.
  unfold valid_inputs in Hinputs. destruct st; simpl.
  - unfold setToolVersions. destruct (truthy _); [apply writeFile_progress|by eexists].
  - unfold setMiseToml. destruct (truthy _); [apply writeFile_progress|by eexists].
  - rewrite cache_stage_eq. destruct (parse_boolean (getInput h "cache")) as [[]|]; [| |done].
    + destruct (parse_boolean (getInput h "install")); [|done].
      apply restoreMiseCache_progress. by apply bool_decide_eq_true in Hinputs.
    + by eexists.
  - apply setupMise_progress.
  - eexists. apply setEnvVarsPreInstall_eq.
  - unfold bind. destruct (mise_progress ["--version"] s) as (out & s' & E).
    unfold testMise. rewrite E. by eexists.
  - rewrite install_stage_eq.
    destruct (parse_boolean (getInput h "cache")); [|done].
    destruct (parse_boolean (getInput h "install")) as [[]|]; [| |done].
    + unfold bind. destruct (mise_progress ["install"] s) as (out & s' & E).
      unfold miseInstall. rewrite E. by eexists.
    + by eexists.
  - apply setEnvVars_progress.
  - by eexists.
  - by eexists.
  - by eexists.
Qed.

(** The pipeline returns from every stage. *)
Lemma pipeline_progress n st s : exists s', pipeline h n st s = (Ok tt, s').
Proof.
  revert st s. induction n as [|n IH]; intros st s; simpl; [by eexists|].
  destruct (is_final st); [by eexists|]. unfold bind.
  destruct (stage_progress st s) as [s1 ->]. apply IH.
Qed.

(** From every stage that is not final the machine reaches [Done]. *)
Lemma machine_progress st s :
  is_final st = false -> exists s', rtc (step h) (st, s) (Done, s').
Proof.
  intros Hst. destruct (pipeline_progress (remaining st) st s) as [s' Hp].
  destruct (machine_runs_pipeline h (remaining st) st s Hst) as (k & _ & Hk); [done|].
  rewrite Hp in Hk. exists s'. by eapply rtc_nsteps_2.
Qed.

End Progress.

(** ** Theorems *)

(** C16: on a cooperative host, with boolean inputs that are booleans and
    a tool that prints an exportable environment, nothing can stop the
    run: [run] returns, the exit code is what it was, no error command is
    issued, and the stage machine reaches [Done] from the first stage and
    from every stage that is not final. *)
Theorem run_succeeds (h : Host) `{!Cooperative h} (s : Runner) :
  valid_inputs h = true -> prints_exportable h ->
  (exists s', run h s = (Ok tt, s') /\ exit_code s' = exit_code s /\
              error_messages (new_events s s') = [] /\
              rtc (step h) (WriteToolVersions, s) (Done, s')) /\
  (forall st, is_final st = false -> exists s', rtc (step h) (st, s) (Done, s')).
Proof.
  intros Hinputs Hprints. split; [|intros st Hst; by apply machine_progress].
  destruct (pipeline_progress h Hinputs Hprints 8 WriteToolVersions s) as [s' Hp].
  rewrite <- (main_pipeline h s) in Hp. exists s'.
  destruct (machine_reaches_settled h s) as (k & _ & Hk%rtc_nsteps_2).
  rewrite Hp in Hk. simpl in Hk.
  assert (wf_config s (Done, s') = true) as Hwf
    by (by eapply (reachable_wf h s WriteToolVersions)).
  unfold run, catch. rewrite Hp. split; [done|].
  unfold wf_config in Hwf. cbn [fst snd] in Hwf.
  by apply andb_prop in Hwf as [_ [?%bool_decide_eq_true ?%bool_decide_eq_true]%andb_prop].
Qed.

(** ** Witnesses *)

Lemma run_succeeds_witness :
  let h := sample_host usual_inputs example_json None in
  let s := initial_runner {[ "PATH" := "/usr/bin" ]} in
  (exists s', run h s = (Ok tt, s') /\ exit_code s' = exit_code s /\
              error_messages (new_events s s') = [] /\
              rtc (step h) (WriteToolVersions, s) (Done, s')) /\
  (forall st, is_final st = false -> exists s', rtc (step h) (st, s) (Done, s')).
Proof.
  intros h s. apply (run_succeeds h).
  - by vm_compute.
  - intros s1 out [= <-]. by vm_compute.
Defined.
