(* ===== verification/Groups.v ===== *)
(** * Groups: the log groups a run opens and closes

    The script folds its log into groups in two ways: [core.group], which
    closes the group when its body ends, also by a throw ([writeFile],
    [mise]), and [core.startGroup], which only opens one
    ([restoreMiseCache], [setupMise], [setEnvVarsPreInstall],
    [setEnvVars]); the script never calls [core.endGroup].

    - [group_depth]: the groups the events open minus those they close;
    - [stage_groups]: the groups each stage leaves open when it returns.

    Theorems: a stage that returns leaves open exactly [stage_groups]
    ([stage_groups_ok]); a run in which every stage returns leaves three
    groups open, four when the cache is enabled ([run_leaves_groups_open]). *)

From Stdlib Require Import Ascii ZArith.
From stdpp Require Import base option list strings gmap relations.
From S2P Require Import Prelude JsString Json Toolkit Platform.
From S2P Require Import ConfigWriter Installer Cache Invoker Exporter Run.

(** ** Definitions *)

(** The events that open or close a log group. *)
Definition no_group_event (e : Event) : bool :=
  match e with
  | GroupStart _ | GroupEnd => false
  | _ => true
  end.

(** The groups the events open minus the groups they close. *)
Fixpoint group_depth (evs : list Event) : Z :=
  match evs with
  | [] => 0
  | GroupStart _ :: evs' => 1 + group_depth evs'
  | GroupEnd :: evs' => group_depth evs' - 1
  | _ :: evs' => group_depth evs'
  end.

Section Groups.
Context (h : Host).

(** The input [cache] is true. *)
Definition cache_enabled : bool :=
  bool_decide (parse_boolean (getInput h "cache") = Some true).

(** The groups a stage leaves open when it returns. *)
Definition stage_groups (st : Stage) : Z :=
  match st with
  | CacheStage => if cache_enabled then 1 else 0
  | SetupStage | PreInstallEnv | ExportStage => 1
  | _ => 0
  end.

(** The same for the stages from [st] on, at most [n] of them. *)
Fixpoint pipeline_groups (n : nat) (st : Stage) : Z :=
  match n with
  | O => 0
  | S n' => if is_final st then 0 else stage_groups st + pipeline_groups n' (next_stage st)
  end.

End Groups.

(** ** Lemmas *)

Lemma group_depth_app evs1 evs2 :
  group_depth (evs1 ++ evs2) = (group_depth evs1 + group_depth evs2)%Z.
Proof. induction evs1 as [|[] evs1 IH]; simpl; lia. Qed.

Lemma group_depth_none evs : forallb no_group_event evs = true -> group_depth evs = 0%Z.
Proof.
  induction evs as [|e evs IH]; [done|]. simpl. intros [He Hevs]%andb_prop.
  destruct e; try done; by apply IH.
Qed.

Section GroupsLemmas.
Context (h : Host).

Lemma export_entry_no_group e : Respects (adds_only no_group_event) (export_entry h e).
Proof. destruct e. unfold export_entry. solve_frame. Qed.

#[local] Hint Resolve export_entry_no_group : frame.

(** An action that opens and closes no group, run after the events
    [evs], leaves open what [evs] left open. *)
Lemma groups_after {A} (m : act Runner A) evs s r s' :
  Respects (adds_only no_group_event) m ->
  m (s ⊕ evs) = (r, s') ->
  group_depth (new_events s s') = group_depth evs.
Proof.
  intros Hm Hrun. pose proof (respects_run _ _ _ _ _ Hm Hrun) as Hadd.
  rewrite (new_events_trans s (s ⊕ evs) s'), group_depth_app, new_events_log.
  - rewrite (group_depth_none (new_events _ _)) by (by apply adds_only_new_events). lia.
  - apply log_grows.
  - destruct Hadd as (evs' & J & _). by exists evs'.
Qed.

Lemma writeFile_groups p body s s' :
  writeFile h p body s = (Ok tt, s') -> group_depth (new_events s s') = 0%Z.
Proof.
  destruct (fs_writeFile h p body (s ⊕ writeFile_events p body)) as [[]|t] eqn:E.
  - rewrite (writeFile_ok _ _ _ _ E). intros [= <-].
    by rewrite new_events_with_files, new_events_log.
  - by rewrite (writeFile_throws _ _ _ _ _ E).
Qed.

Lemma mise_groups args s r s' :
  mise h args s = (r, s') -> group_depth (new_events s s') = 0%Z.
Proof. rewrite mise_eq. intros [= _ <-]. by rewrite new_events_log. Qed.

Lemma mise_then_ret_groups args s r s' :
  (mise h args ;; ret tt) s = (r, s') -> group_depth (new_events s s') = 0%Z.
Proof.
  unfold bind. destruct (mise h args s) as [[out|t] s1] eqn:E; intros [= _ <-];
    by eapply mise_groups.
Qed.

Lemma restoreMiseCache_groups s s' :
  restoreMiseCache h s = (Ok tt, s') -> group_depth (new_events s s') = 1%Z.
Proof.
  destruct (restoreMiseCache_cases h s)
    as [[t ->]|(save & fh & _ & [[t ->]|(hit & tail & -> & Htail)])]; [done..|].
  intros [= <-]. rewrite new_events_log. simpl.
  rewrite (group_depth_none tail); [done|].
  induction Htail as [|e tail [k [-> | ->]] _ IH]; done.
Qed.

Lemma setupMise_groups v s s' :
  setupMise h v s = (Ok tt, s') -> group_depth (new_events s s') = 1%Z.
Proof.
  destruct (setupMise_cases h v s) as [[t ->]|[[t ->]|[[t ->]| -> ]]]; [done..|].
  intros [= <-]. by rewrite new_events_with_env, new_events_log.
Qed.

Lemma setEnvVarsPreInstall_groups s r s' :
  setEnvVarsPreInstall h s = (r, s') -> group_depth (new_events s s') = 1%Z.
Proof.
  unfold setEnvVarsPreInstall, startGroup, emit. unfold bind at 1, modify.
  intros Hrun. rewrite (fun Hm => groups_after _ _ _ _ _ Hm Hrun); [done|].
  unfold setEnvIfUnset, setEnv. solve_frame.
Qed.

Lemma setEnvVars_groups s s' :
  setEnvVars h s = (Ok tt, s') -> group_depth (new_events s s') = 1%Z.
Proof.
  destruct (exec_getExecOutput h "mise" ["env"; "--json"] (install_dir h)
              (s ⊕ mise_call h ["env"; "--json"])) as [out|t] eqn:Hout.
  - intros Hrun. pose proof (setEnvVars_ok_exit h _ _ _ Hout Hrun) as Hcode.
    rewrite (setEnvVars_after_call h _ _ Hout Hcode) in Hrun.
    rewrite (fun Hm => groups_after _ _ _ _ _ Hm Hrun); [done|]. solve_frame.
  - by rewrite (setEnvVars_call_throws h _ _ (getExecOutput_result_throw h _ _ _ _ _ Hout)).
Qed.

(** A stage that returns leaves open exactly [stage_groups]. *)
Lemma stage_groups_ok st s s' :
  stage_action h st s = (Ok tt, s') ->
  group_depth (new_events s s') = stage_groups h st.
Proof.
  destruct st; simpl; unfold cache_enabled.
  - unfold setToolVersions. destruct (truthy _); [apply writeFile_groups|].
    intros [= <-]. by rewrite new_events_refl.
  - unfold setMiseToml. destruct (truthy _); [apply writeFile_groups|].
    intros [= <-]. by rewrite new_events_refl.
  - rewrite cache_stage_eq. destruct (parse_boolean _) as [[]|]; [| |done].
    + apply restoreMiseCache_groups.
    + intros [= <-]. by rewrite new_events_log.
  - apply setupMise_groups.
  - apply setEnvVarsPreInstall_groups.
  - apply mise_then_ret_groups.
  - rewrite install_stage_eq. destruct (parse_boolean _) as [[]|]; [| |done].
    + apply mise_then_ret_groups.
    + intros [= <-]. by rewrite new_events_refl.
  - apply setEnvVars_groups.
  - intros [= <-]. by rewrite new_events_refl.
  - intros [= <-]. by rewrite new_events_refl.
  - intros [= <-]. by rewrite new_events_refl.
Qed.

Lemma pipeline_groups_ok n st s s' :
  pipeline h n st s = (Ok tt, s') ->
  group_depth (new_events s s') = pipeline_groups h n st.
Proof.
  revert st s. induction n as [|n IH]; intros st s.
  { intros [= <-]. by rewrite new_events_refl. }
  destruct (is_final st) eqn:Hst.
  { rewrite pipeline_final by done. intros [= <-]. simpl. by rewrite Hst, new_events_refl. }
  intros (s1 & Hact & Hrest)%pipeline_step_ok; [|done]. simpl. rewrite Hst.
  rewrite (new_events_trans s s1 s'), group_depth_app.
  - by rewrite (stage_groups_ok _ _ _ Hact), (IH _ _ Hrest).
  - eapply respects_run; [apply stage_grows | exact Hact].
  - eapply respects_run; [|exact Hrest]. apply pipeline_respects; [apply _|apply stage_grows].
Qed.

End GroupsLemmas.

(** ** Theorems *)

(** C20: the groups opened with [core.startGroup] are never closed.  A
    run in which every stage returns leaves three log groups open (those
    of [setupMise], [setEnvVarsPreInstall] and [setEnvVars]), and four
    when the cache is enabled (that of [restoreMiseCache]); the groups of
    [writeFile] and [mise], opened with [core.group], are closed. *)
Theorem run_leaves_groups_open (h : Host) (s s' : Runner) :
  main h s = (Ok tt, s') ->
  run h s = (Ok tt, s') /\
  group_depth (new_events s s') = (if cache_enabled h then 4 else 3)%Z.
Proof.
  intros Hmain. split; [unfold run, catch; by rewrite Hmain|].
  rewrite (main_pipeline h s) in Hmain. rewrite (pipeline_groups_ok h _ _ _ _ Hmain).
  simpl. unfold stage_groups. by destruct (cache_enabled h).
Qed.

(** ** Witnesses *)

Lemma run_leaves_groups_open_witness :
  let h := sample_host usual_inputs example_json None in
  let s := initial_runner {[ "PATH" := "/usr/bin" ]} in
  run h s = (Ok tt, state_of (main h) s) /\
  group_depth (new_events s (state_of (main h) s)) = 4%Z.
Proof.
  intros h s. apply (run_leaves_groups_open h s (state_of (main h) s)). by vm_compute.
Defined.
