(* ===== verification/Environment.v ===== *)
(** * Environment: what a run leaves in [process.env]

    The later steps of the job see the environment the step leaves, also
    when the step fails.  Three stages change it: [setupMise] puts the
    directory of the binary in front of PATH, [setEnvVarsPreInstall] sets
    the bootstrap variables that are not set, [setEnvVars] exports what
    the tool prints.

    - [installed_env], [bootstrap_env]: the first two changes as functions
      on environments;
    - [env_before]: the environment in which each stage starts, as a
      function of the environment in which the run started;
    - [fails_at]: the stage at which the pipeline throws.

    Theorems: the environment after a run that succeeds, whatever JSON
    value the tool prints ([run_environment]); the environment after a
    run that fails before the export ([failed_run_environment]); a second
    run in the same job changes no variable but PATH, in front of which
    it puts the same segments again ([second_run_environment]). *)

From Stdlib Require Import Ascii ZArith.
From stdpp Require Import base option list strings gmap relations.
From S2P Require Import Prelude JsString Json JsonObjects Toolkit Platform.
From S2P Require Import ConfigWriter Installer Cache Invoker Exporter Run.

(** ** Definitions *)

(** PATH in an environment, as a template literal prints it. *)
Definition path_of (e : gmap string string) : string := default "undefined" (e !! "PATH").

(** [setEnvIfUnset] on an environment. *)
Definition set_if_unset (k v : string) (e : gmap string string) : gmap string string :=
  if truthy_opt (e !! k) then e else <[k := v]> e.

(** The printed entries over an environment: every entry but PATH with
    the command value of its value. *)
Definition exported_over (vars : gmap string json) (e : gmap string string)
  : gmap string string :=
  (toCommandValue <$> vars) ∪ e.

(** The segments the printed PATH puts in front of PATH. *)
Definition exported_path (d : ascii) (vars : gmap string json) : list string :=
  match vars !! "PATH" with
  | Some (JString p) => rev (split_on d p)
  | _ => []
  end.

Section Environment.
Context (h : Host).

(** The environment after [setupMise]. *)
Definition installed_env (e : gmap string string) : gmap string string :=
  <["PATH" := miseBinDir h +:+ String (delimiter h) (path_of e)]> e.

(** The environment after [setEnvVarsPreInstall]. *)
Definition bootstrap_env (e : gmap string string) : gmap string string :=
  set_if_unset "MISE_EXPERIMENTAL" (if getExperimental h then "1" else "0")
    (set_if_unset "MISE_YES" "1"
       (set_if_unset "MISE_TRUSTED_CONFIG_PATHS" (cwd h) e)).

(** The environment in which a stage starts, when the run started in
    [e]. *)
Definition env_before (st : Stage) (e : gmap string string) : gmap string string :=
  match st with
  | PreInstallEnv => installed_env e
  | TestStage | InstallStage | ExportStage => bootstrap_env (installed_env e)
  | _ => e
  end.

(** The stage at which the pipeline throws, running at most [n] stages
    from [st] on. *)
Fixpoint fails_at (n : nat) (st : Stage) (s : Runner) : option Stage :=
  match n with
  | O => None
  | S n' =>
      if is_final st then None
      else match stage_action h st s with
           | (Ok _, s') => fails_at n' (next_stage st) s'
           | (Throw _, _) => Some st
           end
  end.

End Environment.

(** ** Lemmas *)

Lemma set_if_unset_lookup k v e k' :
  set_if_unset k v e !! k' =
    if bool_decide (k' = k) then (if truthy_opt (e !! k) then e !! k else Some v)
    else e !! k'.
Proof.
  unfold set_if_unset. case_bool_decide as Hk; [subst k'|];
    destruct (truthy_opt (e !! k)); by rewrite ?lookup_insert_eq, ?lookup_insert_ne.
Qed.

(** Setting a variable that is not set, twice, is setting it once. *)
Lemma set_if_unset_idempotent k v e :
  set_if_unset k v (set_if_unset k v e) = set_if_unset k v e.
Proof.
  unfold set_if_unset at 1. destruct (truthy_opt (set_if_unset k v e !! k)) eqn:E; [done|].
  apply map_eq. intros k'. destruct (decide (k' = k)) as [->|Hk].
  - rewrite lookup_insert_eq, set_if_unset_lookup, bool_decide_eq_true_2 by done.
    rewrite set_if_unset_lookup, bool_decide_eq_true_2 in E by done.
    destruct (truthy_opt (e !! k)) eqn:E'; [congruence|done].
  - by rewrite lookup_insert_ne.
Qed.

Section EnvironmentLemmas.
Context (h : Host).

Lemma env_setEnvIfUnset_effect k v s :
  env (setEnvIfUnset_effect k v s) = set_if_unset k v (env s).
Proof. unfold setEnvIfUnset_effect, set_if_unset. by destruct (truthy_opt _). Qed.

Lemma bootstrap_env_lookup e k :
  bootstrap_env h e !! k =
    match bootstrap_default h k with
    | Some v => if truthy_opt (e !! k) then e !! k else Some v
    | None => e !! k
    end.
Proof.
  unfold bootstrap_env, bootstrap_default. rewrite !set_if_unset_lookup.
  repeat case_bool_decide; simplify_eq; done.
Qed.

(** The bootstrap is idempotent on environments. *)
Lemma bootstrap_env_idempotent e : bootstrap_env h (bootstrap_env h e) = bootstrap_env h e.
Proof.
  apply map_eq. intros k. rewrite !bootstrap_env_lookup.
  destruct (bootstrap_default h k) as [v|]; [|done].
  destruct (truthy_opt (e !! k)) eqn:E; [by rewrite E|]. by destruct (truthy_opt (Some v)).
Qed.

Lemma env_setEnvVarsPreInstall s r s' :
  setEnvVarsPreInstall h s = (r, s') -> env s' = bootstrap_env h (env s).
Proof.
  rewrite setEnvVarsPreInstall_eq. intros [= _ <-]. by rewrite !env_setEnvIfUnset_effect.
Qed.

(** A stage before the export that returns takes the environment in
    which it starts to the one in which the next stage starts. *)
Lemma stage_env_ok st s s' e :
  st <> ExportStage -> stage_action h st s = (Ok tt, s') ->
  env s = env_before h st e -> env s' = env_before h (next_stage st) e.
Proof.
  intros Hst Hact He.
  destruct (changes_env st) eqn:Hc;
    [|rewrite (stage_env_kept_run h st _ _ _ Hc Hact), He; by destruct st].
  destruct st; try done.
  - apply setup_env in Hact. simpl in He. rewrite Hact. unfold env_PATH. by rewrite He.
  - simpl in Hact. by rewrite (env_setEnvVarsPreInstall _ _ _ Hact), He.
Qed.

(** A stage before the export that throws leaves the environment as it
    found it. *)
Lemma stage_env_throw st s t s' :
  st <> ExportStage -> stage_action h st s = (Throw t, s') -> env s' = env s.
Proof.
  intros Hst Hact. destruct (changes_env st) eqn:Hc; [|by eapply stage_env_kept_run].
  destruct st; try done; simpl in Hact.
  - destruct (setupMise_cases h (getInput h "version") s)
      as [[t' E]|[[t' E]|[[t' E]|E]]]; rewrite E in Hact; by simplify_eq.
  - by rewrite setEnvVarsPreInstall_eq in Hact.
Qed.

(** The pipeline that throws throws at [fails_at], and when that is
    before the export the environment is the one in which that stage
    started. *)
Lemma pipeline_fails n st s t s' e :
  pipeline h n st s = (Throw t, s') -> env s = env_before h st e ->
  exists st', fails_at h n st s = Some st' /\
              (st' <> ExportStage -> env s' = env_before h st' e).
Proof.
  revert st s. induction n as [|n IH]; intros st s; simpl; [done|].
  destruct (is_final st) eqn:Hf; [done|]. unfold bind.
  destruct (stage_action h st s) as [[[]|t1] s1] eqn:Hact.
  - intros Hrest He. destruct (decide (st = ExportStage)) as [->|Hst].
    { by rewrite pipeline_final in Hrest. }
    eapply IH; [exact Hrest|]. by eapply stage_env_ok.
  - intros [= <- <-] He. exists st. split; [done|]. intros Hst.
    by rewrite (stage_env_throw _ _ _ _ Hst Hact).
Qed.

(** The pipeline that returns has run the export in the environment
    [env_before ExportStage]. *)
Lemma pipeline_export n st s s' e :
  is_final st = false -> remaining st <= n ->
  pipeline h n st s = (Ok tt, s') -> env s = env_before h st e ->
  exists s7, env s7 = env_before h ExportStage e /\ setEnvVars h s7 = (Ok tt, s').
Proof.
  revert st s. induction n as [|n IH]; intros st s Hf Hn.
  { apply Nat.le_0_r, remaining_final in Hn. congruence. }
  intros (s1 & Hact & Hrest)%pipeline_step_ok He; [|done].
  destruct (decide (st = ExportStage)) as [->|Hst].
  - rewrite pipeline_final in Hrest by done. injection Hrest as <-. by exists s.
  - apply (IH (next_stage st) s1); [by destruct st| |done|by eapply stage_env_ok].
    rewrite (remaining_next st Hf) in Hn. lia.
Qed.

End EnvironmentLemmas.

(** ** Theorems *)

(** C22: the environment a run that succeeds leaves to the later steps of
    the job, whatever JSON value the tool prints as its environment: the
    printed entries over the environment in which the export started.
    That is, every variable other than PATH has the command value of its
    printed entry if there is one, and otherwise what [setupMise] and the
    bootstrap left; PATH is the segments of the printed PATH in reverse
    order, then the directory of the binary, then the old PATH. *)
Theorem run_environment (h : Host) (s s' : Runner) out v entries :
  main h s = (Ok tt, s') ->
  prints_env h out ->
  JSON_parse (stdout out) = Ok v ->
  Object_entries v = Ok entries ->
  let vars : gmap string json := list_to_map entries in
  let e := env_before h ExportStage (env s) in
  (forall k, k <> "PATH" -> env s' !! k = exported_over vars e !! k) /\
  path_of e = miseBinDir h +:+ String (delimiter h) (env_PATH s) /\
  split_on (delimiter h) (env_PATH s') =
    exported_path (delimiter h) vars ++ split_on (delimiter h) (path_of e).
Proof.
  intros Hmain Hout Hparse Hentries vars e. rewrite (main_pipeline h s) in Hmain.
  destruct (pipeline_export h 8 WriteToolVersions s s' (env s) eq_refl (Nat.le_refl _) Hmain eq_refl)
    as (s7 & He & Hexport).
  destruct (setEnvVars_environment h s7 s' out v entries (Hout _) Hparse Hentries Hexport)
    as (Henv & Hpath).
  fold vars in Henv, Hpath. unfold env_PATH in Hpath at 2. rewrite He in Henv, Hpath.
  split; [done|]. split; [|done].
  unfold path_of, e, env_before. rewrite bootstrap_env_lookup.
  unfold bootstrap_default. rewrite !bool_decide_eq_false_2 by done.
  unfold installed_env. by rewrite lookup_insert_eq.
Qed.

(** C23: the environment a run that fails leaves to the later steps of the
    job.  When the pipeline throws at a stage before the export, the
    environment is the one in which that stage started, whatever was
    thrown: the one of the start up to the setup, with the directory of
    the binary in front of PATH at the bootstrap, and with the bootstrap
    variables set at the version check and the install. *)
Theorem failed_run_environment (h : Host) (s : Runner) t s1 :
  main h s = (Throw t, s1) ->
  exists st,
    fails_at h 8 WriteToolVersions s = Some st /\
    (st <> ExportStage -> env (state_of (run h) s) = env_before h st (env s)).
Proof.
  intros Hmain. pose proof Hmain as Hp. rewrite (main_pipeline h s) in Hp.
  destruct (pipeline_fails h _ _ _ _ _ (env s) Hp eq_refl) as (st & Hst & He).
  exists st. split; [done|]. intros Hne. rewrite <- (He Hne).
  unfold state_of, run, catch. rewrite Hmain.
  destruct t as [name message|descr]; reflexivity.
Qed.

(** C24: the action run a second time in the same job, the tool printing
    the same environment.  No variable other than PATH changes: the
    bootstrap and the export are idempotent.  PATH is not: the second run
    puts the printed segments and the directory of the binary in front of
    it again. *)
Theorem second_run_environment (h : Host) (s s1 s2 : Runner) out v entries :
  main h s = (Ok tt, s1) ->
  main h s1 = (Ok tt, s2) ->
  prints_env h out ->
  JSON_parse (stdout out) = Ok v ->
  Object_entries v = Ok entries ->
  (forall k, k <> "PATH" -> env s2 !! k = env s1 !! k) /\
  split_on (delimiter h) (env_PATH s2) =
    exported_path (delimiter h) (list_to_map entries) ++
    split_on (delimiter h) (path_of (installed_env h (env s1))).
Proof.
  intros H1 H2 Hout Hparse Hentries.
  rewrite (main_pipeline h s) in H1. rewrite (main_pipeline h s1) in H2.
  destruct (pipeline_export h 8 WriteToolVersions s s1 (env s) eq_refl (Nat.le_refl _) H1 eq_refl)
    as (a & Ha & Hexport1).
  destruct (pipeline_export h 8 WriteToolVersions s1 s2 (env s1) eq_refl (Nat.le_refl _) H2 eq_refl)
    as (b & Hb & Hexport2).
  destruct (setEnvVars_environment h a s1 out v entries (Hout _) Hparse Hentries Hexport1)
    as (Henv1 & _).
  destruct (setEnvVars_environment h b s2 out v entries (Hout _) Hparse Hentries Hexport2)
    as (Henv2 & Hpath2).
  split.
  - intros k Hk. rewrite (Henv2 k Hk), (Henv1 k Hk), !lookup_union, Hb, Ha.
    destruct ((toCommandValue <$> list_to_map entries) !! k) as [x|] eqn:E.
    { by destruct (env_before h ExportStage (env s1) !! k),
                  (env_before h ExportStage (env s) !! k). }
    rewrite !(left_id_L None _). unfold env_before, installed_env.
    rewrite !bootstrap_env_lookup, !lookup_insert_ne by done.
    rewrite (Henv1 k Hk), lookup_union, E, (left_id_L None _), Ha.
    unfold env_before, installed_env. rewrite !bootstrap_env_lookup, lookup_insert_ne by done.
    destruct (bootstrap_default h k) as [d|]; [|done].
    destruct (truthy_opt (env s !! k)) eqn:Et; [by rewrite Et|].
    by destruct (truthy_opt (Some d)).
  - rewrite Hpath2. unfold env_PATH. rewrite Hb. f_equal. f_equal.
    unfold env_before. unfold path_of at 1. rewrite bootstrap_env_lookup.
    unfold bootstrap_default. by rewrite !bool_decide_eq_false_2 by done.
Qed.

(** ** Witnesses *)

Lemma run_environment_witness :
  let ms := [("FOO", JString "bar"); ("N", JNumber "20"); ("PATH", JString "/a:/b")] in
  let h := sample_host usual_inputs (JSON_stringify (JObject ms)) None in
  let s := initial_runner {[ "PATH" := "/usr/bin"; "MISE_YES" := "0" ]} in
  let s' := state_of (main h) s in
  (env s' !! "FOO" = Some "bar" /\ env s' !! "N" = Some "20" /\
   env s' !! "MISE_YES" = Some "0" /\ env s' !! "MISE_EXPERIMENTAL" = Some "0") /\
  split_on ":" (env_PATH s') = ["/b"; "/a"; "/home/runner/.local/share/mise/bin"; "/usr/bin"].
Proof.
  intros ms h s s'.
  destruct (run_environment h s s'
              {| exitCode := 0; stdout := JSON_stringify (JObject ms); stderr := "" |}
              (JObject ms) ms) as (Henv & _ & Hpath).
  - by vm_compute.
  - intros r. reflexivity.
  - reflexivity.
  - reflexivity.
  - split; [|exact Hpath]. split_and!; [apply (Henv "FOO")|apply (Henv "N")
      |apply (Henv "MISE_YES")|apply (Henv "MISE_EXPERIMENTAL")]; done.
Defined.

Lemma failed_run_environment_witness :
  let t := JsError "Error" "mise install failed" in
  let h := answering ["install"] (Throw t) (sample_host usual_inputs example_json None) in
  let s := initial_runner {[ "PATH" := "/usr/bin" ]} in
  exists st,
    fails_at h 8 WriteToolVersions s = Some st /\
    (st <> ExportStage -> env (state_of (run h) s) = env_before h st (env s)).
Proof.
  intros t h s. apply (failed_run_environment h s t (state_of (main h) s)). by vm_compute.
Defined.

(** The same failing run, computed: it fails at the install stage, with
    the binary on PATH and the bootstrap variables set, and nothing of
    what the tool would have printed. *)
Example failed_run_sample :
  let t := JsError "Error" "mise install failed" in
  let h := answering ["install"] (Throw t) (sample_host usual_inputs example_json None) in
  let s := initial_runner {[ "PATH" := "/usr/bin" ]} in
  fails_at h 8 WriteToolVersions s = Some InstallStage /\
  env (state_of (run h) s) = env_before h InstallStage (env s) /\
  env (state_of (run h) s) !! "PATH" = Some "/home/runner/.local/share/mise/bin:/usr/bin" /\
  env (state_of (run h) s) !! "MISE_YES" = Some "1" /\
  env (state_of (run h) s) !! "FOO" = None.
Proof. intros t h s. split_and!; [done|by apply map_eq; intros k; vm_compute|done..]. Qed.

Lemma second_run_environment_witness :
  let h := sample_host usual_inputs example_json None in
  let s := initial_runner {[ "PATH" := "/usr/bin" ]} in
  let s1 := state_of (main h) s in
  let s2 := state_of (main h) s1 in
  (env s2 !! "FOO" = env s1 !! "FOO" /\ env s2 !! "MISE_YES" = env s1 !! "MISE_YES") /\
  split_on ":" (env_PATH s2) =
    ["/b"; "/a"; "/home/runner/.local/share/mise/bin";
     "/b"; "/a"; "/home/runner/.local/share/mise/bin"; "/usr/bin"].
Proof.
  intros h s s1 s2.
  pose proof (second_run_environment h s s1 s2
                {| exitCode := 0; stdout := example_json; stderr := "" |}
                (JObject [("FOO", JString "bar"); ("PATH", JString "/a:/b")])
                [("FOO", JString "bar"); ("PATH", JString "/a:/b")]
                ltac:(by vm_compute) ltac:(by vm_compute) ltac:(by vm_compute)
                ltac:(by vm_compute) ltac:(by vm_compute)) as Hrun.
  split; [split; by apply (proj1 Hrun)|].
  exact (eq_trans (proj2 Hrun) ltac:(by vm_compute)).
Defined.
