(* ===== verification/Failures.v ===== *)
(** * Failures: a process that exits with a code other than 0 stops the run

    Five processes run during the step: curl and chmod in [setupMise],
    and the binary at the version check, at the install and at the
    export.  index.ts looks at the exit code of the last one only; it is
    [@actions/exec] that rejects when a process exits with a code other
    than 0.

    - [exits_with]: the processes of each stage, with the exit code the
      host gives and the events the stage has journalled when the call of
      the process ends;
    - [process_of]: the command of an external call that runs a process.

    Theorems: a stage whose process exits with a code other than 0 throws
    the [Error] that names the code ([stage_exit_throws]); wherever the
    machine stands, such an exit makes [run] record a failure with that
    message and stop, the failing process being the last external call of
    the run and the environment being as the stage found it
    ([run_halts_on_exit_code]); a run whose body returns had boolean
    inputs that are booleans, has seen every process exit with 0 and has
    been given an output it could export ([success_requirements]). *)

From Stdlib Require Import Ascii ZArith.
From stdpp Require Import base option list strings pretty gmap relations.
From S2P Require Import Prelude JsString Json Toolkit Platform.
From S2P Require Import ConfigWriter Installer Cache Invoker Exporter Run Progress.

(** ** Definitions *)

Section Failures.
Context (h : Host).

(** [exits_with st s cmd code evs]: the stage [st], started in the run
    [s], runs the process [cmd], which exits with [code]; [evs] is what
    the stage has journalled when the call of the process ends. *)
Inductive exits_with : Stage -> Runner -> string -> Z -> list Event -> Prop :=
| curl_exits s code :
    fs_mkdir h (miseBinDir h) (s ⊕ setup_to_mkdir h (getInput h "version")) = Ok tt ->
    exec_exec h "curl" (curl_args h (getInput h "version"))
      (s ⊕ setup_to_curl h (getInput h "version")) = Ok code ->
    exits_with SetupStage s "curl" code (setup_to_curl h (getInput h "version"))
| chmod_exits s code :
    fs_mkdir h (miseBinDir h) (s ⊕ setup_to_mkdir h (getInput h "version")) = Ok tt ->
    exec_exec h "curl" (curl_args h (getInput h "version"))
      (s ⊕ setup_to_curl h (getInput h "version")) = Ok 0%Z ->
    exec_exec h "chmod" (chmod_args h)
      (s ⊕ setup_to_chmod h (getInput h "version")) = Ok code ->
    exits_with SetupStage s "chmod" code (setup_to_chmod h (getInput h "version"))
| version_exits s out :
    exec_getExecOutput h "mise" ["--version"] (install_dir h)
      (s ⊕ mise_call h ["--version"]) = Ok out ->
    exits_with TestStage s "mise" (exitCode out) (mise_call h ["--version"] ++ [GroupEnd])
| install_exits s out :
    parse_boolean (getInput h "install") = Some true ->
    exec_getExecOutput h "mise" ["install"] (install_dir h)
      (s ⊕ mise_call h ["install"]) = Ok out ->
    exits_with InstallStage s "mise" (exitCode out) (mise_call h ["install"] ++ [GroupEnd])
| env_exits s out :
    exec_getExecOutput h "mise" ["env"; "--json"] (install_dir h)
      (s ⊕ mise_call h ["env"; "--json"]) = Ok out ->
    exits_with ExportStage s "mise" (exitCode out)
      (mise_call h ["env"; "--json"] ++ [GroupEnd]).

(** The command of an external call that runs a process. *)
Definition process_of (e : Event) : option string :=
  match e with
  | Exec cmd _ | ExecOutputCall cmd _ _ => Some cmd
  | _ => None
  end.

End Failures.

(** ** Lemmas *)

Section FailuresLemmas.
Context (h : Host).

(** [mise] when the binary exits with a code other than 0. *)
Lemma mise_exit_throws args s out :
  exec_getExecOutput h "mise" args (install_dir h) (s ⊕ mise_call h args) = Ok out ->
  exitCode out <> 0%Z ->
  mise h args s =
    (Throw (exit_code_error h "mise" (exitCode out)), s ⊕ (mise_call h args ++ [GroupEnd])).
Proof.
  intros Hout Hcode. by rewrite mise_eq, (getExecOutput_result_nonzero h _ _ _ _ _ Hout Hcode).
Qed.

(** A stage whose process exits with a code other than 0 throws the
    error of [@actions/exec], having journalled nothing after the call
    but the end of the group of [mise]. *)
Lemma stage_exit_throws st s cmd code evs :
  exits_with h st s cmd code evs -> code <> 0%Z ->
  stage_action h st s = (Throw (exit_code_error h cmd code), s ⊕ evs).
Proof.
  intros Hexit Hcode.
  destruct Hexit as [s code H1 H2|s code H1 H2 H3|s out Hout|s out Hin Hout|s out Hout]; simpl.
  - apply setupMise_curl_throws; [done|]. by apply exec_result_nonzero.
  - eapply setupMise_chmod_throws; [done|by apply exec_result_zero|].
    by apply exec_result_nonzero.
  - unfold bind, testMise. by rewrite (mise_exit_throws _ _ _ Hout Hcode).
  - unfold install_stage, getBooleanInput, miseInstall. rewrite Hin. unfold bind at 1, ret.
    unfold bind. by rewrite (mise_exit_throws _ _ _ Hout Hcode).
  - apply setEnvVars_call_throws. by apply getExecOutput_result_nonzero.
Qed.

(** The call of the process is the last external call the stage has
    made. *)
Lemma exits_with_last_call st s cmd code evs :
  exits_with h st s cmd code evs -> last (calls evs) ≫= process_of = Some cmd.
Proof. by destruct 1. Qed.

Lemma exits_with_not_final st s cmd code evs :
  exits_with h st s cmd code evs -> is_final st = false.
Proof. by destruct 1. Qed.

(** A run whose body returns has seen every process exit with 0: the
    step never reports success after a process has failed. *)
Lemma success_exit_codes s0 s1 st s cmd code evs :
  main h s0 = (Ok tt, s1) ->
  rtc (step h) (WriteToolVersions, s0) (st, s) ->
  exits_with h st s cmd code evs -> code = 0%Z.
Proof.
  intros Hm Hr Hexit. destruct (decide (code = 0%Z)) as [|Hcode]; [done|].
  pose proof (stage_exit_throws _ _ _ _ _ Hexit Hcode) as Hact.
  by rewrite (failure_stops_main h _ _ _ _ _ Hr (exits_with_not_final _ _ _ _ _ Hexit) Hact)
    in Hm.
Qed.

(** [setEnvVars] returns only when what the tool printed can be
    exported. *)
Lemma setEnvVars_ok_exportable s s' out :
  exec_getExecOutput h "mise" ["env"; "--json"] (install_dir h)
    (s ⊕ mise_call h ["env"; "--json"]) = Ok out ->
  setEnvVars h s = (Ok tt, s') -> exportable_output out = true.
Proof.
  intros Hout Hrun. pose proof (setEnvVars_ok_exit h _ _ _ Hout Hrun) as Hcode.
  rewrite (setEnvVars_after_call h _ _ Hout Hcode) in Hrun. unfold exportable_output.
  unfold bind, lift in Hrun. destruct (JSON_parse (stdout out)) as [v|]; [|done].
  destruct (Object_entries v) as [entries|]; [|done]. by eapply for_each_export_ok.
Qed.

(** A stage the machine reaches in a run whose body returns has
    returned. *)
Lemma success_stage_returns s0 s1 st s :
  main h s0 = (Ok tt, s1) -> rtc (step h) (WriteToolVersions, s0) (st, s) ->
  is_final st = false -> exists s', stage_action h st s = (Ok tt, s').
Proof.
  intros Hm Hr Hf. destruct (stage_action h st s) as [[[]|t] s'] eqn:Hact; [by exists s'|].
  by rewrite (failure_stops_main h _ _ _ _ _ Hr Hf Hact) in Hm.
Qed.

End FailuresLemmas.

(** ** Theorems *)

(** C13: a process that exits with a code other than 0 stops the run,
    whichever of the five it is (curl, chmod, the version check, the
    install, the export) and whatever happened before.  When the machine
    has reached the stage that runs it, [run] returns with exit code 1
    and, as its last event, the error command with the message of
    [@actions/exec] that names the exit code; nothing is journalled
    between the call of the process and that command but the end of the
    group of [mise]; the failing process is the last external call of the
    run, and the failing stage has not changed the environment. *)
Theorem run_halts_on_exit_code (h : Host) s0 st s cmd code evs :
  rtc (step h) (WriteToolVersions, s0) (st, s) ->
  exits_with h st s cmd code evs ->
  code <> 0%Z ->
  let message :=
    "The process '" +:+ which h cmd +:+ "' failed with exit code " +:+ pretty code in
  run h s0 = (Ok tt, with_exit_code 1 (s ⊕ (evs ++ [ErrorCmd message]))) /\
  last (calls (new_events s0 (state_of (run h) s0))) ≫= process_of = Some cmd /\
  env (state_of (run h) s0) = env s.
Proof.
  intros Hr Hexit Hcode message.
  pose proof (stage_exit_throws h _ _ _ _ _ Hexit Hcode) as Hact.
  pose proof (failure_stops_main h _ _ _ _ _ Hr (exits_with_not_final h _ _ _ _ _ Hexit) Hact)
    as Hm.
  assert (run h s0 = (Ok tt, with_exit_code 1 (s ⊕ (evs ++ [ErrorCmd message])))) as Hrun.
  { unfold run, catch. rewrite Hm. by act_run. }
  split; [done|]. unfold state_of. rewrite Hrun. split; [|done].
  cbn [snd]. rewrite new_events_with_exit_code.
  rewrite (new_events_trans s0 s); [|exact (reachable_grows h _ _ _ Hr)|apply log_grows].
  pose proof (exits_with_last_call h _ _ _ _ _ Hexit) as Hlast.
  rewrite new_events_log, !calls_app. change (calls [ErrorCmd message]) with (@nil Event).
  rewrite app_nil_r, last_app. by destruct (last (calls evs)).
Qed.

(** C17: what a success requires.  When the body of [run] returns, so
    that the step reports success, the boolean inputs it read were
    booleans, every process it ran (curl, chmod and the binary at the
    version check, the install and the export) exited with 0, and what
    the binary printed at the export was a JSON value whose entries can
    all be exported: the step never reports success after an invalid
    input, a failed process or an output it could not export. *)
Theorem success_requirements (h : Host) (s0 s1 : Runner) :
  main h s0 = (Ok tt, s1) ->
  valid_inputs h = true /\
  (forall st s cmd code evs,
     rtc (step h) (WriteToolVersions, s0) (st, s) -> exits_with h st s cmd code evs ->
     code = 0%Z) /\
  (forall s out,
     rtc (step h) (WriteToolVersions, s0) (ExportStage, s) ->
     exec_getExecOutput h "mise" ["env"; "--json"] (install_dir h)
       (s ⊕ mise_call h ["env"; "--json"]) = Ok out ->
     exportable_output out = true).
Proof.
  intros Hm. split; [by eapply success_valid_inputs|]. split.
  - intros st s cmd code evs. by apply success_exit_codes with s1.
  - intros s out Hr Hout.
    destruct (success_stage_returns h _ _ _ _ Hm Hr eq_refl) as [s' Hact].
    by eapply setEnvVars_ok_exportable.
Qed.

(** ** Witnesses *)

Lemma run_halts_on_exit_code_witness :
  let h := exiting "chmod" 1 (sample_host usual_inputs example_json None) in
  let s0 := initial_runner {[ "PATH" := "/usr/bin" ]} in
  let s' := state_of (run h) s0 in
  exit_code s' = 1%Z /\
  last (journal s') = Some (ErrorCmd "The process '/usr/bin/chmod' failed with exit code 1") /\
  env s' = env s0.
Proof.
  intros h s0 s'.
  pose proof (run_halts_on_exit_code h s0 SetupStage
                (run_machine h 3 (WriteToolVersions, s0)).2 "chmod" 1
                (setup_to_chmod h (getInput h "version"))
                (run_machine_reachable h 3 _)
                ltac:(by apply chmod_exits) ltac:(done)) as (Hrun & _ & Henv).
  split; [|split].
  - exact (eq_trans (f_equal (fun p => exit_code p.2) Hrun) eq_refl).
  - exact (eq_trans (f_equal (fun p => last (journal p.2)) Hrun) ltac:(by vm_compute)).
  - exact (eq_trans Henv ltac:(by vm_compute)).
Defined.

Lemma success_requirements_witness :
  let h := sample_host usual_inputs example_json None in
  let s0 := initial_runner {[ "PATH" := "/usr/bin" ]} in
  valid_inputs h = true /\
  (forall st s cmd code evs,
     rtc (step h) (WriteToolVersions, s0) (st, s) -> exits_with h st s cmd code evs ->
     code = 0%Z) /\
  (forall s out,
     rtc (step h) (WriteToolVersions, s0) (ExportStage, s) ->
     exec_getExecOutput h "mise" ["env"; "--json"] (install_dir h)
       (s ⊕ mise_call h ["env"; "--json"]) = Ok out ->
     exportable_output out = true).
Proof.
  intros h s0. exact (success_requirements h s0 (state_of (main h) s0) ltac:(by vm_compute)).
Defined.
