(* ===== verification/Journal.v ===== *)
(** * Journal: the log of a run, as a function of what the host answers

    When nothing is thrown, everything the step emits and calls is
    determined by the inputs, the environment in which the step starts
    and three answers of the outside world: the hash of the configuration
    files, the key the cache service restores and the entries the tool
    prints.

    - [Answers], [answers]: these three answers, and a host that gives
      them whenever it is asked;
    - [stage_journal]: the events of each stage of the pipeline, in
      order; [journal_before] and [run_journal]: those of the stages
      before a stage and of the whole run;
    - [written_before]: the files written when a stage starts;
    - [outputs], [saved_state]: the outputs of the step and the state it
      saves for the post step, read off the journal.

    Theorems: at every stage the machine reaches without a throw the
    journal is the initial one followed by [journal_before], and that of
    a run that succeeds is [run_journal], while that of a run in which a
    stage throws an [Error] is [journal_before] that stage, what the
    stage emitted and the error command ([run_journal_spec]); what a run
    that succeeds hands over: one output [cache-hit], the state of the
    post step with [CACHE_KEY] exactly on a hit, and the two
    configuration files ([run_handover]). *)

From Stdlib Require Import Ascii ZArith.
From stdpp Require Import base option list strings gmap relations.
From S2P Require Import Prelude JsString Json Toolkit Platform.
From S2P Require Import ConfigWriter Installer Cache Invoker Exporter Run Progress Groups.
From S2P Require Import Environment.

(** ** Definitions *)

(** What the outside world answers during a run. *)
Record Answers : Type := mkAnswers {
  file_hash : string;                  (* glob.hashFiles *)
  restored : option string;            (* cache.restoreCache *)
  printed : list (string * json)       (* the entries of the output of mise env --json *)
}.

(** The events of [setEnv k v]. *)
Definition setEnv_events (k : string) (v : json) : list Event :=
  [Info ("Setting " +:+ k +:+ "=" +:+ js_to_string v); EnvCmd k (toCommandValue v)].

(** The events of [setEnvIfUnset k v] in the environment [e]. *)
Definition unset_events (e : gmap string string) (k v : string) : list Event :=
  if truthy_opt (e !! k) then [] else setEnv_events k (JString v).

(** The events of one round of the inner loop of [setEnvVars]. *)
Definition path_events (p : string) : list Event :=
  [Info ("Adding " +:+ p +:+ " to PATH"); PathCmd p].

(** The outputs among the events, and the state saved for the post step. *)
Definition outputs (evs : list Event) : list (string * string) :=
  omap (fun e => match e with OutputCmd n v => Some (n, v) | _ => None end) evs.

Definition saved_state (evs : list Event) : list (string * string) :=
  omap (fun e => match e with StateCmd n v => Some (n, v) | _ => None end) evs.

(** What the binary prints on the sample host, parsed. *)
Definition sample_printed : list (string * json) :=
  [("FOO", JString "bar"); ("PATH", JString "/a:/b")].

(** The stages of the pipeline, in order. *)
Definition pipeline_stages : list Stage :=
  [ WriteToolVersions; WriteMiseToml; CacheStage; SetupStage; PreInstallEnv; TestStage;
    InstallStage; ExportStage ].

(** The stages that have run when the machine is at [st]. *)
Definition stages_before (st : Stage) : list Stage :=
  take (length pipeline_stages - remaining st) pipeline_stages.

Section Journal.
Context (h : Host).

(** The events of a round of the outer loop of [setEnvVars]. *)
Definition export_events (entry : string * json) : list Event :=
  if negb (String.eqb entry.1 "PATH") then setEnv_events entry.1 entry.2
  else match entry.2 with
       | JString v => flat_map path_events (split_on (delimiter h) v)
       | _ => []
       end.

(** The events of [setEnvVarsPreInstall] in the environment [e]. *)
Definition bootstrap_events (e : gmap string string) : list Event :=
  GroupStart "Setting env vars for Mise" ::
  unset_events e "MISE_TRUSTED_CONFIG_PATHS" (cwd h) ++
  unset_events e "MISE_YES" "1" ++
  unset_events e "MISE_EXPERIMENTAL" (if getExperimental h then "1" else "0").

(** The events of [setToolVersions] and [setMiseToml]. *)
Definition write_events (name p : string) : list Event :=
  if truthy (getInput h name) then writeFile_events p (getInput h name) ++ [GroupEnd]
  else [].

(** What follows the answer of the cache service. *)
Definition restored_events (a : Answers) : list Event :=
  if truthy_opt (restored a)
  then [ OutputCmd "cache-hit" "true"; StateCmd "CACHE_KEY" (default "" (restored a));
         Info ("mise cache restored from key: " +:+ default "" (restored a)) ]
  else [ OutputCmd "cache-hit" "false";
         Info ("mise cache not found for " +:+ cache_key h (file_hash a)) ].

(** The events of the cache stage. *)
Definition cache_events (a : Answers) : list Event :=
  match parse_boolean (getInput h "cache"), parse_boolean (getInput h "cache_save") with
  | Some true, Some save => cache_to_restore h save (file_hash a) ++ restored_events a
  | Some false, _ => [OutputCmd "cache-hit" "false"]
  | _, _ => []
  end.

(** The events of a stage that returns, in a run that started in the
    environment [e0]. *)
Definition stage_journal (e0 : gmap string string) (a : Answers) (st : Stage) : list Event :=
  match st with
  | WriteToolVersions => write_events "tool_versions" ".tool-versions"
  | WriteMiseToml => write_events "mise_toml" ".mise.toml"
  | CacheStage => cache_events a
  | SetupStage => setup_to_chmod h (getInput h "version") ++ [PathCmd (miseBinDir h)]
  | PreInstallEnv => bootstrap_events (env_before h PreInstallEnv e0)
  | TestStage => mise_call h ["--version"] ++ [GroupEnd]
  | InstallStage =>
      match parse_boolean (getInput h "install") with
      | Some true => mise_call h ["install"] ++ [GroupEnd]
      | _ => []
      end
  | ExportStage => env_events h ++ flat_map export_events (printed a)
  | Done | Failed | Crashed _ => []
  end.

(** The events of the stages that have run when the machine is at [st],
    and those of a whole run. *)
Definition journal_before (e0 : gmap string string) (a : Answers) (st : Stage) : list Event :=
  flat_map (stage_journal e0 a) (stages_before st).

Definition run_journal (e0 : gmap string string) (a : Answers) : list Event :=
  flat_map (stage_journal e0 a) pipeline_stages.

(** The file an input is written to, when the input is not blank. *)
Definition write_input (name p : string) (f : gmap string string) : gmap string string :=
  if truthy (getInput h name) then <[p := getInput h name]> f else f.

(** The files of the step when the machine is at [st], in a run that
    started with the files [f0]. *)
Definition written_before (st : Stage) (f0 : gmap string string) : gmap string string :=
  match st with
  | WriteToolVersions => f0
  | WriteMiseToml => write_input "tool_versions" ".tool-versions" f0
  | _ => write_input "mise_toml" ".mise.toml"
           (write_input "tool_versions" ".tool-versions" f0)
  end.

(** The host gives the answers [a] whenever it is asked. *)
Record answers (a : Answers) : Prop := {
  answers_hash s : glob_hashFiles h cache_patterns s = Ok (file_hash a);
  answers_cache s :
    cache_restoreCache h [miseDir h] (cache_key h (file_hash a)) s = Ok (restored a);
  answers_env :
    exists out v, prints_env h out /\ JSON_parse (stdout out) = Ok v /\
                  Object_entries v = Ok (printed a)
}.

(** What holds when the machine is at the stage [st] with the run [s],
    having started with [s0]. *)
Definition at_boundary (s0 : Runner) (a : Answers) (st : Stage) (s : Runner) : Prop :=
  journal s = journal s0 ++ journal_before (env s0) a st /\
  files s = written_before st (files s0) /\
  (is_final st = false -> env s = env_before h st (env s0)).

End Journal.

(** ** Lemmas *)

Lemma outputs_app evs1 evs2 : outputs (evs1 ++ evs2) = outputs evs1 ++ outputs evs2.
Proof. apply omap_app. Qed.

Lemma saved_state_app evs1 evs2 :
  saved_state (evs1 ++ evs2) = saved_state evs1 ++ saved_state evs2.
Proof. apply omap_app. Qed.

(** The journal of a fold of effects that each append their events. *)
Lemma journal_foldl {A} (f : A -> Runner -> Runner) (ev : A -> list Event) l s :
  (forall a s, journal (f a s) = journal s ++ ev a) ->
  journal (foldl (fun s a => f a s) s l) = journal s ++ flat_map ev l.
Proof.
  intros Hf. revert s. induction l as [|a l IH]; intros s; simpl; [by rewrite app_nil_r|].
  by rewrite IH, Hf, <- app_assoc.
Qed.

Lemma unset_events_lookup e e' k v :
  e !! k = e' !! k -> unset_events e k v = unset_events e' k v.
Proof. unfold unset_events. by intros ->. Qed.

Lemma stages_before_next st :
  is_final st = false -> stages_before (next_stage st) = stages_before st ++ [st].
Proof. by destruct st. Qed.

Section JournalLemmas.
Context (h : Host).

Lemma journal_before_next e0 a st :
  is_final st = false ->
  journal_before h e0 a (next_stage st) = journal_before h e0 a st ++ stage_journal h e0 a st.
Proof.
  intros Hst. unfold journal_before.
  rewrite (stages_before_next st Hst), flat_map_app. simpl. by rewrite app_nil_r.
Qed.

Lemma journal_setEnvIfUnset_effect k v s :
  journal (setEnvIfUnset_effect k v s) = journal s ++ unset_events (env s) k v.
Proof.
  unfold setEnvIfUnset_effect, unset_events.
  destruct (truthy_opt _); simpl; by rewrite ?app_nil_r.
Qed.

Lemma journal_export_effect e s :
  journal (export_effect h e s) = journal s ++ export_events h e.
Proof.
  unfold export_effect, export_events. destruct (negb _); [done|].
  destruct e.2; try (by rewrite app_nil_r). by apply journal_foldl.
Qed.

(** The journal of the bootstrap: each test looks at the environment in
    which the stage started, since the three variables are different. *)
Lemma journal_bootstrap s r s' :
  setEnvVarsPreInstall h s = (r, s') -> journal s' = journal s ++ bootstrap_events h (env s).
Proof.
  rewrite setEnvVarsPreInstall_eq. intros [= _ <-]. rewrite !journal_setEnvIfUnset_effect.
  rewrite (unset_events_lookup _ (env s) "MISE_EXPERIMENTAL"),
    (unset_events_lookup _ (env s) "MISE_YES") by (by rewrite !env_setEnvIfUnset).
  unfold bootstrap_events. simpl. by rewrite <- !app_assoc.
Qed.

(** The journal of the cache stage when it returns. *)
Lemma cache_journal_ok a s s' :
  answers h a -> cache_stage h s = (Ok tt, s') -> journal s' = journal s ++ cache_events h a.
Proof.
  intros Ha. rewrite cache_stage_eq. unfold cache_events, restored_events.
  destruct (parse_boolean (getInput h "cache")) as [[]|]; [|by intros [= <-]|done].
  destruct (parse_boolean (getInput h "cache_save")) as [save|] eqn:Hsave;
    [|by rewrite (restoreMiseCache_bad_flag h s _ (answers_hash h a Ha _) Hsave)].
  destruct (truthy_opt (restored a)) eqn:Hhit.
  - destruct (restored a) as [k|] eqn:Hk; [|done].
    rewrite (restoreMiseCache_hit_eq h s (file_hash a) save k); [by intros [= <-]|..|done];
      [apply Ha|done|]. rewrite <- Hk. apply Ha.
  - rewrite (restoreMiseCache_miss_eq h s (file_hash a) save (restored a));
      [by intros [= <-]|..|done]; [apply Ha|done|apply Ha].
Qed.

(** The journal of a stage that returns. *)
Lemma stage_journal_ok a e0 st s s' :
  answers h a -> stage_action h st s = (Ok tt, s') ->
  (st = PreInstallEnv -> env s = env_before h PreInstallEnv e0) ->
  journal s' = journal s ++ stage_journal h e0 a st.
Proof.
  intros Ha Hact He. destruct st; simpl in Hact |- *; try (injection Hact as <-; by rewrite app_nil_r).
  - unfold setToolVersions in Hact. unfold write_events. destruct (truthy _).
    + by rewrite (writeFile_returns h _ _ _ _ Hact).
    + injection Hact as <-. by rewrite app_nil_r.
  - unfold setMiseToml in Hact. unfold write_events. destruct (truthy _).
    + by rewrite (writeFile_returns h _ _ _ _ Hact).
    + injection Hact as <-. by rewrite app_nil_r.
  - by apply cache_journal_ok.
  - destruct (setupMise_cases h (getInput h "version") s)
      as [[t E]|[[t E]|[[t E]|E]]]; rewrite E in Hact; try done. by injection Hact as <-.
  - rewrite (journal_bootstrap _ _ _ Hact). by rewrite He.
  - unfold bind, testMise in Hact. rewrite mise_eq in Hact.
    destruct (getExecOutput_result h _ _ _ _); simpl in Hact; unfold ret in Hact;
      by simplify_eq.
  - rewrite install_stage_eq in Hact.
    destruct (parse_boolean (getInput h "install")) as [[]|]; [|by simplify_eq; rewrite app_nil_r..].
    unfold bind, miseInstall in Hact. rewrite mise_eq in Hact.
    destruct (getExecOutput_result h _ _ _ _); simpl in Hact; unfold ret in Hact;
      by simplify_eq.
  - destruct (answers_env h a Ha) as (out & v & Hout & Hparse & Hentries).
    destruct (setEnvVars_returns h _ _ _ _ _ (Hout _) Hparse Hentries Hact) as [_ ->].
    rewrite (journal_foldl (export_effect h) (export_events h)) by apply journal_export_effect.
    simpl. by rewrite <- app_assoc.
Qed.

(** The stages after the Config Writer leave the files alone. *)
Lemma stage_files_kept st :
  st <> WriteToolVersions -> st <> WriteMiseToml -> Respects files_kept (stage_action h st).
Proof.
  destruct st; try done; intros _ _; simpl;
    unfold cache_stage, install_stage, testMise, miseInstall, getBooleanInput; solve_frame.
Qed.

Lemma stage_files_ok st s s' f0 :
  stage_action h st s = (Ok tt, s') -> files s = written_before h st f0 ->
  files s' = written_before h (next_stage st) f0.
Proof.
  intros Hact Hf.
  destruct (decide (st = WriteToolVersions)) as [->|H1]; [|destruct (decide (st = WriteMiseToml)) as [->|H2]].
  - simpl in *. unfold setToolVersions in Hact. unfold write_input. destruct (truthy _).
    + rewrite (writeFile_returns h _ _ _ _ Hact). simpl. by rewrite Hf.
    + by injection Hact as <-.
  - simpl in *. unfold setMiseToml in Hact. unfold write_input at 1. destruct (truthy _).
    + rewrite (writeFile_returns h _ _ _ _ Hact). simpl. by rewrite Hf.
    + by injection Hact as <-.
  - rewrite (respects_run files_kept _ _ _ _ (stage_files_kept st H1 H2) Hact), Hf.
    by destruct st.
Qed.

(** A stage that returns takes the boundary where it starts to the
    boundary where the next stage starts. *)
Lemma stage_boundary s0 a st s s' :
  answers h a -> is_final st = false -> at_boundary h s0 a st s ->
  stage_action h st s = (Ok tt, s') -> at_boundary h s0 a (next_stage st) s'.
Proof.
  intros Ha Hst (Hj & Hf & He) Hact. split; [|split].
  - rewrite (stage_journal_ok a (env s0) st s s' Ha Hact), Hj, journal_before_next, app_assoc;
      [done..|]. intros ->. by apply He.
  - by eapply stage_files_ok.
  - intros Hnext. eapply stage_env_ok; [|done|by apply He]. by intros ->.
Qed.

(** The boundary holds wherever the machine arrives without a throw. *)
Lemma reached_boundary s0 a c :
  answers h a -> rtc (step h) (WriteToolVersions, s0) c -> on_track c.1 = true ->
  at_boundary h s0 a c.1 c.2.
Proof.
  intros Ha. apply (reachable_boundary h (at_boundary h s0 a)).
  - intros st s s' Hst Hb Hact. by eapply stage_boundary.
  - split; [by rewrite app_nil_r|done].
Qed.

(** The events of a run whose body returns. *)
Lemma main_new_events s0 a s' :
  answers h a -> main h s0 = (Ok tt, s') -> new_events s0 s' = run_journal h (env s0) a.
Proof.
  intros Ha Hm%main_reaches_done.
  destruct (reached_boundary s0 a (Done, s') Ha Hm eq_refl) as (Hj & _ & _).
  unfold new_events. cbn [snd] in Hj. by rewrite Hj, drop_app_length.
Qed.

(** The journal of a run in which a stage throws an [Error]: the events
    of the stages before it, what the stage emitted before it threw, and
    the error command. *)
Lemma failed_run_journal s0 a st s name message s' :
  answers h a -> rtc (step h) (WriteToolVersions, s0) (st, s) -> is_final st = false ->
  stage_action h st s = (Throw (JsError name message), s') ->
  journal (state_of (run h) s0) =
    journal s0 ++ journal_before h (env s0) a st ++ new_events s s' ++ [ErrorCmd message].
Proof.
  intros Ha Hr Hf Hact.
  assert (on_track st = true) as Ht by (by destruct st).
  destruct (reached_boundary s0 a (st, s) Ha Hr Ht) as (Hj & _ & _). cbn [fst snd] in Hj.
  pose proof (respects_run journal_grows _ _ _ _ (stage_grows h st) Hact) as Hg.
  unfold state_of, run, catch. rewrite (failure_stops_main h _ _ _ _ _ Hr Hf Hact). act_run.
  by rewrite (journal_new_events _ _ Hg), Hj, <-!app_assoc.
Qed.

(** *** Outputs and saved state *)

Lemma omap_flat_map_nil {A B} (g : Event -> option B) (f : A -> list Event) l :
  (forall x, omap g (f x) = []) -> omap g (flat_map f l) = [].
Proof.
  intros Hf. induction l as [|x l IH]; [done|]. simpl. by rewrite omap_app, Hf, IH.
Qed.

(** Only the cache stage sets an output or saves state. *)
Lemma stage_handover e0 a st :
  st <> CacheStage ->
  outputs (stage_journal h e0 a st) = [] /\ saved_state (stage_journal h e0 a st) = [].
Proof.
  intros Hst. destruct st; try done; simpl;
    unfold write_events, bootstrap_events, unset_events; repeat case_match; try done.
  unfold outputs, saved_state. rewrite !omap_flat_map_nil; [done|intros e..]; unfold export_events;
    repeat case_match; try done; by apply omap_flat_map_nil.
Qed.

Lemma run_outputs e0 a :
  outputs (run_journal h e0 a) = outputs (cache_events h a) /\
  saved_state (run_journal h e0 a) = saved_state (cache_events h a).
Proof.
  unfold run_journal. cbn [flat_map pipeline_stages]. rewrite !outputs_app, !saved_state_app.
  pose proof (fun st H => proj1 (stage_handover e0 a st H)) as Ho.
  pose proof (fun st H => proj2 (stage_handover e0 a st H)) as Hs.
  rewrite (Ho WriteToolVersions), (Ho WriteMiseToml), (Ho SetupStage), (Ho PreInstallEnv),
    (Ho TestStage), (Ho InstallStage), (Ho ExportStage) by done.
  rewrite (Hs WriteToolVersions), (Hs WriteMiseToml), (Hs SetupStage), (Hs PreInstallEnv),
    (Hs TestStage), (Hs InstallStage), (Hs ExportStage) by done.
  by rewrite !app_nil_r.
Qed.

(** What the cache stage hands over, with inputs that are booleans. *)
Lemma cache_handover a :
  valid_inputs h = true ->
  outputs (cache_events h a) =
    [("cache-hit", string_of_bool (cache_enabled h && truthy_opt (restored a)))] /\
  saved_state (cache_events h a) =
    match (if cache_enabled h then parse_boolean (getInput h "cache_save") else None) with
    | Some save =>
        [("CACHE", string_of_bool save); ("PRIMARY_KEY", cache_key h (file_hash a));
         ("MISE_DIR", miseDir h)] ++
        (if truthy_opt (restored a) then [("CACHE_KEY", default "" (restored a))] else [])
    | None => []
    end.
Proof.
  unfold valid_inputs, cache_events, cache_enabled, restored_events.
  destruct (parse_boolean (getInput h "cache")) as [[]|]; [| |done];
    destruct (parse_boolean (getInput h "install")); try done;
    destruct (parse_boolean (getInput h "cache_save")); try done;
    by destruct (truthy_opt (restored a)).
Qed.

End JournalLemmas.

(** The sample host gives the same answers whenever it is asked. *)
Lemma sample_host_answers inputs env_json hit v entries :
  JSON_parse env_json = Ok v -> Object_entries v = Ok entries ->
  answers (sample_host inputs env_json hit)
    {| file_hash := "0f1e2d"; restored := hit; printed := entries |}.
Proof.
  intros Hparse Hentries. split; [by intros s..|].
  exists {| exitCode := 0; stdout := env_json; stderr := "" |}, v. by split; [intros r|].
Qed.

Lemma sample_answers inputs hit :
  answers (sample_host inputs example_json hit)
    {| file_hash := "0f1e2d"; restored := hit; printed := sample_printed |}.
Proof. by apply (sample_host_answers _ _ _ (JObject sample_printed)); vm_compute. Qed.

(** ** Theorems *)

(** C14: the log of a run in which nothing is thrown is a function of the
    inputs, of the environment in which the run starts and of the answers
    of the host.  At every stage the machine reaches without a throw, the
    journal is the initial journal followed by the events of the stages
    that have run, in the order of the pipeline; the journal of a run
    whose body returns is the initial one followed by [run_journal]; and
    the journal of a run in which a stage throws an [Error] is the
    initial one followed by the events of the stages before it, by what
    that stage emitted before it threw, and by the error command, which
    is its last event. *)
Theorem run_journal_spec (h : Host) (a : Answers) (s0 : Runner) :
  answers h a ->
  (forall st s, rtc (step h) (WriteToolVersions, s0) (st, s) -> on_track st = true ->
     journal s = journal s0 ++ journal_before h (env s0) a st) /\
  (forall s', main h s0 = (Ok tt, s') ->
     run h s0 = (Ok tt, s') /\ journal s' = journal s0 ++ run_journal h (env s0) a) /\
  (forall st s name message s',
     rtc (step h) (WriteToolVersions, s0) (st, s) -> is_final st = false ->
     stage_action h st s = (Throw (JsError name message), s') ->
     journal (state_of (run h) s0) =
       journal s0 ++ journal_before h (env s0) a st ++ new_events s s' ++ [ErrorCmd message]).
Proof.
  intros Ha. split; [|split].
  - intros st s Hr Ht. by destruct (reached_boundary h s0 a (st, s) Ha Hr Ht).
  - intros s' Hm. split; [unfold run, catch; by rewrite Hm|].
    pose proof (respects_run journal_grows _ _ _ _ (main_grows h) Hm) as Hg.
    by rewrite (journal_new_events _ _ Hg), (main_new_events h s0 a s' Ha Hm).
  - intros st s name message s'. by apply failed_run_journal.
Qed.

(** C15: what a run that succeeds hands over to the platform and to the
    post step.  It has set exactly one output, [cache-hit], which is true
    exactly when the cache is enabled and the service restored a key; it
    has saved state only when the cache is enabled: [CACHE],
    [PRIMARY_KEY] and [MISE_DIR], followed by [CACHE_KEY] exactly when
    [cache-hit] is true; and the files of the step are those it started
    with and the two configuration files whose input is not blank. *)
Theorem run_handover (h : Host) (a : Answers) (s0 s' : Runner) :
  answers h a -> main h s0 = (Ok tt, s') ->
  outputs (new_events s0 s') =
    [("cache-hit", string_of_bool (cache_enabled h && truthy_opt (restored a)))] /\
  saved_state (new_events s0 s') =
    match (if cache_enabled h then parse_boolean (getInput h "cache_save") else None) with
    | Some save =>
        [("CACHE", string_of_bool save); ("PRIMARY_KEY", cache_key h (file_hash a));
         ("MISE_DIR", miseDir h)] ++
        (if truthy_opt (restored a) then [("CACHE_KEY", default "" (restored a))] else [])
    | None => []
    end /\
  files s' =
    write_input h "mise_toml" ".mise.toml"
      (write_input h "tool_versions" ".tool-versions" (files s0)).
Proof.
  intros Ha Hm. rewrite (main_new_events h s0 a s' Ha Hm).
  destruct (run_outputs h (env s0) a) as [-> ->].
  destruct (cache_handover h a (success_valid_inputs h _ _ Hm)) as [-> ->].
  by destruct (reached_boundary h s0 a (Done, s') Ha (main_reaches_done h _ _ Hm) eq_refl)
    as (_ & Hf & _).
Qed.

(** ** Witnesses *)

Lemma run_journal_spec_witness :
  let h := sample_host usual_inputs example_json None in
  let s0 := initial_runner {[ "PATH" := "/usr/bin" ]} in
  let a := {| file_hash := "0f1e2d"; restored := None; printed := sample_printed |} in
  journal (state_of (main h) s0) = run_journal h (env s0) a.
Proof.
  intros h s0 a.
  pose proof (run_journal_spec h a s0 (sample_answers usual_inputs None)) as (_ & Hrun & _).
  exact (proj2 (Hrun (state_of (main h) s0) ltac:(by vm_compute))).
Defined.

(** The log of the run on the sample host, from the bootstrap on, with
    [MISE_YES] set by the workflow. *)
Example run_journal_sample :
  let h := sample_host usual_inputs example_json None in
  let a := {| file_hash := "0f1e2d"; restored := None; printed := sample_printed |} in
  drop 13 (run_journal h {[ "PATH" := "/usr/bin"; "MISE_YES" := "0" ]} a) =
    [ GroupStart "Setting env vars for Mise";
      Info "Setting MISE_TRUSTED_CONFIG_PATHS=/work"; EnvCmd "MISE_TRUSTED_CONFIG_PATHS" "/work";
      Info "Setting MISE_EXPERIMENTAL=0"; EnvCmd "MISE_EXPERIMENTAL" "0";
      GroupStart "Running mise --version"; ExecOutputCall "mise" ["--version"] "/work"; GroupEnd;
      GroupStart "Running mise install"; ExecOutputCall "mise" ["install"] "/work"; GroupEnd;
      GroupStart "Running mise env --json"; ExecOutputCall "mise" ["env"; "--json"] "/work";
      GroupEnd;
      GroupStart "Setting env vars"; Info "Setting FOO=bar"; EnvCmd "FOO" "bar";
      Info "Adding /a to PATH"; PathCmd "/a"; Info "Adding /b to PATH"; PathCmd "/b" ].
Proof. vm_compute. reflexivity. Qed.

(** The log of a run in which chmod exits with 1. *)
Example failed_run_journal_sample :
  let h := exiting "chmod" 1 (sample_host usual_inputs example_json None) in
  let s0 := initial_runner {[ "PATH" := "/usr/bin" ]} in
  let a := {| file_hash := "0f1e2d"; restored := None; printed := sample_printed |} in
  journal (state_of (run h) s0) =
    journal_before h (env s0) a SetupStage ++ setup_to_chmod h (getInput h "version") ++
    [ErrorCmd "The process '/usr/bin/chmod' failed with exit code 1"].
Proof. vm_compute. reflexivity. Qed.

Lemma run_handover_witness :
  let key := "mise-v0-linux-x64-0f1e2d" in
  let h := sample_host (<["tool_versions" := "node 20"]> usual_inputs) example_json (Some key) in
  let s0 := initial_runner {[ "PATH" := "/usr/bin" ]} in
  let s' := state_of (main h) s0 in
  outputs (new_events s0 s') = [("cache-hit", "true")] /\
  saved_state (new_events s0 s') =
    [ ("CACHE", "true"); ("PRIMARY_KEY", key); ("MISE_DIR", "/home/runner/.local/share/mise");
      ("CACHE_KEY", key) ] /\
  files s' = {[ ".tool-versions" := "node 20" ]}.
Proof.
  intros key h s0 s'.
  pose proof (run_handover h
                {| file_hash := "0f1e2d"; restored := Some key; printed := sample_printed |}
                s0 s' (sample_answers _ _) ltac:(by vm_compute)) as (Hout & Hstate & Hfiles).
  split; [|split].
  - exact (eq_trans Hout ltac:(by vm_compute)).
  - exact (eq_trans Hstate ltac:(by vm_compute)).
  - exact (eq_trans Hfiles ltac:(by vm_compute)).
Defined.
